(** * Content Warehouse API: a shallow embedding of [server.js]

    The service is an Express application: a route table of seven GET
    handlers, each of which talks to a Redis cache ([redisClient.get],
    [redisClient.setEx]) and to a PostgreSQL pool ([pool.query]).  This
    development embeds

    - the JavaScript values the handlers manipulate (strings, numbers,
      [undefined], plain objects) together with the coercions the source
      relies on ([ToNumber], [parseInt], template strings, truthiness,
      [JSON.stringify], [JSON.parse]);
    - the parameterised queries the handlers assemble, and the table they
      are run against;
    - the cache, with its expiry times and its failures;
    - the handlers themselves, as programs in a small state/exception/trace
      monad, and the route table in registration order.

    JavaScript numbers are IEEE doubles.  The embedding tracks the integers
    exactly (as [Z]) and lumps every other number ([NaN], the infinities,
    fractions) into one value [NonInt]; arithmetic is exact on the integers,
    which is what the doubles do below 2^53: numbers beyond that, and
    numerals that are not plain integer literals, are outside the statements
    about page, limit and counts.  Strings are strings of bytes. *)

From Stdlib Require Import ZArith Lia List Bool Ascii String.
From Stdlib Require Import DecimalString DecimalZ.
From stdpp Require Import base option gmap strings list.
Import ListNotations.

Set Warnings "-register-all".

Local Open Scope string_scope.
Local Open Scope list_scope.
Local Open Scope Z_scope.

(** ** Characters and strings *)

Module Str.

Definition is_digit (c : ascii) : bool :=
  let n := N_of_ascii c in ((48 <=? n) && (n <=? 57))%N.

Definition is_upper (c : ascii) : bool :=
  let n := N_of_ascii c in ((65 <=? n) && (n <=? 90))%N.

(** [String.prototype.toLowerCase] on the ASCII letters. *)
Definition lower_char (c : ascii) : ascii :=
  if is_upper c then ascii_of_N (N_of_ascii c + 32) else c.

Fixpoint lower (s : string) : string :=
  match s with
  | EmptyString => EmptyString
  | String c s' => String (lower_char c) (lower s')
  end.

(** Does the character [c] occur in [s]? *)
Fixpoint mem (c : ascii) (s : string) : bool :=
  match s with
  | EmptyString => false
  | String d s' => Ascii.eqb c d || mem c s'
  end.

(** [s.split(sep)] for a one-character separator. *)
Fixpoint split (sep : ascii) (s : string) : list string :=
  match s with
  | EmptyString => [EmptyString]
  | String c s' =>
      if Ascii.eqb c sep then EmptyString :: split sep s'
      else match split sep s' with
           | [] => [String c EmptyString]
           | w :: ws => String c w :: ws
           end
  end.

(** [parts.join(sep)]. *)
Fixpoint join (sep : string) (parts : list string) : string :=
  match parts with
  | [] => EmptyString
  | [p] => p
  | p :: ps => p +:+ sep +:+ join sep ps
  end.

(** The longest prefix of decimal digits, and what follows it. *)
Fixpoint span_digits (s : string) : string * string :=
  match s with
  | EmptyString => (EmptyString, EmptyString)
  | String c s' =>
      if is_digit c
      then let '(d, r) := span_digits s' in (String c d, r)
      else (EmptyString, s)
  end.

End Str.

(** ** JavaScript values *)

(** Numbers: the integers, and everything else. *)
Inductive jsnum :=
| Int (z : Z)
| NonInt.

Inductive jsval :=
| VUndef
| VNull
| VBool (b : bool)
| VNum (n : jsnum)
| VStr (s : string)
| VDate (iso : string)            (* a [Date]; [iso] is its [toISOString()] *)
| VArr (items : list jsval)
| VObj (props : list (string * jsval)).

Definition jsnum_eqb (a b : jsnum) : bool :=
  match a, b with
  | Int x, Int y => x =? y
  | NonInt, NonInt => true
  | _, _ => false
  end.

(** Decimal rendering of an integer, [Number.prototype.toString]. *)
Definition string_of_Z (z : Z) : string :=
  NilZero.string_of_int (Z.to_int z).

(** A string that is a plain integer literal: an optional minus sign and
    one or more decimal digits. *)
Definition Z_of_string (s : string) : option Z :=
  option_map Z.of_int (NilZero.int_of_string s).

Module JS.

(** [Boolean(v)]: the test of [if (v)], [!v] and [v || w]. *)
Definition truthy (v : jsval) : bool :=
  match v with
  | VUndef | VNull => false
  | VBool b => b
  | VNum (Int z) => negb (z =? 0)
  | VNum NonInt => true      (* a fraction or an infinity; [NaN] never reaches a test *)
  | VStr s => negb (String.eqb s "")
  | VDate _ | VArr _ | VObj _ => true
  end.

(** [a || b]. *)
Definition or (a b : jsval) : jsval := if truthy a then a else b.

(** [Number(s)] for a string: the empty string is 0, an integer literal is
    its value. *)
Definition ToNumber_string (s : string) : jsnum :=
  if String.eqb s "" then Int 0
  else match Z_of_string s with
       | Some z => Int z
       | None => NonInt
       end.

Definition ToNumber (v : jsval) : jsnum :=
  match v with
  | VNum n => n
  | VStr s => ToNumber_string s
  | VNull => Int 0
  | VBool b => Int (if b then 1 else 0)
  | _ => NonInt
  end.

Definition num_of_uint_string (digits : string) : jsnum :=
  match NilEmpty.uint_of_string digits with
  | Some d => Int (Z.of_uint d)
  | None => NonInt
  end.

(** [parseInt(s)]: an optional sign, then the longest run of digits; [NaN]
    when there is no digit. *)
Definition parseInt_string (s : string) : jsnum :=
  let '(neg, body) :=
    match s with
    | String "-" s' => (true, s')
    | String "+" s' => (false, s')
    | _ => (false, s)
    end in
  match fst (Str.span_digits body) with
  | EmptyString => NonInt
  | ds => match num_of_uint_string ds with
          | Int z => Int (if neg then - z else z)
          | NonInt => NonInt
          end
  end.

(** [`${v}`] and [String(v)] on the values the handlers interpolate. *)
Definition ToString (v : jsval) : string :=
  match v with
  | VUndef => "undefined"
  | VNull => "null"
  | VBool true => "true"
  | VBool false => "false"
  | VNum (Int z) => string_of_Z z
  | VNum NonInt => "NaN"
  | VStr s => s
  | VDate iso => iso
  | VArr _ => ""
  | VObj _ => "[object Object]"
  end.

Definition parseInt (v : jsval) : jsnum :=
  match v with
  | VNum n => n
  | _ => parseInt_string (ToString v)
  end.

(** [a - b], [a * b]. *)
Definition sub (a b : jsnum) : jsnum :=
  match a, b with
  | Int x, Int y => Int (x - y)
  | _, _ => NonInt
  end.

Definition mul (a b : jsnum) : jsnum :=
  match a, b with
  | Int x, Int y => Int (x * y)
  | _, _ => NonInt
  end.

(** [Math.ceil(a / b)].  Division by zero gives an infinity or [NaN]. *)
Definition ceil_div (a b : jsnum) : jsnum :=
  match a, b with
  | Int x, Int y => if y =? 0 then NonInt else Int (- ((- x) / y))
  | _, _ => NonInt
  end.

(** Reading a property: [obj[k]], [undefined] when absent. *)
Fixpoint get_prop (props : list (string * jsval)) (k : string) : jsval :=
  match props with
  | [] => VUndef
  | (k', v) :: rest => if String.eqb k k' then v else get_prop rest k
  end.

Definition get (v : jsval) (k : string) : jsval :=
  match v with
  | VObj props => get_prop props k
  | _ => VUndef
  end.

(** [obj[k] = v] on an object created by [{}]: an own property is
    overwritten in place, a new one is added after the others.  The name
    ["__proto__"] is not an own property of such an object: it is the
    accessor inherited from [Object.prototype], whose setter ignores every
    value that is neither an object nor [null]. *)
Fixpoint set_own (props : list (string * jsval)) (k : string) (v : jsval)
  : list (string * jsval) :=
  match props with
  | [] => [(k, v)]
  | (k', v') :: rest =>
      if String.eqb k k' then (k, v) :: rest else (k', v') :: set_own rest k v
  end.

Definition set_prop (props : list (string * jsval)) (k : string) (v : jsval)
  : list (string * jsval) :=
  if String.eqb k "__proto__" then props else set_own props k v.

End JS.

(** ** JSON *)

Module JSON.

Definition dquote : ascii := "034"%char.
Definition backslash : ascii := "092"%char.

Definition hex_digit (n : N) : ascii :=
  if (n <? 10)%N then ascii_of_N (48 + n) else ascii_of_N (87 + n).

Definition hex_val (c : ascii) : option N :=
  let n := N_of_ascii c in
  if ((48 <=? n) && (n <=? 57))%N then Some (n - 48)%N
  else if ((97 <=? n) && (n <=? 102))%N then Some (n - 87)%N
  else if ((65 <=? n) && (n <=? 70))%N then Some (n - 55)%N
  else None.

(** The escape [JSON.stringify] writes for one character of a string. *)
Definition escape_char (c : ascii) : string :=
  let n := N_of_ascii c in
  if Ascii.eqb c dquote then String backslash (String dquote "")
  else if Ascii.eqb c backslash then String backslash (String backslash "")
  else if (n =? 8)%N then String backslash "b"
  else if (n =? 9)%N then String backslash "t"
  else if (n =? 10)%N then String backslash "n"
  else if (n =? 12)%N then String backslash "f"
  else if (n =? 13)%N then String backslash "r"
  else if (n <? 32)%N then
    String backslash
      (String "u" (String "0" (String "0"
         (String (hex_digit (n / 16)) (String (hex_digit (n mod 16)) "")))))
  else String c "".

Fixpoint escape (s : string) : string :=
  match s with
  | EmptyString => EmptyString
  | String c s' => escape_char c +:+ escape s'
  end.

(** A string as JSON text. *)
Definition quote (s : string) : string :=
  String dquote (escape s +:+ String dquote "").

(** [JSON.stringify(v)]; [None] is the [undefined] it returns for
    [undefined].  An [undefined] property is left out, an [undefined] array
    element is [null], a number that is not finite is [null], a [Date] is
    its ISO string. *)
Fixpoint stringify (v : jsval) : option string :=
  match v with
  | VUndef => None
  | VNull => Some "null"
  | VBool true => Some "true"
  | VBool false => Some "false"
  | VNum (Int z) => Some (string_of_Z z)
  | VNum NonInt => Some "null"
  | VStr s => Some (quote s)
  | VDate iso => Some (quote iso)
  | VArr items =>
      Some ("[" +:+
            Str.join "," (List.map (fun x => default "null" (stringify x)) items)
            +:+ "]")
  | VObj props =>
      Some ("{" +:+
            Str.join ","
              (List.flat_map
                 (fun kv => match stringify (snd kv) with
                            | Some t => [quote (fst kv) +:+ ":" +:+ t]
                            | None => []
                            end) props)
            +:+ "}")
  end.

(** [JSON.stringify] of a value that is not [undefined]. *)
Definition stringify' (v : jsval) : string := default "null" (stringify v).

(** *** Parsing *)

Definition is_ws (c : ascii) : bool :=
  let n := N_of_ascii c in
  ((n =? 32) || (n =? 9) || (n =? 10) || (n =? 13))%N.

Fixpoint skip_ws (s : string) : string :=
  match s with
  | String c s' => if is_ws c then skip_ws s' else s
  | EmptyString => EmptyString
  end.

Definition cons_char (c : ascii) (r : option (string * string))
  : option (string * string) :=
  match r with
  | Some (t, rest) => Some (String c t, rest)
  | None => None
  end.

(** The characters of a string literal after its opening quote, up to the
    closing quote; returns the decoded string and the rest of the input.
    Escapes of code units above 255 are outside the byte strings of the
    embedding. *)
Fixpoint read_string (s : string) : option (string * string) :=
  match s with
  | EmptyString => None
  | String c s' =>
      if Ascii.eqb c dquote then Some (EmptyString, s')
      else if Ascii.eqb c backslash then
        match s' with
        | String e s'' =>
            if Ascii.eqb e dquote then cons_char dquote (read_string s'')
            else if Ascii.eqb e backslash then cons_char backslash (read_string s'')
            else if Ascii.eqb e "/" then cons_char "/" (read_string s'')
            else if Ascii.eqb e "b" then cons_char "008" (read_string s'')
            else if Ascii.eqb e "t" then cons_char "009" (read_string s'')
            else if Ascii.eqb e "n" then cons_char "010" (read_string s'')
            else if Ascii.eqb e "f" then cons_char "012" (read_string s'')
            else if Ascii.eqb e "r" then cons_char "013" (read_string s'')
            else if Ascii.eqb e "u" then
              match s'' with
              | String h1 (String h2 (String h3 (String h4 r))) =>
                  match hex_val h1, hex_val h2, hex_val h3, hex_val h4 with
                  | Some a, Some b, Some c', Some d =>
                      let code := (((a * 16 + b) * 16 + c') * 16 + d)%N in
                      if (code <? 256)%N
                      then cons_char (ascii_of_N code) (read_string r)
                      else None
                  | _, _, _, _ => None
                  end
              | _ => None
              end
            else None
        | EmptyString => None
        end
      else if (N_of_ascii c <? 32)%N then None
      else cons_char c (read_string s')
  end.

(** The exponent of a number, if there is one: [e] or [E], an optional
    sign, digits.  Returns its value (0 without exponent) and what follows. *)
Definition read_exponent (s : string) : option (Z * string) :=
  match s with
  | String c r =>
      if Ascii.eqb c "e" || Ascii.eqb c "E" then
        let '(eneg, r1) :=
          match r with
          | String "-" r' => (true, r')
          | String "+" r' => (false, r')
          | _ => (false, r)
          end in
        let '(es, r2) := Str.span_digits r1 in
        match es with
        | EmptyString => None
        | _ => match JS.num_of_uint_string es with
               | Int e => Some (if eneg then - e else e, r2)
               | NonInt => None
               end
        end
      else Some (0, s)
  | EmptyString => Some (0, EmptyString)
  end.

(** The number whose digits are [m], scaled by [10 ^ scale]: tracked when it
    is an integer; too large for the doubles it is an infinity, too small it
    is zero. *)
Definition scaled (m scale : Z) : jsnum :=
  let largest := 2 ^ 1024 - 2 ^ 970 in
  if m =? 0 then Int 0
  else if 0 <=? scale then
    (if (scale <=? 400) && (m * 10 ^ scale <? largest)
     then Int (m * 10 ^ scale) else NonInt)
  else if Z.log2 m + 1075 <? - scale then Int 0
  else if m * 2 ^ 1075 <=? 10 ^ (- scale) then Int 0
  else if m mod 10 ^ (- scale) =? 0 then
    (if m / 10 ^ (- scale) <? largest then Int (m / 10 ^ (- scale)) else NonInt)
  else NonInt.

(** A number with a fraction or an exponent after its integer part [ds]:
    a point and digits, then the exponent. *)
Definition read_fraction (neg : bool) (ds rest : string) : option (jsval * string) :=
  let '(fs, rest1, well) :=
    match rest with
    | String "." r =>
        let '(fs, r') := Str.span_digits r in
        (fs, r', negb (String.eqb fs ""))
    | _ => (EmptyString, rest, true)
    end in
  if well then
    match read_exponent rest1, JS.num_of_uint_string (ds +:+ fs) with
    | Some (e, rest2), Int m =>
        let v := scaled m (e - Z.of_nat (String.length fs)) in
        Some (VNum match v with
                   | Int z => Int (if neg then - z else z)
                   | NonInt => NonInt
                   end, rest2)
    | _, _ => None
    end
  else None.

(** A number: an optional minus sign, an integer part without a leading
    zero, then an optional fraction and an optional exponent.  Digits alone
    give the integer; with a fraction or an exponent the value is tracked
    when it is an integer. *)
Definition read_number (s : string) : option (jsval * string) :=
  let '(neg, body) :=
    match s with
    | String "-" s' => (true, s')
    | _ => (false, s)
    end in
  let '(ds, rest) := Str.span_digits body in
  match ds with
  | EmptyString => None
  | String "0" (String _ _) => None
  | _ =>
      match rest with
      | String "." _ | String "e" _ | String "E" _ => read_fraction neg ds rest
      | _ =>
          match JS.num_of_uint_string ds with
          | Int z => Some (VNum (Int (if neg then - z else z)), rest)
          | NonInt => None
          end
      end
  end.

Fixpoint parse_value (fuel : nat) (s : string) : option (jsval * string) :=
  match fuel with
  | O => None
  | S fuel' =>
      match skip_ws s with
      | String "n" (String "u" (String "l" (String "l" r))) => Some (VNull, r)
      | String "t" (String "r" (String "u" (String "e" r))) => Some (VBool true, r)
      | String "f" (String "a" (String "l" (String "s" (String "e" r)))) =>
          Some (VBool false, r)
      | String "[" r =>
          match skip_ws r with
          | String "]" r' => Some (VArr [], r')
          | _ => match parse_elements fuel' r with
                 | Some (vs, r') => Some (VArr vs, r')
                 | None => None
                 end
          end
      | String "{" r =>
          match skip_ws r with
          | String "}" r' => Some (VObj [], r')
          | _ => match parse_members fuel' [] r with
                 | Some (ps, r') => Some (VObj ps, r')
                 | None => None
                 end
          end
      | String c r =>
          if Ascii.eqb c dquote then
            match read_string r with
            | Some (t, r') => Some (VStr t, r')
            | None => None
            end
          else read_number (String c r)
      | EmptyString => None
      end
  end
with parse_elements (fuel : nat) (s : string) : option (list jsval * string) :=
  match fuel with
  | O => None
  | S fuel' =>
      match parse_value fuel' s with
      | Some (v, r) =>
          match skip_ws r with
          | String "," r' =>
              match parse_elements fuel' r' with
              | Some (vs, r'') => Some (v :: vs, r'')
              | None => None
              end
          | String "]" r' => Some ([v], r')
          | _ => None
          end
      | None => None
      end
  end
with parse_members (fuel : nat) (acc : list (string * jsval)) (s : string)
  : option (list (string * jsval) * string) :=
  match fuel with
  | O => None
  | S fuel' =>
      match skip_ws s with
      | String c r =>
          if Ascii.eqb c dquote then
            match read_string r with
            | Some (k, r1) =>
                match skip_ws r1 with
                | String ":" r2 =>
                    match parse_value fuel' r2 with
                    | Some (v, r3) =>
                        let acc' := JS.set_own acc k v in
                        match skip_ws r3 with
                        | String "," r4 => parse_members fuel' acc' r4
                        | String "}" r4 => Some (acc', r4)
                        | _ => None
                        end
                    | None => None
                    end
                | _ => None
                end
            | None => None
            end
          else None
      | EmptyString => None
      end
  end.

(** [JSON.parse(s)]; [None] is the [SyntaxError] it throws. *)
Definition parse (s : string) : option jsval :=
  match parse_value (2 * String.length s + 2) s with
  | Some (v, r) => if String.eqb (skip_ws r) "" then Some v else None
  | None => None
  end.

End JSON.

(** ** The store *)

(** Modelled from the spec: the [content] table and the SQL the handlers
    send to it are PostgreSQL's, not code of this repository.  The data model
    of the specification gives the columns; [id] and the counters are
    integers, [created_date] is a timestamp (kept as its ISO-8601 text, whose
    alphabetical order is the chronological one), every other column is text
    ([ai_topics] is kept in its textual form). *)

Module SQL.

Inductive sqlval :=
| SNull
| SInt (z : Z)
| SText (s : string)
| STime (iso : string).

Definition row := list (string * sqlval).
Definition table := list row.

Fixpoint col (r : row) (c : string) : sqlval :=
  match r with
  | [] => SNull
  | (c', v) :: rest => if String.eqb c c' then v else col rest c
  end.

Definition sqlval_eqb (a b : sqlval) : bool :=
  match a, b with
  | SNull, SNull => true
  | SInt x, SInt y => x =? y
  | SText x, SText y => String.eqb x y
  | STime x, STime y => String.eqb x y
  | _, _ => false
  end.

Inductive coltype := TInt | TText | TTime.

Definition column_type (c : string) : coltype :=
  if existsb (String.eqb c)
       ["id"; "word_count"; "file_size"; "duration_seconds"; "page_count"]
  then TInt
  else if String.eqb c "created_date" then TTime
  else TText.

(** What the driver hands to a row of a result: integers as numbers, text as
    strings, timestamps as [Date] objects, NULL as [null]. *)
Definition js_of_sql (v : sqlval) : jsval :=
  match v with
  | SNull => VNull
  | SInt z => VNum (Int z)
  | SText s => VStr s
  | STime iso => VDate iso
  end.

(** How the driver sends a query argument: a string as it is, a number by
    its [toString()], [null] and [undefined] as NULL ([None]). *)
Definition pg_text (v : jsval) : option string :=
  match v with
  | VUndef | VNull => None
  | v => Some (JS.ToString v)
  end.

(** *** [LIKE] patterns: [%] is any run of characters, [_] any one
    character, a backslash takes the next character literally. *)
Fixpoint like (p : string) : string -> bool :=
  match p with
  | EmptyString => fun s => String.eqb s ""
  | String c p' =>
      if Ascii.eqb c "%" then
        fix any (s : string) : bool :=
          like p' s || match s with
                       | EmptyString => false
                       | String _ s' => any s'
                       end
      else if Ascii.eqb c "_" then
        fun s => match s with
                 | EmptyString => false
                 | String _ s' => like p' s'
                 end
      else if Ascii.eqb c JSON.backslash then
        match p' with
        | EmptyString => fun _ => false
        | String e p'' =>
            fun s => match s with
                     | EmptyString => false
                     | String d s' => Ascii.eqb d e && like p'' s'
                     end
        end
      else
        fun s => match s with
                 | EmptyString => false
                 | String d s' => Ascii.eqb d c && like p' s'
                 end
  end.

Definition ilike (p s : string) : bool := like (Str.lower p) (Str.lower s).

(** *** Queries *)

(** One condition of a WHERE clause; [n] is the placeholder [$n]. *)
Inductive cond :=
| Eq (c : string) (n : nat)          (* c = $n *)
| ILike (c : string) (n : nat)       (* c ILIKE $n, c::text ILIKE $n *)
| NotNull (c : string)               (* c IS NOT NULL *)
| Or (a b : cond).                   (* (a OR b) *)

Inductive target :=
| Star                               (* SELECT * *)
| Cols (cs : list string)            (* SELECT c1, c2, ... *)
| Count                              (* SELECT COUNT of the rows *)
| GroupCount (c : string)            (* SELECT c, COUNT as count ... GROUP BY c *)
| Avg (c : string).                  (* SELECT AVG(c) *)

(** A LIMIT or OFFSET: a placeholder or a literal of the query text. *)
Inductive bound :=
| Placeholder (n : nat)
| Literal (z : Z).

Record query := Query {
  q_target : target;
  q_where : list cond;               (* joined by AND *)
  q_order_desc : option string;      (* ORDER BY c DESC *)
  q_limit : option bound;
  q_offset : option bound
}.

(** The argument bound to [$n]. *)
Definition arg (ps : list jsval) (n : nat) : option string :=
  match n with
  | O => None
  | S i => match nth_error ps i with
           | Some v => pg_text v
           | None => None
           end
  end.

(** *** Integers in arguments

    An argument arrives as text.  Where the statement wants an integer the
    server reads it as its integer input routines do: white space around it
    is skipped, a sign may come first, then decimal digits and nothing else
    (the decimal form only: the other bases and the digit separators that
    later versions of the server read are left out); the value has to fit
    the type ([integer] has 32 bits, [bigint] 64). *)
Definition is_space (c : ascii) : bool :=
  let n := N_of_ascii c in
  (((9 <=? n) && (n <=? 13)) || (n =? 32))%N.

Fixpoint ltrim (s : string) : string :=
  match s with
  | String c s' => if is_space c then ltrim s' else s
  | EmptyString => EmptyString
  end.

Fixpoint rtrim (s : string) : string :=
  match s with
  | EmptyString => EmptyString
  | String c s' =>
      match rtrim s' with
      | EmptyString => if is_space c then EmptyString else String c EmptyString
      | r => String c r
      end
  end.

Definition unsigned (digits : string) : option Z :=
  match digits with
  | EmptyString => None
  | _ => match NilEmpty.uint_of_string digits with
         | Some d => Some (Z.of_uint d)
         | None => None
         end
  end.

Definition int_of_text (s : string) : option Z :=
  match rtrim (ltrim s) with
  | String "+" digits => unsigned digits
  | String "-" digits => option_map Z.opp (unsigned digits)
  | digits => unsigned digits
  end.

(** [z] fits a signed integer of [bits] bits. *)
Definition fits (bits : Z) (z : Z) : bool :=
  (- 2 ^ (bits - 1) <=? z) && (z <? 2 ^ (bits - 1)).

(** The argument [t] read as an integer of [bits] bits; [None] is the error
    the server raises. *)
Definition int_arg (bits : Z) (t : string) : option Z :=
  match int_of_text t with
  | Some z => if fits bits z then Some z else None
  | None => None
  end.

Fixpoint holds (ps : list jsval) (r : row) (c : cond) : bool :=
  match c with
  | Eq c n =>
      match col r c, arg ps n with
      | SText s, Some t => String.eqb s t
      | STime s, Some t => String.eqb s t
      | SInt z, Some t => match int_arg 32 t with
                          | Some z' => z =? z'
                          | None => false
                          end
      | _, _ => false
      end
  | ILike c n =>
      match col r c, arg ps n with
      | SText s, Some p => ilike p s
      | STime s, Some p => ilike p s
      | SInt z, Some p => ilike p (string_of_Z z)
      | _, _ => false
      end
  | NotNull c => negb (sqlval_eqb (col r c) SNull)
  | Or a b => holds ps r a || holds ps r b
  end.

Definition matches (ps : list jsval) (w : list cond) (r : row) : bool :=
  forallb (holds ps r) w.

(** The placeholders a query mentions. *)
Fixpoint cond_placeholders (c : cond) : list nat :=
  match c with
  | Eq _ n | ILike _ n => [n]
  | NotNull _ => []
  | Or a b => cond_placeholders a ++ cond_placeholders b
  end.

Definition bound_placeholders (b : option bound) : list nat :=
  match b with
  | Some (Placeholder n) => [n]
  | _ => []
  end.

Definition placeholders (q : query) : list nat :=
  flat_map cond_placeholders (q_where q)
  ++ bound_placeholders (q_limit q) ++ bound_placeholders (q_offset q).

(** The server refuses a statement whose placeholders are not exactly
    [$1 .. $k] for the [k] arguments sent with it. *)
Definition arity_ok (q : query) (ps : list jsval) : bool :=
  let used := placeholders q in
  forallb (fun n => (0 <? n)%nat && (n <=? length ps)%nat) used
  && forallb (fun i => existsb (Nat.eqb i) used) (seq 1 (length ps)).

(** An argument compared with an integer column has to read as an
    integer that fits the column. *)
Fixpoint cond_typed (ps : list jsval) (c : cond) : bool :=
  match c with
  | Eq c n =>
      match column_type c, arg ps n with
      | TInt, Some t => bool_decide (is_Some (int_arg 32 t))
      | _, _ => true
      end
  | ILike _ _ | NotNull _ => true
  | Or a b => cond_typed ps a && cond_typed ps b
  end.

(** The value of a LIMIT or OFFSET: a [bigint], not negative.  [None] is
    the error the server raises otherwise; a NULL argument is "no bound". *)
Definition bound_value (ps : list jsval) (b : option bound) : option (option Z) :=
  match b with
  | None => Some None
  | Some (Literal z) => if fits 64 z && (0 <=? z) then Some (Some z) else None
  | Some (Placeholder n) =>
      match arg ps n with
      | None => Some None
      | Some t => match int_arg 64 t with
                  | Some z => if 0 <=? z then Some (Some z) else None
                  | None => None
                  end
      end
  end.

(** ORDER BY c DESC: the later first, NULLs before everything. *)
Definition sql_geb (a b : sqlval) : bool :=
  match a, b with
  | SNull, _ => true
  | _, SNull => false
  | SInt x, SInt y => y <=? x
  | SText x, SText y | STime x, STime y
  | SText x, STime y | STime x, SText y => negb (String.ltb x y)
  | SInt _, _ => true
  | _, SInt _ => false
  end.

Fixpoint insert_desc (c : string) (r : row) (rs : list row) : list row :=
  match rs with
  | [] => [r]
  | r' :: rest =>
      if sql_geb (col r c) (col r' c) then r :: rs
      else r' :: insert_desc c r rest
  end.

Definition sort_desc (c : string) (rs : list row) : list row :=
  fold_right (insert_desc c) [] rs.

Definition order (o : option string) (rs : list row) : list row :=
  match o with
  | Some c => sort_desc c rs
  | None => rs
  end.

Definition take (n : option Z) (rs : list row) : list row :=
  match n with
  | Some z => firstn (Z.to_nat z) rs
  | None => rs
  end.

Definition drop (n : option Z) (rs : list row) : list row :=
  match n with
  | Some z => skipn (Z.to_nat z) rs
  | None => rs
  end.

(** GROUP BY c with a count per group. *)
Fixpoint bump (v : sqlval) (groups : list (sqlval * nat)) : list (sqlval * nat) :=
  match groups with
  | [] => [(v, 1%nat)]
  | (v', n) :: rest =>
      if sqlval_eqb v v' then (v', S n) :: rest else (v', n) :: bump v rest
  end.

Definition group_count (c : string) (rs : list row) : list (sqlval * nat) :=
  fold_right (fun r acc => bump (col r c) acc) [] rs.

(** A count comes back as text (it is a [bigint]). *)
Definition count_text (n : nat) : jsval := VStr (string_of_Z (Z.of_nat n)).

(** AVG over the integers of a column, NULLs skipped.  The embedding has no
    fractions: the average comes back rounded to the nearest integer, halves
    up, which is all [Math.round(parseFloat(avg))] keeps of it. *)
Definition ints_of (c : string) (rs : list row) : list Z :=
  flat_map (fun r => match col r c with SInt z => [z] | _ => [] end) rs.

Definition avg_text (zs : list Z) : jsval :=
  match zs with
  | [] => VNull
  | _ => let n := Z.of_nat (length zs) in
         VStr (string_of_Z ((2 * fold_right Z.add 0 zs + n) / (2 * n)))
  end.

Definition project (cs : list string) (r : row) : jsval :=
  VObj (List.map (fun c => (c, js_of_sql (col r c))) cs).

Definition all_columns (r : row) : jsval :=
  VObj (List.map (fun cv => (fst cv, js_of_sql (snd cv))) r).

(** [result.rows] of a query, or [None] when the server rejects it. *)
Definition run (t : table) (q : query) (ps : list jsval) : option (list jsval) :=
  if negb (arity_ok q ps && forallb (cond_typed ps) (q_where q)) then None
  else
    match bound_value ps (q_limit q), bound_value ps (q_offset q) with
    | Some lim, Some off =>
        let hits := List.filter (matches ps (q_where q)) t in
        let page := take lim (drop off (order (q_order_desc q) hits)) in
        Some
          match q_target q with
          | Star => List.map all_columns page
          | Cols cs => List.map (project cs) page
          | Count => [VObj [("count", count_text (length hits))]]
          | GroupCount c =>
              List.map (fun g => VObj [(c, js_of_sql (fst g));
                                       ("count", count_text (snd g))])
                       (group_count c hits)
          | Avg c => [VObj [("avg", avg_text (ints_of c hits))]]
          end
    | _, _ => None
    end.

End SQL.

(** ** The cache *)

Module Redis.

(** An entry holds a value and the time (in seconds) at which it expires.
    The two flags make the next [get], the next [setEx], fail: the promise
    is rejected, as when the connection is lost. *)
Record state := State {
  entries : gmap string (string * Z);
  get_fails : bool;
  set_fails : bool
}.

(** GET: the value under [k] if there is one that has not expired. *)
Definition lookup (now : Z) (c : state) (k : string) : option string :=
  match entries c !! k with
  | Some (v, expiry) => if now <? expiry then Some v else None
  | None => None
  end.

(** SETEX k ttl v: last write wins. *)
Definition setEx (now : Z) (k : string) (ttl : Z) (v : string) (c : state) : state :=
  State (<[k := (v, now + ttl)]> (entries c)) (get_fails c) (set_fails c).

End Redis.

(** ** The world a request runs in, and the monad of the handlers *)

Record world := World {
  db : option SQL.table;        (* [None]: the store cannot be reached *)
  redis : Redis.state;
  now : Z;                      (* seconds *)
  clock : string                (* [new Date().toISOString()] *)
}.

(** What a request does to the outside, in order. *)
Inductive event :=
| CacheGet (k : string)
| CacheSetEx (k : string) (ttl : Z) (v : string)
| StoreQuery (q : SQL.query) (ps : list jsval).

Inductive outcome (A : Type) :=
| Done (a : A)
| Thrown.
Arguments Done {A} a.
Arguments Thrown {A}.

(** A computation: it ends normally or throws, it may change the world (the
    cache), and it leaves a trace. *)
Definition M (A : Type) : Type := world -> outcome A * world * list event.

Definition ret {A} (a : A) : M A := fun w => (Done a, w, []).

Definition throw {A} : M A := fun w => (Thrown, w, []).

Definition bind {A B} (m : M A) (k : A -> M B) : M B :=
  fun w =>
    match m w with
    | (Done a, w1, t1) =>
        let '(r, w2, t2) := k a w1 in (r, w2, t1 ++ t2)
    | (Thrown, w1, t1) => (Thrown, w1, t1)
    end.

(** [try { body } catch (error) { handler }]. *)
Definition try_catch {A} (body handler : M A) : M A :=
  fun w =>
    match body w with
    | (Done a, w1, t1) => (Done a, w1, t1)
    | (Thrown, w1, t1) =>
        let '(r, w2, t2) := handler w1 in (r, w2, t1 ++ t2)
    end.

Declare Scope js_scope.
Delimit Scope js_scope with js.
Notation "'let!' x ':=' m 'in' k" := (bind m (fun x => k))
  (at level 10, x name, m at level 100, k at level 200) : js_scope.
Notation "m ';;' k" := (bind m (fun _ => k))
  (at level 100, k at level 200, right associativity) : js_scope.
Local Open Scope js_scope.

(** [await redisClient.get(k)]: the string, or [null]. *)
Definition redis_get (k : string) : M jsval :=
  fun w =>
    if Redis.get_fails (redis w) then (Thrown, w, [CacheGet k])
    else (Done match Redis.lookup (now w) (redis w) k with
               | Some v => VStr v
               | None => VNull
               end, w, [CacheGet k]).

(** [await redisClient.setEx(k, ttl, v)]. *)
Definition redis_setEx (k : string) (ttl : Z) (v : string) : M unit :=
  fun w =>
    if Redis.set_fails (redis w) then (Thrown, w, [CacheSetEx k ttl v])
    else (Done tt,
          World (db w) (Redis.setEx (now w) k ttl v (redis w)) (now w) (clock w),
          [CacheSetEx k ttl v]).

Definition query_rows (w : world) (q : SQL.query) (ps : list jsval)
  : option (list jsval) :=
  match db w with
  | Some t => SQL.run t q ps
  | None => None
  end.

(** [(await pool.query(q, ps)).rows]. *)
Definition pool_query (q : SQL.query) (ps : list jsval) : M (list jsval) :=
  fun w =>
    match query_rows w q ps with
    | Some rows => (Done rows, w, [StoreQuery q ps])
    | None => (Thrown, w, [StoreQuery q ps])
    end.

(** [await Promise.all(qs.map(q => pool.query(...)))]: every query is sent;
    the whole fails if one of them does. *)
Fixpoint all_rows (w : world) (qs : list (SQL.query * list jsval))
  : option (list (list jsval)) :=
  match qs with
  | [] => Some []
  | (q, ps) :: rest =>
      match query_rows w q ps, all_rows w rest with
      | Some rows, Some others => Some (rows :: others)
      | _, _ => None
      end
  end.

Definition pool_query_all (qs : list (SQL.query * list jsval))
  : M (list (list jsval)) :=
  fun w =>
    let sent := List.map (fun qp => StoreQuery (fst qp) (snd qp)) qs in
    match all_rows w qs with
    | Some results => (Done results, w, sent)
    | None => (Thrown, w, sent)
    end.

(** [JSON.parse(s)], which throws on a text that is not JSON. *)
Definition json_parse (cached : jsval) : M jsval :=
  match JSON.parse (JS.ToString cached) with
  | Some v => ret v
  | None => throw
  end.

(** [v.k], which throws when [v] is [undefined] or [null]. *)
Definition nullish (v : jsval) : bool :=
  match v with
  | VUndef | VNull => true
  | _ => false
  end.

Definition prop (v : jsval) (k : string) : M jsval :=
  if nullish v then throw else ret (JS.get v k).

(** [rows[i]]. *)
Definition item (rows : list jsval) (i : nat) : jsval := nth i rows VUndef.

Definition date_now : M jsval := fun w => (Done (VStr (clock w)), w, []).

(** ** The handlers *)

(** A request, as the handlers see it: [req.query] (the query string parsed
    into an object whose properties come in the order of the URL, every
    value a string; names that are array indices, which an object lists
    first, and repeated or bracketed names, which the parser turns into
    arrays and objects, are left out) and [req.params] (the named segments
    of the path). *)
Record request := Request {
  req_query : list (string * string);
  req_params : list (string * string)
}.

Record response := Response {
  status : Z;
  body : jsval
}.

Fixpoint assoc (l : list (string * string)) (k : string) : jsval :=
  match l with
  | [] => VUndef
  | (k', v) :: rest => if String.eqb k k' then VStr v else assoc rest k
  end.

(** [req.query] as a JavaScript object. *)
Definition query_object (req : request) : jsval :=
  VObj (List.map (fun kv => (fst kv, VStr (snd kv))) (req_query req)).

(** The default of a destructuring, [{ k = d }]: used for [undefined] only. *)
Definition or_default (v d : jsval) : jsval :=
  match v with
  | VUndef => d
  | _ => v
  end.

Definition error_body (msg : string) : jsval := VObj [("error", VStr msg)].

Definition internal_error : M response :=
  ret (Response 500 (error_body "Internal server error")).

(** [`%${v}%`]. *)
Definition substring_pattern (v : jsval) : jsval :=
  VStr ("%" +:+ JS.ToString v +:+ "%").

(** [(source_type = $n OR media_type = $n)]. *)
Definition type_condition (n : nat) : SQL.cond :=
  SQL.Or (SQL.Eq "source_type" n) (SQL.Eq "media_type" n).

(** The state of the dynamic query of the list handler: [whereConditions],
    [queryParams] and [paramCount]. *)
Record builder := Builder {
  whereConditions : list SQL.cond;
  queryParams : list jsval;
  paramCount : nat
}.

(** [if (v) { whereConditions.push(c(paramCount)); queryParams.push(p);
    paramCount++; }]. *)
Definition push_if (v : jsval) (c : nat -> SQL.cond) (p : jsval) (b : builder)
  : builder :=
  if JS.truthy v
  then Builder (whereConditions b ++ [c (paramCount b)])
               (queryParams b ++ [p]) (S (paramCount b))
  else b.

Definition list_builder (type format author : jsval) : builder :=
  push_if author (SQL.ILike "author_name") (substring_pattern author)
    (push_if format (SQL.Eq "file_format") format
       (push_if type type_condition type (Builder [] [] 1))).

Definition list_columns : list string :=
  ["id"; "title"; "video_id"; "created_date"; "ai_processing_status";
   "r2_source_path"; "word_count"; "ai_topics"; "ai_sentiment";
   "source_type"; "media_type"; "file_format"; "file_size"; "duration_seconds";
   "dimensions"; "thumbnail_url"; "page_count"; "author_name";
   "resolution"; "course_level"; "tags"].

Definition list_key (req : request) : string :=
  "content:" +:+ JSON.stringify' (query_object req).

Definition list_count_query (b : builder) : SQL.query :=
  SQL.Query SQL.Count (whereConditions b) None None None.

Definition list_data_query (b : builder) : SQL.query :=
  SQL.Query (SQL.Cols list_columns) (whereConditions b) (Some "created_date")
    (Some (SQL.Placeholder (paramCount b)))
    (Some (SQL.Placeholder (paramCount b + 1))).

(** [app.get('/api/content', ...)]. *)
Definition get_content (req : request) : M response :=
  try_catch
    (let type := assoc (req_query req) "type" in
     let format := assoc (req_query req) "format" in
     let page := or_default (assoc (req_query req) "page") (VNum (Int 1)) in
     let limit := or_default (assoc (req_query req) "limit") (VNum (Int 50)) in
     let author := assoc (req_query req) "author" in
     let offset := JS.mul (JS.sub (JS.ToNumber page) (Int 1)) (JS.ToNumber limit) in
     let cacheKey := list_key req in
     let! cached := redis_get cacheKey in
     if JS.truthy cached then
       let! v := json_parse cached in
       ret (Response 200 v)
     else
       let b := list_builder type format author in
       let! countResult := pool_query (list_count_query b) (queryParams b) in
       let! count := prop (item countResult 0) "count" in
       let total := JS.parseInt count in
       let! result :=
         pool_query (list_data_query b) (queryParams b ++ [limit; VNum offset]) in
       let response :=
         VObj [("content", VArr result);
               ("pagination",
                VObj [("page", VNum (JS.parseInt page));
                      ("limit", VNum (JS.parseInt limit));
                      ("total", VNum total);
                      ("pages", VNum (JS.ceil_div total (JS.ToNumber limit)))]);
               ("filters",
                VObj [("type", type); ("format", format); ("author", author)])] in
       redis_setEx cacheKey 300 (JSON.stringify' response) ;;
       ret (Response 200 response))
    internal_error.

Definition id_key (id : string) : string := "content:" +:+ id.

Definition id_query : SQL.query :=
  SQL.Query SQL.Star [SQL.Eq "id" 1] None None None.

(** [app.get('/api/content/:id', ...)]. *)
Definition get_content_by_id (req : request) : M response :=
  try_catch
    (let id := JS.ToString (assoc (req_params req) "id") in
     let cacheKey := id_key id in
     let! cached := redis_get cacheKey in
     if JS.truthy cached then
       let! v := json_parse cached in
       ret (Response 200 v)
     else
       let! result := pool_query id_query [VStr id] in
       if (length result =? 0)%nat then
         ret (Response 404 (error_body "Content not found"))
       else
         let content := item result 0 in
         redis_setEx cacheKey 600 (JSON.stringify' content) ;;
         ret (Response 200 content))
    internal_error.

Definition search_columns : list string :=
  ["id"; "title"; "video_id"; "created_date"; "ai_processing_status";
   "r2_source_path"; "ai_topics"; "ai_sentiment"; "source_type"; "media_type";
   "file_format"; "author_name"; "thumbnail_url"].

Definition search_key (q type page limit : jsval) : string :=
  "search:" +:+ JS.ToString q +:+ ":" +:+ JS.ToString type
  +:+ ":page:" +:+ JS.ToString page +:+ ":limit:" +:+ JS.ToString limit.

(** [(title ILIKE $1 OR content_text ILIKE $1 OR author_name ILIKE $1 OR
    ai_topics::text ILIKE $1)]. *)
Definition text_condition : SQL.cond :=
  SQL.Or (SQL.ILike "title" 1)
    (SQL.Or (SQL.ILike "content_text" 1)
       (SQL.Or (SQL.ILike "author_name" 1) (SQL.ILike "ai_topics" 1))).

Definition search_query (type : jsval) : SQL.query :=
  SQL.Query (SQL.Cols search_columns)
    (text_condition :: if JS.truthy type then [type_condition 4] else [])
    (Some "created_date")
    (Some (SQL.Placeholder 2)) (Some (SQL.Placeholder 3)).

(** The message of the 400: [Query parameter], then [q] between double
    quotes, then [is required]. *)
Definition q_required : string :=
  "Query parameter " +:+ String JSON.dquote ("q" +:+ String JSON.dquote " is required").

(** [app.get('/api/search', ...)]. *)
Definition get_search (req : request) : M response :=
  try_catch
    (let q := assoc (req_query req) "q" in
     let type := assoc (req_query req) "type" in
     let page := or_default (assoc (req_query req) "page") (VNum (Int 1)) in
     let limit := or_default (assoc (req_query req) "limit") (VNum (Int 20)) in
     if negb (JS.truthy q) then
       ret (Response 400 (error_body q_required))
     else
       let offset := JS.mul (JS.sub (JS.ToNumber page) (Int 1)) (JS.ToNumber limit) in
       let cacheKey := search_key q type page limit in
       let! cached := redis_get cacheKey in
       if JS.truthy cached then
         let! v := json_parse cached in
         ret (Response 200 v)
       else
         let queryParams :=
           [substring_pattern q; limit; VNum offset]
           ++ (if JS.truthy type then [type] else []) in
         let! result := pool_query (search_query type) queryParams in
         let response :=
           VObj [("query", q);
                 ("type", JS.or type (VStr "all"));
                 ("results", VArr result);
                 ("count", VNum (Int (Z.of_nat (length result))))] in
         redis_setEx cacheKey 300 (JSON.stringify' response) ;;
         ret (Response 200 response))
    internal_error.

(** The seven queries of the statistics, with their arguments. *)
Definition stats_queries : list (SQL.query * list jsval) :=
  [ (SQL.Query SQL.Count [] None None None, []);
    (SQL.Query (SQL.GroupCount "source_type") [] None None None, []);
    (SQL.Query (SQL.GroupCount "media_type") [SQL.NotNull "media_type"]
       None None None, []);
    (SQL.Query SQL.Count [SQL.Eq "ai_processing_status" 1] None None None,
     [VStr "completed"]);
    (SQL.Query SQL.Count [SQL.Eq "ai_processing_status" 1] None None None,
     [VStr "pending"]);
    (SQL.Query (SQL.Avg "word_count") [SQL.NotNull "word_count"] None None None,
     []);
    (SQL.Query (SQL.Cols ["created_date"]) [] (Some "created_date")
       (Some (SQL.Literal 1)) None, []) ].

(** [const counts = {}; rows.forEach(row => { counts[row[c]] =
    parseInt(row.count); });]. *)
Definition count_object (c : string) (rows : list jsval) : list (string * jsval) :=
  fold_left
    (fun counts row =>
       JS.set_prop counts (JS.ToString (JS.get row c))
         (VNum (JS.parseInt (JS.get row "count"))))
    rows [].

(** [Math.round(parseFloat(avg) || 0)]. *)
Definition rounded_or_zero (avg : jsval) : jsnum :=
  match avg with
  | VStr s => match JS.ToNumber_string s with
              | Int z => Int z
              | NonInt => Int 0
              end
  | _ => Int 0
  end.

Definition stats_key : string := "stats:warehouse".

(** [app.get('/api/stats', ...)]. *)
Definition get_stats (req : request) : M response :=
  try_catch
    (let cacheKey := stats_key in
     let! cached := redis_get cacheKey in
     if JS.truthy cached then
       let! v := json_parse cached in
       ret (Response 200 v)
     else
       let! queries := pool_query_all stats_queries in
       let rows i := nth i queries [] in
       let sourceTypeCounts := count_object "source_type" (rows 1%nat) in
       let mediaTypeCounts := count_object "media_type" (rows 2%nat) in
       let! total := prop (item (rows 0%nat) 0) "count" in
       let! processed := prop (item (rows 3%nat) 0) "count" in
       let! pending := prop (item (rows 4%nat) 0) "count" in
       let! avg := prop (item (rows 5%nat) 0) "avg" in
       let! last_updated := date_now in
       let stats :=
         VObj [("total_content", VNum (JS.parseInt total));
               ("content_by_source_type", VObj sourceTypeCounts);
               ("content_by_media_type", VObj mediaTypeCounts);
               ("processed_content", VNum (JS.parseInt processed));
               ("pending_content", VNum (JS.parseInt pending));
               ("average_word_count", VNum (rounded_or_zero avg));
               ("latest_content",
                JS.or (JS.get (item (rows 6%nat) 0) "created_date") VNull);
               ("last_updated", last_updated)] in
       redis_setEx cacheKey 120 (JSON.stringify' stats) ;;
       ret (Response 200 stats))
    internal_error.

Definition recent_columns : list string :=
  ["id"; "title"; "video_id"; "created_date"; "ai_processing_status";
   "r2_source_path"; "ai_topics"; "source_type"; "media_type"; "file_format";
   "thumbnail_url"; "author_name"].

Definition recent_query (type : jsval) : SQL.query :=
  SQL.Query (SQL.Cols recent_columns)
    (if JS.truthy type then [type_condition 2] else [])
    (Some "created_date") (Some (SQL.Placeholder 1)) None.

(** [app.get('/api/content/recent', ...)]. *)
Definition get_recent (req : request) : M response :=
  try_catch
    (let limit := or_default (assoc (req_query req) "limit") (VNum (Int 10)) in
     let type := assoc (req_query req) "type" in
     let queryParams := [limit] ++ (if JS.truthy type then [type] else []) in
     let! result := pool_query (recent_query type) queryParams in
     ret (Response 200
            (VObj [("recent_content", VArr result);
                   ("count", VNum (Int (Z.of_nat (length result))));
                   ("type", JS.or type (VStr "all"))])))
    internal_error.

Definition author_columns : list string :=
  ["id"; "title"; "video_id"; "created_date"; "ai_topics"; "ai_sentiment";
   "source_type"; "media_type"; "file_format"; "author_name"; "thumbnail_url"].

Definition author_query : SQL.query :=
  SQL.Query (SQL.Cols author_columns) [SQL.ILike "author_name" 1]
    (Some "created_date") None None.

(** [app.get('/api/content/by-author', ...)]. *)
Definition get_by_author (req : request) : M response :=
  try_catch
    (let author := assoc (req_query req) "author" in
     if negb (JS.truthy author) then
       ret (Response 400 (error_body "Author parameter is required"))
     else
       let! result := pool_query author_query [substring_pattern author] in
       ret (Response 200
              (VObj [("author", author);
                     ("content", VArr result);
                     ("count", VNum (Int (Z.of_nat (length result))))])))
    internal_error.

(** ** The route table *)

Module Router.

Inductive method := GET | POST | PUT | DELETE.

(** The handlers, by the path they are registered under. *)
Inductive handler :=
| Health          (* /api/health *)
| Content         (* /api/content *)
| ContentById     (* /api/content/:id *)
| Search          (* /api/search *)
| Stats           (* /api/stats *)
| Recent          (* /api/content/recent *)
| ByAuthor        (* /api/content/by-author *)
| NotFound.       (* app.use('*') *)

(** A segment of a route path: a literal, or a named parameter [:name]. *)
Inductive segment :=
| Lit (s : string)
| Param (name : string).

Definition parse_segment (s : string) : segment :=
  match s with
  | String ":" name => Param name
  | _ => Lit s
  end.

(** The segments of a path: the text between its slashes, after the first
    slash. *)
Definition segments (path : string) : list string := tl (Str.split "/" path).

Definition route (path : string) (h : handler) : list segment * handler :=
  (List.map parse_segment (segments path), h).

(** The [app.get] calls of [server.js], in the order in which they are
    made. *)
Definition routes : list (list segment * handler) :=
  [ route "/api/health" Health;
    route "/api/content" Content;
    route "/api/content/:id" ContentById;
    route "/api/search" Search;
    route "/api/stats" Stats;
    route "/api/content/recent" Recent;
    route "/api/content/by-author" ByAuthor ].

(** A route path against the segments of a request path.  A literal matches
    whatever the case of the letters; a parameter matches one segment that is
    not empty, and is bound to it (as it is written: percent-decoding is left
    out). *)
Fixpoint match_segments (pat : list segment) (segs : list string)
  : option (list (string * string)) :=
  match pat, segs with
  | [], [] => Some []
  | Lit s :: pat', x :: segs' =>
      if String.eqb (Str.lower s) (Str.lower x)
      then match_segments pat' segs' else None
  | Param name :: pat', x :: segs' =>
      if String.eqb x "" then None
      else match match_segments pat' segs' with
           | Some ps => Some ((name, x) :: ps)
           | None => None
           end
  | _, _ => None
  end.

(** One slash at the end of the request path is allowed. *)
Definition strip_slash (segs : list string) : list string :=
  match rev segs with
  | "" :: front => rev front
  | _ => segs
  end.

Definition match_path (pat : list segment) (path : string)
  : option (list (string * string)) :=
  match path with
  | String "/" _ =>
      match match_segments pat (segments path) with
      | Some ps => Some ps
      | None => match_segments pat (strip_slash (segments path))
      end
  | _ => None
  end.

(** The first route, in registration order, whose path matches. *)
Fixpoint first_match (rs : list (list segment * handler)) (path : string)
  : handler * list (string * string) :=
  match rs with
  | [] => (NotFound, [])
  | (pat, h) :: rest =>
      match match_path pat path with
      | Some ps => (h, ps)
      | None => first_match rest path
      end
  end.

Definition dispatch (m : method) (path : string)
  : handler * list (string * string) :=
  match m with
  | GET => first_match routes path
  | _ => (NotFound, [])
  end.

End Router.

(** The handler of a request that reached the route table.  The middleware
    registered before the routes (helmet, compression, cors, the JSON body
    parser, the rate limiter) is not part of the table: a request the limiter
    refuses never gets here.  The health check is not part of the read path
    and is left out: it answers 200 here. *)
Definition serve (m : Router.method) (path : string) (query : list (string * string))
  : M response :=
  let '(h, params) := Router.dispatch m path in
  let req := Request query params in
  match h with
  | Router.Health => ret (Response 200 (VObj [("status", VStr "healthy")]))
  | Router.Content => get_content req
  | Router.ContentById => get_content_by_id req
  | Router.Search => get_search req
  | Router.Stats => get_stats req
  | Router.Recent => get_recent req
  | Router.ByAuthor => get_by_author req
  | Router.NotFound => ret (Response 404 (error_body "Endpoint not found"))
  end.

(** * The vocabulary of the properties *)

(** A request parameter read as an integer: absent, it is its default;
    present, it is an integer literal. *)
Definition int_param (v : jsval) (d : Z) : option Z :=
  match v with
  | VUndef => Some d
  | VStr s => Z_of_string s
  | _ => None
  end.

(** An integer that a JavaScript number holds exactly, its neighbours too
    ([Number.isSafeInteger]): on such integers the arithmetic of the doubles
    is the arithmetic of the integers. *)
Definition safe (z : Z) : Prop := - 2 ^ 53 < z < 2 ^ 53.

(** Every placeholder of a condition has its argument among [ps]. *)
Definition in_range (ps : list jsval) (c : SQL.cond) : Prop :=
  List.Forall (fun n => (0 < n <= length ps)%nat) (SQL.cond_placeholders c).

(** The rows of the table the WHERE clause of a list request selects. *)
Definition selected_rows (type format author : jsval) (t : SQL.table)
  : list SQL.row :=
  List.filter
    (SQL.matches (queryParams (list_builder type format author))
       (whereConditions (list_builder type format author))) t.

(** ** What a run of a handler shows *)

Definition answer {A} (r : outcome A * world * list event) : outcome A := fst (fst r).
Definition after {A} (r : outcome A * world * list event) : world := snd (fst r).
Definition trace {A} (r : outcome A * world * list event) : list event := snd r.

Definition is_cache_event (e : event) : bool :=
  match e with
  | CacheGet _ | CacheSetEx _ _ _ => true
  | StoreQuery _ _ => false
  end.

Definition is_store_event (e : event) : bool :=
  match e with
  | StoreQuery _ _ => true
  | _ => false
  end.

(** A run never touches the cache. *)
Definition uncached (r : outcome response * world * list event) : Prop :=
  forall e, List.In e (trace r) -> is_cache_event e = false.

(** The keys of the cached operations, from the request. *)
Definition request_id (req : request) : string :=
  JS.ToString (assoc (req_params req) "id").

Definition request_search_key (req : request) : string :=
  search_key (assoc (req_query req) "q") (assoc (req_query req) "type")
    (or_default (assoc (req_query req) "page") (VNum (Int 1)))
    (or_default (assoc (req_query req) "limit") (VNum (Int 20))).

Definition is_cache_write (e : event) : bool :=
  match e with
  | CacheSetEx _ _ _ => true
  | _ => false
  end.

Definition failed : outcome response :=
  Done (Response 500 (error_body "Internal server error")).

(** A run that stops at the rejected read of the cache. *)
Definition fails_at_read (key : string) (w : world)
    (r : outcome response * world * list event) : Prop :=
  r = (failed, w, [CacheGet key]).

(** A run that has tried to write the cache has answered 500. *)
Definition fails_at_write (w : world)
    (r : outcome response * world * list event) : Prop :=
  existsb is_cache_write (trace r) = true -> answer r = failed /\ after r = w.

(** The argument a query of the trace binds to its LIMIT, to its OFFSET. *)
Definition bound_argument (b : option SQL.bound) (ps : list jsval) : option jsval :=
  match b with
  | Some (SQL.Placeholder (S i)) => nth_error ps i
  | _ => None
  end.

Definition limit_argument (e : event) : option jsval :=
  match e with
  | StoreQuery q ps => bound_argument (SQL.q_limit q) ps
  | _ => None
  end.

Definition offset_argument (e : event) : option jsval :=
  match e with
  | StoreQuery q ps => bound_argument (SQL.q_offset q) ps
  | _ => None
  end.

(** The LIMIT arguments, the OFFSET arguments, a run sends to the store. *)
Definition limits_sent (r : outcome response * world * list event) : list jsval :=
  omap limit_argument (trace r).

Definition offsets_sent (r : outcome response * world * list event) : list jsval :=
  omap offset_argument (trace r).

(** A run answered from the cache: one read of the cache, nothing else, and
    the value found there, parsed, as the body of a 200 (a text that is not
    JSON makes [JSON.parse] throw, hence a 500). *)
Definition served_from_cache (key v : string) (w : world)
    (r : outcome response * world * list event) : Prop :=
  r = (match JSON.parse v with
       | Some j => Done (Response 200 j)
       | None => failed
       end, w, [CacheGet key]).

(** One member of the JSON text of a query object. *)
Definition member (kv : string * string) : string :=
  JSON.quote (fst kv) +:+ ":" +:+ JSON.quote (snd kv).

(** The text of a query object after its opening brace. *)
Fixpoint members (q : list (string * string)) : string :=
  match q with
  | [] => "}"
  | kv :: rest =>
      member kv +:+ match rest with
                    | [] => "}"
                    | _ :: _ => "," +:+ members rest
                    end
  end.

(** The sum of the numbers of an object. *)
Fixpoint sum_values (props : list (string * jsval)) : Z :=
  match props with
  | [] => 0
  | (_, VNum (Int z)) :: rest => z + sum_values rest
  | _ :: rest => sum_values rest
  end.

(** The body of the answer to a request for the statistics. *)
Definition stats_body (w : world) : jsval :=
  match answer (get_stats (Request [] []) w) with
  | Done resp => body resp
  | Thrown => VUndef
  end.

(** Every record has a source type, a text. *)
Definition source_types_present (t : SQL.table) : Prop :=
  forall r, List.In r t -> exists s, SQL.col r "source_type" = SQL.SText s.

(** The number of rows a list of groups stands for. *)
Fixpoint group_total (groups : list (SQL.sqlval * nat)) : nat :=
  match groups with
  | [] => 0%nat
  | g :: rest => (snd g + group_total rest)%nat
  end.

(** The row the driver makes of a group. *)
Definition group_row (c : string) (g : SQL.sqlval * nat) : jsval :=
  VObj [(c, SQL.js_of_sql (fst g)); ("count", SQL.count_text (snd g))].

(** The property a group with a text key adds to the counts. *)
Definition group_prop (g : SQL.sqlval * nat) : string * jsval :=
  (JS.ToString (SQL.js_of_sql (fst g)), VNum (Int (Z.of_nat (snd g)))).

(** A source type that is a text, and not the name [__proto__]. *)
Definition plain_text (v : SQL.sqlval) : Prop :=
  exists s, v = SQL.SText s /\ s <> "__proto__".

(** ** Sample data *)

Module Sample.

Definition records : SQL.table :=
  [ [("id", SQL.SInt 1); ("title", SQL.SText "Hello");
     ("source_type", SQL.SText "video"); ("author_name", SQL.SText "Jane Doe");
     ("created_date", SQL.STime "2024-01-01T00:00:00.000Z")];
    [("id", SQL.SInt 2); ("title", SQL.SText "World");
     ("source_type", SQL.SText "book"); ("author_name", SQL.SText "Janet Smith");
     ("created_date", SQL.STime "2024-02-01T00:00:00.000Z")];
    [("id", SQL.SInt 3); ("title", SQL.SText "Notes");
     ("source_type", SQL.SText "video"); ("media_type", SQL.SText "audio");
     ("word_count", SQL.SInt 7);
     ("created_date", SQL.STime "2024-03-01T00:00:00.000Z")] ].

Definition clock0 : string := "2024-05-05T00:00:00.000Z".

(** The store and the cache both up, the cache empty. *)
Definition up : world := World (Some records) (Redis.State ∅ false false) 1000 clock0.

(** The cache rejects every read. *)
Definition get_down : world :=
  World (Some records) (Redis.State ∅ true false) 1000 clock0.

(** The cache answers reads and rejects every write. *)
Definition set_down : world :=
  World (Some records) (Redis.State ∅ false true) 1000 clock0.

(** A table whose one record has the source type [__proto__]. *)
Definition proto_table : SQL.table :=
  [ [("id", SQL.SInt 1); ("title", SQL.SText "Hello");
     ("source_type", SQL.SText "__proto__")] ].

Definition proto_world : world :=
  World (Some proto_table) (Redis.State ∅ false false) 1000 clock0.

(** The world after a first request for the statistics, and the text that
    request has left in the cache. *)
Definition warm : world := snd (fst (get_stats (Request [] []) up)).


(** A request for the second page of two. *)
Definition page2 : request := Request [("limit", "2"); ("page", "2")] [].

End Sample.

(** * The vocabulary of the further properties *)

(** ** Answers *)

(** A run that ends with an answer of the service: a 200, or one of the
    four fixed error bodies. *)
Definition answers_properly (r : outcome response * world * list event) : Prop :=
  exists resp,
    answer r = Done resp /\
    (status resp = 200 \/
     resp = Response 400 (error_body q_required) \/
     resp = Response 400 (error_body "Author parameter is required") \/
     resp = Response 404 (error_body "Content not found") \/
     resp = Response 500 (error_body "Internal server error")).

(** Two worlds that differ at most in what the cache holds under [key]. *)
Definition same_but_key (key : string) (w w' : world) : Prop :=
  db w' = db w /\ now w' = now w /\ clock w' = clock w /\
  Redis.get_fails (redis w') = Redis.get_fails (redis w) /\
  Redis.set_fails (redis w') = Redis.set_fails (redis w) /\
  forall k, k <> key ->
            Redis.entries (redis w') !! k = Redis.entries (redis w) !! k.

(** A run that changes nothing but the cache entry of [key], and that not
    even that unless it answers 200. *)
Definition caches_only_success (key : string) (w : world)
    (r : outcome response * world * list event) : Prop :=
  same_but_key key w (after r) /\
  (forall resp, answer r = Done resp -> status resp <> 200 -> after r = w).

(** The world some time later: the cache as a run has left it, the store,
    the time and the clock whatever they have become. *)
Definition later_world (w : world) (t : option SQL.table) (later : Z)
    (clock' : string) : world :=
  World t (redis w) later clock'.

(** A handler caches its 200 for [ttl] seconds: once it has answered 200
    from the store, the same request is answered from the cache, by the text
    then stored, as long as fewer than [ttl] seconds have passed, and goes to
    the store again from then on. *)
Definition cached_for (ttl : Z) (key : string) (h : M response) (w : world) : Prop :=
  forall b w' tr,
    h w = (Done (Response 200 b), w', tr) ->
    existsb is_store_event tr = true ->
    forall t later clock',
      (later < now w + ttl ->
       served_from_cache key (JSON.stringify' b)
         (later_world w' t later clock') (h (later_world w' t later clock'))) /\
      (now w + ttl <= later ->
       existsb is_store_event (trace (h (later_world w' t later clock'))) = true).

Module Scenario.

(** The store cannot be reached; the cache is up and empty. *)
Definition store_down : world :=
  World None (Redis.State ∅ false false) 1000 Sample.clock0.

End Scenario.

(** A 200 computed from the store: the cache had answered, and the world
    after is the world before with the answer stored. *)
Definition stored (key : string) (ttl : Z) (b : jsval) (w w' : world) : Prop :=
  Redis.get_fails (redis w) = false /\
  w' = World (db w)
         (Redis.setEx (now w) key ttl (JSON.stringify' b) (redis w))
         (now w) (clock w).

(** ** Filters *)

(** A record passes the filters of a list request: each filter that is
    there (and not empty) against its own argument. *)
Definition passes_filters (type format author : jsval) (r : SQL.row) : bool :=
  (if JS.truthy type then SQL.holds [type] r (type_condition 1) else true)
  && (if JS.truthy format
      then SQL.holds [format] r (SQL.Eq "file_format" 1) else true)
  && (if JS.truthy author
      then SQL.holds [substring_pattern author] r (SQL.ILike "author_name" 1)
      else true).

(** The text [q] occurs in the column [c] of the record, whatever the case
    of the letters: [c ILIKE '%q%']. *)
Definition occurs (q : jsval) (c : string) (r : SQL.row) : bool :=
  SQL.holds [VStr ("%" +:+ JS.ToString q +:+ "%")] r (SQL.ILike c 1).

(** The record is of the type [type]: its source type or its media type is
    [type]. *)
Definition of_type (type : jsval) (r : SQL.row) : bool :=
  SQL.holds [type] r (SQL.Eq "source_type" 1)
  || SQL.holds [type] r (SQL.Eq "media_type" 1).

(** A record is a result of a search: the text occurs in its title, in its
    content, in the name of its author or in its topics, and it is of the
    type if one is asked for. *)
Definition search_matches (q type : jsval) (r : SQL.row) : bool :=
  (occurs q "title" r
   || (occurs q "content_text" r
       || (occurs q "author_name" r || occurs q "ai_topics" r)))
  && (if JS.truthy type then of_type type r else true).

(** A record is among the recent ones asked for. *)
Definition recent_matches (type : jsval) (r : SQL.row) : bool :=
  if JS.truthy type then of_type type r else true.

(** A record is by the author asked for. *)
Definition author_matches (author : jsval) (r : SQL.row) : bool :=
  SQL.holds [substring_pattern author] r (SQL.ILike "author_name" 1).

(** The results of a search: the matching records, latest first, from the
    offset of the page on, at most the limit. *)
Definition search_results (q type : jsval) (p l : Z) (t : SQL.table) : list jsval :=
  List.map (SQL.project search_columns)
    (SQL.take (Some l) (SQL.drop (Some ((p - 1) * l))
       (SQL.sort_desc "created_date" (List.filter (search_matches q type) t)))).

(** The recent records: the matching ones, latest first, at most the
    limit. *)
Definition recent_rows (type : jsval) (l : Z) (t : SQL.table) : list jsval :=
  List.map (SQL.project recent_columns)
    (SQL.take (Some l)
       (SQL.sort_desc "created_date" (List.filter (recent_matches type) t))).

(** The records of an author: all the matching ones, latest first. *)
Definition author_rows (author : jsval) (t : SQL.table) : list jsval :=
  List.map (SQL.project author_columns)
    (SQL.sort_desc "created_date" (List.filter (author_matches author) t)).

(** ** Statistics *)

(** A record has the processing status [s]. *)
Definition status_is (s : string) (r : SQL.row) : bool :=
  SQL.holds [VStr s] r (SQL.Eq "ai_processing_status" 1).

(** How many records have the processing status [s]. *)
Definition count_status (s : string) (t : SQL.table) : Z :=
  Z.of_nat (length (List.filter (status_is s) t)).

(** The creation date of the latest record, [null] when there is none. *)
Definition latest_date (t : SQL.table) : jsval :=
  match SQL.sort_desc "created_date" t with
  | [] => VNull
  | r :: _ => JS.or (SQL.js_of_sql (SQL.col r "created_date")) VNull
  end.

(** The body of the statistics, given its two objects of counts and its
    average. *)
Definition stats_object (w : world) (t : SQL.table)
    (by_source by_media : list (string * jsval)) (avg : jsnum) : jsval :=
  VObj [("total_content", VNum (Int (Z.of_nat (length t))));
        ("content_by_source_type", VObj by_source);
        ("content_by_media_type", VObj by_media);
        ("processed_content", VNum (Int (count_status "completed" t)));
        ("pending_content", VNum (Int (count_status "pending" t)));
        ("average_word_count", VNum avg);
        ("latest_content", latest_date t);
        ("last_updated", VStr (clock w))].

(** ** Pages *)

(** The request for page [p] of the list, [l] rows a page, with the filters
    [filters]. *)
Definition page_request (filters : list (string * string)) (l p : Z) : request :=
  Request (("page", string_of_Z p) :: ("limit", string_of_Z l) :: filters) [].

(** The rows of the [content] of an answer. *)
Definition list_content (r : outcome response * world * list event) : list jsval :=
  match answer r with
  | Done resp =>
      match JS.get (body resp) "content" with
      | VArr rows => rows
      | _ => []
      end
  | Thrown => []
  end.

(** No two of the records have the same creation date: ordered by date,
    they come in one order only. *)
Definition distinct_dates (rs : list SQL.row) : Prop :=
  List.NoDup (List.map (fun r => SQL.col r "created_date") rs).

(** A world whose cache works and holds nothing, so that every answer is
    computed from the store. *)
Definition cold (w : world) : Prop :=
  Redis.get_fails (redis w) = false /\
  Redis.set_fails (redis w) = false /\
  forall k, Redis.lookup (now w) (redis w) k = None.

(** ** Answers read back *)

(** The body of an answer, [undefined] when there is none. *)
Definition answer_body (r : outcome response * world * list event) : jsval :=
  match answer r with
  | Done resp => body resp
  | Thrown => VUndef
  end.

(** ** JSON texts *)

Fixpoint no_repeat (ks : list string) : bool :=
  match ks with
  | [] => true
  | k :: rest => negb (existsb (String.eqb k) rest) && no_repeat rest
  end.

(** A value as JavaScript has it and as the embedding tracks it: the keys of
    an object are distinct, and every number is an integer. *)
Fixpoint well_formed (v : jsval) : bool :=
  match v with
  | VNum NonInt => false
  | VArr items => forallb well_formed items
  | VObj props =>
      no_repeat (List.map fst props)
      && forallb (fun kv => well_formed (snd kv)) props
  | _ => true
  end.

(** What [JSON.parse] makes of the text of a value: an [undefined] property
    is gone, an [undefined] element is [null], a [Date] is its string. *)
Fixpoint read_back (v : jsval) : jsval :=
  match v with
  | VUndef => VNull
  | VNum NonInt => VNull
  | VDate iso => VStr iso
  | VArr items => VArr (List.map read_back items)
  | VObj props =>
      VObj (List.flat_map
              (fun kv => match snd kv with
                         | VUndef => []
                         | _ => [(fst kv, read_back (snd kv))]
                         end) props)
  | _ => v
  end.

(** The steps [JSON.parse] needs for the text of a value. *)
Fixpoint parse_steps (v : jsval) : nat :=
  match v with
  | VArr items => S (list_sum (List.map (fun x => S (parse_steps x)) items))
  | VObj props =>
      S (list_sum (List.flat_map
                     (fun kv => match snd kv with
                                | VUndef => []
                                | _ => [S (parse_steps (snd kv))]
                                end) props))
  | _ => 1%nat
  end.

(** What may follow a value in a JSON text. *)
Definition delimited (rest : string) : bool :=
  match rest with
  | EmptyString => true
  | String c _ => Ascii.eqb c "," || Ascii.eqb c "]" || Ascii.eqb c "}"
  end.

(** The characters a value may begin with. *)
Definition value_start (c : ascii) : bool :=
  Str.mem c "ntf[{-0123456789" || Ascii.eqb c JSON.dquote.

(** A value other than [undefined]. *)
Definition defined (v : jsval) : bool :=
  match v with
  | VUndef => false
  | _ => true
  end.

(** The properties of an object that are not [undefined]. *)
Definition defined_props (props : list (string * jsval)) : list (string * jsval) :=
  List.filter (fun kv => defined (snd kv)) props.

(** The text of one property. *)
Definition member_text (kv : string * jsval) : string :=
  JSON.quote (fst kv) +:+ ":" +:+ JSON.stringify' (snd kv).

(** The text of a value, whatever delimiter follows it, is parsed to what is
    read back of the value, and the delimiter is left. *)
Definition reads_back (v : jsval) : Prop :=
  forall (rest : string) (fuel : nat),
    delimited rest = true -> (parse_steps v <= fuel)%nat ->
    JSON.parse_value fuel (JSON.stringify' v +:+ rest) = Some (read_back v, rest).


(** A handler answers again what it cached: once it has answered 200 from
    the store with a well formed body, the same request within [ttl] seconds
    is answered 200 from the cache alone, with a body that has the JSON text
    of the first. *)
Definition replayed_for (ttl : Z) (key : string) (h : M response) (w : world)
  : Prop :=
  forall b w' tr,
    h w = (Done (Response 200 b), w', tr) ->
    existsb is_store_event tr = true ->
    well_formed b = true ->
    forall t later clock',
      later < now w + ttl ->
      h (later_world w' t later clock')
      = (Done (Response 200 (read_back b)), later_world w' t later clock',
         [CacheGet key])
      /\ JSON.stringify' (read_back b) = JSON.stringify' b.

(** ** The shape of an answer *)

(** The body of a list answer. *)
Definition list_body (type format author : jsval) (rows : list jsval)
    (p l total : Z) : jsval :=
  VObj [("content", VArr rows);
        ("pagination",
         VObj [("page", VNum (Int p)); ("limit", VNum (Int l));
               ("total", VNum (Int total));
               ("pages", VNum (Int (- ((- total) / l))))]);
        ("filters",
         VObj [("type", type); ("format", format); ("author", author)])].

(** ** Get-by-id *)

(** The record has the id [id]: the WHERE clause of get-by-id. *)
Definition has_id (id : string) (r : SQL.row) : bool :=
  SQL.holds [VStr id] r (SQL.Eq "id" 1).

(** ** Requests and what they cache *)

(** The run begins with a read of the cache under [key]. *)
Definition reads_cache (key : string)
    (r : outcome response * world * list event) : Prop :=
  exists rest, trace r = CacheGet key :: rest.



(** Every query of a run has been answered by the store. *)
Definition answered (w : world) (r : outcome response * world * list event)
  : Prop :=
  forall q ps, List.In (StoreQuery q ps) (trace r) -> query_rows w q ps <> None.

(** Whatever a run writes to the cache goes under [key], for [ttl]
    seconds. *)
Definition writes_only (key : string) (ttl : Z)
    (r : outcome response * world * list event) : Prop :=
  forall k t v, List.In (CacheSetEx k t v) (trace r) -> k = key /\ t = ttl.

(** A run that has computed its answer from the store and cached it: after
    the read of the cache it has queried the store, it has written the JSON
    text of the body it answers under [key] for [ttl] seconds, and the world
    after is the world before with that entry. *)
Definition computed_and_cached (key : string) (ttl : Z) (w : world)
    (r : outcome response * world * list event) : Prop :=
  exists body queries,
    r = (Done (Response 200 body),
         World (db w)
           (Redis.setEx (now w) key ttl (JSON.stringify' body) (redis w))
           (now w) (clock w),
         CacheGet key :: queries
         ++ [CacheSetEx key ttl (JSON.stringify' body)]) /\
    queries <> [] /\ forallb is_store_event queries = true.

(** * Properties *)

(** ** Routing *)

Module RouterFacts.
Import Router.

Lemma routes_unfold :
  routes =
  [ ([Lit "api"; Lit "health"], Health);
    ([Lit "api"; Lit "content"], Content);
    ([Lit "api"; Lit "content"; Param "id"], ContentById);
    ([Lit "api"; Lit "search"], Search);
    ([Lit "api"; Lit "stats"], Stats);
    ([Lit "api"; Lit "content"; Lit "recent"], Recent);
    ([Lit "api"; Lit "content"; Lit "by-author"], ByAuthor) ].
Proof. reflexivity. Qed.

(** Whatever three-segment literal path matches under [/api/content/], the
    parameter route matches too, provided the last literal is not empty. *)
Lemma literal_implies_param (a b c : string) (segs : list string) ps :
  Str.lower c <> "" ->
  match_segments [Lit a; Lit b; Lit c] segs = Some ps ->
  match_segments [Lit a; Lit b; Param "id"] segs <> None.
Proof.
  intros Hc.
  destruct segs as [|x [|y [|z [|u rest]]]]; cbn [match_segments];
    try discriminate;
    destruct (String.eqb (Str.lower a) (Str.lower x)); try discriminate;
    destruct (String.eqb (Str.lower b) (Str.lower y)); try discriminate;
    destruct (String.eqb_spec (Str.lower c) (Str.lower z)) as [E|];
    try discriminate.
  intros _. destruct (String.eqb_spec z "") as [->|]; [|discriminate].
  cbn in E. contradiction.
Qed.

Lemma literal_path_implies_param (a b c path : string) ps :
  Str.lower c <> "" ->
  match_path [Lit a; Lit b; Lit c] path = Some ps ->
  match_path [Lit a; Lit b; Param "id"] path <> None.
Proof.
  intros Hc. unfold match_path.
  destruct path as [|ch rest]; [discriminate|].
  destruct (Ascii.eqb_spec ch "/") as [->|Hne].
  2:{ destruct ch as [[] [] [] [] [] [] [] []]; try discriminate.
      exfalso. apply Hne. reflexivity. }
  destruct (match_segments [Lit a; Lit b; Lit c] _) eqn:E1.
  - intros _. pose proof (literal_implies_param _ _ _ _ _ Hc E1) as H.
    destruct (match_segments [Lit a; Lit b; Param "id"] _); [discriminate|contradiction].
  - intros E2. pose proof (literal_implies_param _ _ _ _ _ Hc E2) as H.
    destruct (match_segments [Lit a; Lit b; Param "id"] (segments _)); [discriminate|].
    exact H.
Qed.

End RouterFacts.

(** C1.  A GET of [/api/content/recent] or of [/api/content/by-author] is
    dispatched to the handler of [/api/content/:id], with [id] bound to
    ["recent"] and to ["by-author"]: that route is registered first and its
    parameter matches any one segment.  Hence no request at all, whatever its
    method and path, is dispatched to the handlers registered under
    [/api/content/recent] and [/api/content/by-author]. *)
Theorem dedicated_routes_shadowed :
  Router.dispatch Router.GET "/api/content/recent"
    = (Router.ContentById, [("id", "recent")]) /\
  Router.dispatch Router.GET "/api/content/by-author"
    = (Router.ContentById, [("id", "by-author")]) /\
  (forall query : list (string * string),
      serve Router.GET "/api/content/recent" query
      = get_content_by_id (Request query [("id", "recent")]) /\
      serve Router.GET "/api/content/by-author" query
      = get_content_by_id (Request query [("id", "by-author")])) /\
  forall (m : Router.method) (path : string),
    fst (Router.dispatch m path) <> Router.Recent /\
    fst (Router.dispatch m path) <> Router.ByAuthor.
Proof.
  split; [reflexivity|]. split; [reflexivity|].
  split; [intros query; split; reflexivity|].
  intros m path. unfold Router.dispatch.
  destruct m; cbn [fst]; try (split; discriminate).
  rewrite RouterFacts.routes_unfold. cbn [Router.first_match].
  repeat match goal with
    | |- context [match Router.match_path ?p path with _ => _ end] =>
        let E := fresh "E" in destruct (Router.match_path p path) eqn:E
    end; cbn [fst]; try (split; discriminate).
  - exfalso. eapply RouterFacts.literal_path_implies_param; [|eassumption|eassumption].
    discriminate.
  - exfalso. eapply RouterFacts.literal_path_implies_param; [|eassumption|eassumption].
    discriminate.
Qed.

(** ** Decimal numerals *)

Module DecimalFacts.

Lemma Z_to_int_proper (z : Z) :
  Z.to_int z <> Decimal.Pos Decimal.Nil /\ Z.to_int z <> Decimal.Neg Decimal.Nil.
Proof.
  destruct z as [|p|p]; cbn; split; try discriminate;
    intros H; injection H as H; exact (DecimalPos.Unsigned.to_uint_nonnil p H).
Qed.

(** An integer is read back from its decimal rendering. *)
Lemma Z_of_string_of_Z (z : Z) : Z_of_string (string_of_Z z) = Some z.
Proof.
  unfold Z_of_string, string_of_Z.
  destruct (Z_to_int_proper z) as [H1 H2].
  rewrite NilZero.isi by assumption. simpl. f_equal. apply DecimalZ.of_to.
Qed.

Lemma span_digits_uint (d : Decimal.uint) :
  Str.span_digits (NilEmpty.string_of_uint d) = (NilEmpty.string_of_uint d, "").
Proof.
  induction d; cbn [NilEmpty.string_of_uint Str.span_digits];
    [reflexivity|..];
    match goal with
    | |- context [Str.is_digit ?c] => change (Str.is_digit c) with true
    end; cbv iota; rewrite IHd; reflexivity.
Qed.

Lemma uint_head_not_sign (d : Decimal.uint) :
  d <> Decimal.Nil ->
  exists c s, NilEmpty.string_of_uint d = String c s /\ Str.is_digit c = true.
Proof. destruct d; intros H; try contradiction; simpl; eauto. Qed.

(** [parseInt] of a run of digits. *)
Lemma parseInt_uint (d : Decimal.uint) :
  d <> Decimal.Nil ->
  JS.parseInt_string (NilEmpty.string_of_uint d) = Int (Z.of_uint d).
Proof.
  intros Hd. destruct (uint_head_not_sign d Hd) as (c & s & Hs & Hc).
  unfold JS.parseInt_string.
  assert (E : match NilEmpty.string_of_uint d with
              | String "-" s' => (true, s')
              | String "+" s' => (false, s')
              | _ => (false, NilEmpty.string_of_uint d)
              end = (false, NilEmpty.string_of_uint d)).
  { rewrite Hs. destruct c as [[] [] [] [] [] [] [] []];
      try reflexivity; discriminate Hc. }
  rewrite E, span_digits_uint. cbn [fst].
  rewrite Hs. cbv iota. rewrite <- Hs.
  unfold JS.num_of_uint_string. rewrite NilEmpty.usu. reflexivity.
Qed.

(** [parseInt] of the text of a count. *)
Lemma parseInt_count (n : nat) :
  JS.parseInt (SQL.count_text n) = Int (Z.of_nat n).
Proof.
  unfold SQL.count_text, JS.parseInt, JS.ToString, string_of_Z.
  destruct (Z.of_nat n) as [|p|p] eqn:E; [reflexivity| |lia].
  cbn [Z.to_int NilZero.string_of_int].
  pose proof (DecimalPos.Unsigned.to_uint_nonnil p) as Hnn.
  replace (NilZero.string_of_uint (Pos.to_uint p))
    with (NilEmpty.string_of_uint (Pos.to_uint p))
    by (unfold NilZero.string_of_uint; destruct (Pos.to_uint p);
        [contradiction|reflexivity..]).
  rewrite parseInt_uint by exact Hnn.
  unfold Z.of_uint. rewrite DecimalPos.Unsigned.of_to. reflexivity.
Qed.

End DecimalFacts.

(** ** Integer arguments *)

Module IntFacts.
Import SQL.

Lemma rtrim_digits (d : Decimal.uint) :
  rtrim (NilEmpty.string_of_uint d) = NilEmpty.string_of_uint d.
Proof.
  induction d; cbn [NilEmpty.string_of_uint rtrim]; [reflexivity|..];
    rewrite IHd; destruct (NilEmpty.string_of_uint d); reflexivity.
Qed.

Lemma unsigned_digits (d : Decimal.uint) :
  d <> Decimal.Nil -> unsigned (NilEmpty.string_of_uint d) = Some (Z.of_uint d).
Proof.
  intros Hd. unfold unsigned. rewrite NilEmpty.usu.
  destruct d; [contradiction|reflexivity..].
Qed.

Lemma digits_of_text (s : string) (d : Decimal.uint) :
  NilZero.uint_of_string s = Some d ->
  d <> Decimal.Nil /\ s = NilEmpty.string_of_uint d.
Proof.
  intros E.
  assert (Hd : d <> Decimal.Nil)
    by (intros ->; exact (NilZero.uint_of_string_nonnil s E)).
  split; [exact Hd|].
  apply NilZero.sus in E. unfold NilZero.string_of_uint in E.
  destruct d; [contradiction|symmetry; exact E..].
Qed.

(** The store reads a plain integer literal as JavaScript's [Number] and
    this file's [Z_of_string] do. *)
Lemma int_of_text_literal (s : string) (z : Z) :
  Z_of_string s = Some z -> int_of_text s = Some z.
Proof.
  unfold Z_of_string, NilZero.int_of_string.
  destruct s as [|a s']; [discriminate|].
  destruct (Ascii.eqb_spec a "-") as [->|Ha].
  - destruct (NilZero.uint_of_string s') as [d|] eqn:E; [|discriminate].
    intros [= <-]. destruct (digits_of_text s' d E) as [Hd ->].
    unfold int_of_text. cbn [ltrim]. change (is_space "-") with false. cbv iota.
    cbn [rtrim]. rewrite rtrim_digits.
    destruct (DecimalFacts.uint_head_not_sign d Hd) as (c & r & Hs & _).
    rewrite Hs. cbv iota. rewrite <- Hs.
    rewrite unsigned_digits by exact Hd. reflexivity.
  - destruct (NilZero.uint_of_string (String a s')) as [d|] eqn:E; [|discriminate].
    intros [= <-]. destruct (digits_of_text _ d E) as [Hd Hs].
    unfold int_of_text. rewrite Hs.
    assert (Hl : ltrim (NilEmpty.string_of_uint d) = NilEmpty.string_of_uint d)
      by (destruct d; reflexivity).
    rewrite Hl, rtrim_digits.
    transitivity (unsigned (NilEmpty.string_of_uint d));
      [destruct d; try contradiction; reflexivity|].
    rewrite unsigned_digits by exact Hd. reflexivity.
Qed.

Lemma int_arg_literal (bits : Z) (s : string) (z : Z) :
  Z_of_string s = Some z -> fits bits z = true -> int_arg bits s = Some z.
Proof.
  intros Hs Hfit. unfold int_arg.
  rewrite (int_of_text_literal s z Hs), Hfit. reflexivity.
Qed.

Lemma int_arg_of_Z (bits z : Z) :
  fits bits z = true -> int_arg bits (string_of_Z z) = Some z.
Proof. apply int_arg_literal, DecimalFacts.Z_of_string_of_Z. Qed.

Lemma fits_64 (z : Z) : - 2 ^ 63 <= z < 2 ^ 63 -> fits 64 z = true.
Proof. unfold fits. change (64 - 1) with 63. lia. Qed.

End IntFacts.

(** ** Query arguments *)

Module SQLFacts.
Import SQL.

Lemma Z_of_string_nonempty (s : string) (z : Z) :
  Z_of_string s = Some z -> s <> "".
Proof. intros H ->. discriminate H. Qed.

Lemma ToNumber_int_param (v : jsval) (d z : Z) :
  int_param v d = Some z ->
  JS.ToNumber (or_default v (VNum (Int d))) = Int z.
Proof.
  destruct v; simpl; try discriminate.
  - intros [= ->]. reflexivity.
  - intros H. unfold JS.ToNumber_string.
    destruct (String.eqb_spec s "") as [->|_]; [discriminate H|].
    rewrite H. reflexivity.
Qed.

Lemma pg_text_int_param (v : jsval) (d z : Z) :
  int_param v d = Some z ->
  exists t, pg_text (or_default v (VNum (Int d))) = Some t /\ Z_of_string t = Some z.
Proof.
  destruct v; simpl; try discriminate.
  - intros [= ->]. eexists. split; [reflexivity|]. apply DecimalFacts.Z_of_string_of_Z.
  - intros H. eauto.
Qed.

(** Arguments added after the ones a condition mentions do not change it. *)
Lemma arg_app (ps extra : list jsval) (n : nat) :
  (0 < n <= length ps)%nat -> arg (ps ++ extra) n = arg ps n.
Proof.
  intros [Hpos Hle]. destruct n as [|i]; [lia|]. simpl.
  rewrite nth_error_app1 by lia. reflexivity.
Qed.

Lemma holds_app (ps extra : list jsval) (r : row) (c : cond) :
  in_range ps c -> holds (ps ++ extra) r c = holds ps r c.
Proof.
  unfold in_range. induction c; simpl; intros H.
  - inversion_clear H. rewrite arg_app by assumption. reflexivity.
  - inversion_clear H. rewrite arg_app by assumption. reflexivity.
  - reflexivity.
  - apply List.Forall_app in H as [Ha Hb]. rewrite IHc1, IHc2 by assumption.
    reflexivity.
Qed.

Lemma matches_app (ps extra : list jsval) (w : list cond) (r : row) :
  List.Forall (in_range ps) w -> matches (ps ++ extra) w r = matches ps w r.
Proof.
  unfold matches. induction 1 as [|c w Hc _ IH]; simpl; [reflexivity|].
  rewrite holds_app, IH by assumption. reflexivity.
Qed.

Lemma filter_matches_app (ps extra : list jsval) (w : list cond) (t : table) :
  List.Forall (in_range ps) w ->
  List.filter (matches (ps ++ extra) w) t = List.filter (matches ps w) t.
Proof.
  intros H. induction t as [|r t IH]; simpl; [reflexivity|].
  rewrite matches_app, IH by assumption. reflexivity.
Qed.

(** LIMIT and OFFSET cut a result down. *)
Lemma length_take_le (l : Z) (rs : list row) :
  0 <= l -> Z.of_nat (length (take (Some l) rs)) <= l.
Proof.
  intros H. simpl. rewrite length_firstn. lia.
Qed.

End SQLFacts.

(** ** The list operation *)

Module ListFacts.
Import SQL.

Section Builder.
Variables type format author : jsval.
Let b := list_builder type format author.

Lemma conditions_in_range :
  List.Forall (in_range (queryParams b)) (whereConditions b).
Proof.
  subst b. unfold list_builder, push_if, in_range.
  destruct (JS.truthy type), (JS.truthy format), (JS.truthy author); simpl;
    repeat constructor; simpl; lia.
Qed.

(** The COUNT query is accepted and counts them. *)
Lemma run_count (t : table) :
  run t (list_count_query b) (queryParams b)
  = Some [VObj [("count",
                  count_text (length (selected_rows type format author t)))]].
Proof.
  unfold selected_rows. subst b. unfold list_builder, push_if.
  destruct (JS.truthy type), (JS.truthy format), (JS.truthy author);
    reflexivity.
Qed.

(** The data query is accepted when its LIMIT and OFFSET arguments are
    integers that are not negative; it returns the selected rows, latest
    first, from the offset on, at most the limit. *)
Lemma run_data (t : table) (limit : jsval) (tl : string) (l off : Z) :
  pg_text limit = Some tl -> int_arg 64 tl = Some l -> 0 <= l ->
  0 <= off < 2 ^ 63 ->
  run t (list_data_query b) (queryParams b ++ [limit; VNum (Int off)])
  = Some (List.map (project list_columns)
            (take (Some l) (drop (Some off)
               (sort_desc "created_date"
                  (selected_rows type format author t))))).
Proof.
  intros Hl Hz Hl0 [Ho0 Ho63]. unfold selected_rows. fold b.
  rewrite <- (SQLFacts.filter_matches_app _ [limit; VNum (Int off)])
    by apply conditions_in_range.
  assert (Hoff : int_arg 64 (string_of_Z off) = Some off)
    by (apply IntFacts.int_arg_of_Z, IntFacts.fits_64; lia).
  apply Z.leb_le in Hl0, Ho0.
  subst b. unfold list_builder, push_if.
  destruct (JS.truthy type), (JS.truthy format), (JS.truthy author);
    unfold run; cbn -[int_arg string_of_Z List.filter sort_desc matches
                      List.map Z.leb];
    rewrite ?Hl; cbn -[int_arg string_of_Z List.filter sort_desc matches
                      List.map Z.leb];
    rewrite ?Hz, ?Hoff, ?Hl0, ?Ho0; reflexivity.
Qed.
End Builder.

End ListFacts.

Lemma ceil_div_spec (total l : Z) :
  1 <= l ->
  let pages := - ((- total) / l) in
  (pages - 1) * l < total <= pages * l.
Proof.
  intros Hl pages. subst pages.
  pose proof (Z.div_mod (- total) l ltac:(lia)) as Hdm.
  pose proof (Z.mod_pos_bound (- total) l ltac:(lia)) as Hm.
  nia.
Qed.

(** C3.  The list operation, on a request whose page [p] and limit [l] are at
    least 1 (each absent, hence its default, or an integer literal), when the
    cache has nothing under the key and the store answers: the response is a
    200 whose [pagination.pages] is the ceiling of [total / l], whose
    [content] has at most [l] rows, where [total] is the number of records
    the WHERE clause of the request selects, and the OFFSET sent to the store
    is [(p - 1) * l].  The page, the limit, the offset and the size of the
    table are integers the doubles hold exactly (below [2 ^ 53]): beyond,
    the numbers of the code are rounded and the store has its own range. *)
Theorem list_pagination (w : world) (t : SQL.table) (req : request) (p l : Z) :
  db w = Some t ->
  Redis.get_fails (redis w) = false ->
  Redis.set_fails (redis w) = false ->
  Redis.lookup (now w) (redis w) (list_key req) = None ->
  int_param (assoc (req_query req) "page") 1 = Some p -> 1 <= p ->
  int_param (assoc (req_query req) "limit") 50 = Some l -> 1 <= l ->
  safe p -> safe l -> safe ((p - 1) * l) -> safe (Z.of_nat (length t)) ->
  let type := assoc (req_query req) "type" in
  let format := assoc (req_query req) "format" in
  let author := assoc (req_query req) "author" in
  let limit := or_default (assoc (req_query req) "limit") (VNum (Int 50)) in
  let b := list_builder type format author in
  let selected := selected_rows type format author t in
  let total := Z.of_nat (length selected) in
  exists (content : list jsval) (pages : Z) (body : jsval) (w' : world),
    get_content req w
    = (Done (Response 200 body), w',
       [ CacheGet (list_key req);
         StoreQuery (list_count_query b) (queryParams b);
         StoreQuery (list_data_query b)
           (queryParams b ++ [limit; VNum (Int ((p - 1) * l))]);
         CacheSetEx (list_key req) 300 (JSON.stringify' body) ])
    /\ JS.get body "content" = VArr content
    /\ content = List.map (SQL.project list_columns)
                   (SQL.take (Some l) (SQL.drop (Some ((p - 1) * l))
                      (SQL.sort_desc "created_date" selected)))
    /\ Z.of_nat (length content) <= l
    /\ JS.get (JS.get body "pagination") "total" = VNum (Int total)
    /\ JS.get (JS.get body "pagination") "pages" = VNum (Int pages)
    /\ pages = - ((- total) / l)
    /\ (pages - 1) * l < total <= pages * l.
Proof.
  intros Hdb Hget Hset Hmiss Hp Hp1 Hl Hl1 Hsp Hsl Hso Hst
    type format author limit b selected total.
  unfold safe in Hsp, Hsl, Hso, Hst.
  destruct (SQLFacts.pg_text_int_param _ _ _ Hl) as (tl & Htl & Hztl).
  assert (Hoff : 0 <= (p - 1) * l < 2 ^ 63) by nia.
  apply (IntFacts.int_arg_literal 64) in Hztl;
    [|apply IntFacts.fits_64; lia].
  pose proof (ListFacts.run_data type format author t limit tl l ((p - 1) * l)
                Htl Hztl ltac:(lia) Hoff) as Hdata.
  pose proof (ListFacts.run_count type format author t) as Hcount.
  pose proof (SQLFacts.ToNumber_int_param _ _ _ Hp) as Hpn.
  pose proof (SQLFacts.ToNumber_int_param _ _ _ Hl) as Hln.
  subst total selected b limit author format type.
  unfold get_content, try_catch, bind, redis_get, pool_query, query_rows,
    redis_setEx, prop, ret.
  rewrite Hget, Hmiss. cbn [JS.truthy]. cbv beta iota zeta.
  rewrite Hdb, Hcount. cbn [item nth nullish JS.get JS.get_prop]. cbv beta iota zeta.
  change (String.eqb "count" "count") with true. cbv beta iota zeta.
  rewrite Hdb, Hpn, Hln. cbn [JS.sub JS.mul]. rewrite Hdata.
  cbv beta iota zeta. rewrite Hset.
  rewrite DecimalFacts.parseInt_count. cbn [JS.ceil_div].
  replace (l =? 0) with false by lia.
  do 4 eexists. split; [reflexivity|].
  split; [reflexivity|]. split; [reflexivity|].
  split.
  { rewrite length_map. apply SQLFacts.length_take_le. lia. }
  split; [reflexivity|]. split; [reflexivity|]. split; [reflexivity|].
  apply ceil_div_spec. exact Hl1.
Qed.

(** Unfolds the monad of a handler and splits on everything the outside
    decides: the failures of the cache, what it holds, whether that parses,
    what the store answers. *)
Ltac unfold_handler :=
  unfold get_content, get_content_by_id, get_search, get_stats, get_recent,
    get_by_author;
  unfold internal_error;
  unfold try_catch, bind, redis_get, redis_setEx, pool_query, pool_query_all,
    json_parse, prop, ret, throw, date_now;
  cbv beta iota zeta.

Ltac split_outside :=
  repeat first
    [ progress cbv beta iota zeta
    | progress change (JS.truthy VNull) with false
    | progress cbn [negb]
    | match goal with
      | |- context [Redis.get_fails ?r] => destruct (Redis.get_fails r) eqn:?
      | |- context [Redis.lookup ?n ?r ?k] => destruct (Redis.lookup n r k) eqn:?
      | |- context [JS.truthy ?v] => destruct (JS.truthy v) eqn:?
      | |- context [match JSON.parse ?s with _ => _ end] => destruct (JSON.parse s) eqn:?
      | |- context [match query_rows ?w ?q ?ps with _ => _ end] =>
          destruct (query_rows w q ps) eqn:?
      | |- context [match all_rows ?w ?qs with _ => _ end] =>
          destruct (all_rows w qs) eqn:?
      | |- context [if nullish ?v then _ else _] => destruct (nullish v) eqn:?
      | |- context [if (?a =? ?b)%nat then _ else _] => destruct (a =? b)%nat eqn:?
      | |- context [Redis.set_fails ?r] => destruct (Redis.set_fails r) eqn:?
      end ].

Ltac in_trace :=
  unfold stats_queries;
  cbn [trace answer after fst snd List.In List.map app existsb is_store_event
       is_cache_event orb];
  intros;
  repeat match goal with
    | H : _ \/ _ |- _ => destruct H
    | H : False |- _ => contradiction
    | H : _ = ?y |- _ => is_var y; subst y
    | H : _ = _ |- _ => first [discriminate H | injection H as ?; subst]
    end;
  repeat split; try reflexivity; auto 10.

(** ** Cache keys *)

Module KeyFacts.

Lemma append_cons (x : ascii) (a b : string) :
  String x a +:+ b = String x (a +:+ b).
Proof. reflexivity. Qed.

Lemma append_nil (b : string) : "" +:+ b = b.
Proof. reflexivity. Qed.

Lemma append_assoc (a b c : string) : (a +:+ b) +:+ c = a +:+ (b +:+ c).
Proof.
  induction a as [|x a IH]; rewrite ?append_nil, ?append_cons; [reflexivity|].
  f_equal. exact IH.
Qed.

Lemma append_inv_l (a b c : string) : a +:+ b = a +:+ c -> b = c.
Proof.
  induction a as [|x a IH]; rewrite ?append_nil, ?append_cons; [auto|].
  intros H. injection H as H. auto.
Qed.

(** A string literal is read back, and what follows it is left untouched. *)
Lemma read_escape (s rest : string) :
  JSON.read_string (JSON.escape s +:+ String JSON.dquote rest) = Some (s, rest).
Proof.
  induction s as [|c s IH].
  - reflexivity.
  - cbn [JSON.escape]. rewrite append_assoc.
    destruct c as [[] [] [] [] [] [] [] []];
      match goal with
      | |- context [JSON.escape_char ?c] =>
          let e := eval vm_compute in (JSON.escape_char c) in
          change (JSON.escape_char c) with e
      end;
      rewrite ?append_cons, ?append_nil;
      cbn -[JSON.escape]; rewrite IH; reflexivity.
Qed.

Lemma quote_append (s rest : string) :
  JSON.quote s +:+ rest
  = String JSON.dquote (JSON.escape s +:+ String JSON.dquote rest).
Proof.
  unfold JSON.quote. rewrite append_cons, append_assoc, append_cons, append_nil.
  reflexivity.
Qed.

(** Two texts that begin with a string literal and are equal begin with the
    same literal. *)
Lemma quote_prefix_inj (a b ra rb : string) :
  JSON.quote a +:+ ra = JSON.quote b +:+ rb -> a = b /\ ra = rb.
Proof.
  rewrite !quote_append. intros H. injection H as H.
  pose proof (read_escape a ra) as Ha. rewrite H, read_escape in Ha.
  injection Ha as -> ->. split; reflexivity.
Qed.

Lemma flat_map_members (q : list (string * string)) :
  List.flat_map
    (fun kv : string * jsval =>
       match JSON.stringify (snd kv) with
       | Some t => [JSON.quote (fst kv) +:+ ":" +:+ t]
       | None => []
       end)
    (List.map (fun kv : string * string => (fst kv, VStr (snd kv))) q)
  = List.map member q.
Proof.
  induction q as [|kv q IH]; [reflexivity|].
  cbn [List.map List.flat_map fst snd JSON.stringify app]. rewrite IH. reflexivity.
Qed.

Lemma join_members (q : list (string * string)) :
  Str.join "," (List.map member q) +:+ "}" = members q.
Proof.
  induction q as [|kv q IH]; [reflexivity|].
  destruct q as [|kv' q]; [reflexivity|].
  change (Str.join "," (List.map member (kv :: kv' :: q)))
    with (member kv +:+ "," +:+ Str.join "," (List.map member (kv' :: q))).
  rewrite append_assoc, (append_assoc "," _ "}"), IH. reflexivity.
Qed.

(** The key of the list operation, spelled out. *)
Lemma list_key_members (req : request) :
  list_key req = "content:{" +:+ members (req_query req).
Proof.
  unfold list_key, JSON.stringify', query_object.
  cbn [JSON.stringify]. rewrite flat_map_members.
  cbn [default]. rewrite <- join_members. reflexivity.
Qed.

Lemma member_prefix_inj (kv kv' : string * string) (r r' : string) :
  member kv +:+ r = member kv' +:+ r' -> kv = kv' /\ r = r'.
Proof.
  destruct kv as [k v], kv' as [k' v']. unfold member. cbn [fst snd].
  rewrite !append_assoc. intros H.
  apply quote_prefix_inj in H as [-> H].
  apply append_inv_l in H.
  apply quote_prefix_inj in H as [-> ->]. split; reflexivity.
Qed.

Lemma member_head (kv : string * string) (r : string) :
  exists t, member kv +:+ r = String JSON.dquote t.
Proof.
  unfold member. rewrite append_assoc, quote_append. eauto.
Qed.

Lemma members_inj (q q' : list (string * string)) :
  members q = members q' -> q = q'.
Proof.
  revert q'. induction q as [|kv q IH]; intros [|kv' q'].
  - reflexivity.
  - cbn [members]. destruct (member_head kv' (match q' with
                                       | [] => "}"
                                       | _ :: _ => "," +:+ members q'
                                       end)) as [t ->].
    discriminate.
  - cbn [members]. destruct (member_head kv (match q with
                                       | [] => "}"
                                       | _ :: _ => "," +:+ members q
                                       end)) as [t ->].
    discriminate.
  - cbn [members]. intros H. apply member_prefix_inj in H as [-> H].
    f_equal. destruct q as [|x q], q' as [|x' q'].
    + reflexivity.
    + discriminate H.
    + discriminate H.
    + apply IH. apply append_inv_l in H. exact H.
Qed.

(** A text is cut at its first colon in one way only. *)
Lemma colon_split (a b ra rb : string) :
  Str.mem ":" a = false -> Str.mem ":" b = false ->
  a +:+ String ":" ra = b +:+ String ":" rb -> a = b /\ ra = rb.
Proof.
  revert b. induction a as [|x a IH]; intros [|y b] Ha Hb;
    rewrite ?append_nil, ?append_cons; intros H.
  - injection H as ->. split; reflexivity.
  - injection H as <- _. cbn in Hb. discriminate Hb.
  - injection H as -> _. cbn in Ha. discriminate Ha.
  - injection H as -> H. cbn [Str.mem] in Ha, Hb.
    apply orb_false_elim in Ha as [_ Ha], Hb as [_ Hb].
    destruct (IH b Ha Hb H) as [-> ->]. split; reflexivity.
Qed.

Lemma search_key_inj (q t p l q' t' p' l' : jsval) :
  Str.mem ":" (JS.ToString q) = false -> Str.mem ":" (JS.ToString q') = false ->
  Str.mem ":" (JS.ToString t) = false -> Str.mem ":" (JS.ToString t') = false ->
  Str.mem ":" (JS.ToString p) = false -> Str.mem ":" (JS.ToString p') = false ->
  search_key q t p l = search_key q' t' p' l' ->
  JS.ToString q = JS.ToString q' /\ JS.ToString t = JS.ToString t' /\
  JS.ToString p = JS.ToString p' /\ JS.ToString l = JS.ToString l'.
Proof.
  intros Hq Hq' Ht Ht' Hp Hp'. unfold search_key. intros H.
  apply append_inv_l in H.
  change (":" +:+ ?x) with (String ":" x) in H.
  apply colon_split in H as [Eq H]; [|assumption..].
  change (":page:" +:+ ?x) with (String ":" ("page:" +:+ x)) in H.
  apply colon_split in H as [Et H]; [|assumption..].
  apply append_inv_l in H.
  change (":limit:" +:+ ?x) with (String ":" ("limit:" +:+ x)) in H.
  apply colon_split in H as [Ep H]; [|assumption..].
  apply append_inv_l in H. auto.
Qed.

End KeyFacts.

(** ** Cache keys, continued *)

(** C2, as the code has it: keys are not canonical.  The same filters in
    another order, or a default written out, give another key of the list
    operation; two different searches share a key when a colon moves from
    [q] to [type]; the list operation without parameters and get-by-id of
    the id [{}] share a key. *)
Lemma cache_keys_not_canonical :
  list_key (Request [("type", "video"); ("format", "mp4")] [])
    <> list_key (Request [("format", "mp4"); ("type", "video")] []) /\
  list_key (Request [("page", "1")] []) <> list_key (Request [] []) /\
  request_search_key (Request [("q", "a:b"); ("type", "c")] [])
    = request_search_key (Request [("q", "a"); ("type", "b:c")] []) /\
  list_key (Request [] []) = id_key "{}".
Proof.
  repeat split; try reflexivity; vm_compute; discriminate.
Qed.

(** C2, amended.  The key is a function of the operation and of the request
    as it was received.  List: two requests have the same key exactly when
    their query objects are the same, property by property in the order of
    the URL.  Get-by-id: the same key exactly for the same id.  Search: when
    [q], [type] and [page] hold no colon, equal keys mean equal texts of [q],
    [type], [page] and [limit].  The keys of the search and of the statistics
    are never keys of another operation. *)
Theorem cache_keys_of_raw_request :
  (forall r1 r2 : request,
      list_key r1 = list_key r2 <-> req_query r1 = req_query r2) /\
  (forall a b : string, id_key a = id_key b <-> a = b) /\
  (forall q t p l q' t' p' l' : jsval,
      Str.mem ":" (JS.ToString q) = false -> Str.mem ":" (JS.ToString q') = false ->
      Str.mem ":" (JS.ToString t) = false -> Str.mem ":" (JS.ToString t') = false ->
      Str.mem ":" (JS.ToString p) = false -> Str.mem ":" (JS.ToString p') = false ->
      search_key q t p l = search_key q' t' p' l' ->
      JS.ToString q = JS.ToString q' /\ JS.ToString t = JS.ToString t' /\
      JS.ToString p = JS.ToString p' /\ JS.ToString l = JS.ToString l') /\
  (forall (r : request) (a : string) (q t p l : jsval),
      search_key q t p l <> list_key r /\ search_key q t p l <> id_key a /\
      stats_key <> list_key r /\ stats_key <> id_key a /\
      stats_key <> search_key q t p l).
Proof.
  split; [|split; [|split]].
  - intros r1 r2. split.
    + rewrite !KeyFacts.list_key_members. intros H.
      apply KeyFacts.append_inv_l in H. apply KeyFacts.members_inj. exact H.
    + unfold list_key, query_object. intros ->. reflexivity.
  - intros a b. split.
    + unfold id_key. apply KeyFacts.append_inv_l.
    + intros ->. reflexivity.
  - exact KeyFacts.search_key_inj.
  - intros r a q t p l. rewrite KeyFacts.list_key_members.
    unfold search_key, id_key, stats_key.
    repeat split; intros H; vm_compute in H; discriminate H.
Qed.

Lemma cache_keys_of_raw_request_witness :
  JS.ToString (VNum (Int 1)) = JS.ToString (VStr "1") /\
  JS.ToString (VNum (Int 20)) = JS.ToString (VStr "20").
Proof.
  destruct cache_keys_of_raw_request as (_ & _ & Hsearch & _).
  pose proof (Hsearch (VStr "cats") VUndef (VNum (Int 1)) (VNum (Int 20))
                      (VStr "cats") VUndef (VStr "1") (VStr "20")
                      eq_refl eq_refl eq_refl eq_refl eq_refl eq_refl eq_refl)
    as (_ & _ & Hp & Hl).
  split; assumption.
Defined.

(** ** Failures of the cache *)

(** C4, as the code has it: with the store up, a rejected read of the cache
    makes the list operation answer 500 without a query to the store, and a
    rejected write makes get-by-id answer 500 after the store has returned
    the record. *)
Lemma cache_failure_is_fatal :
  get_content (Request [] []) Sample.get_down
    = (failed, Sample.get_down, [CacheGet (list_key (Request [] []))]) /\
  answer (get_content_by_id (Request [] [("id", "1")]) Sample.set_down) = failed /\
  existsb is_store_event
    (trace (get_content_by_id (Request [] [("id", "1")]) Sample.set_down)) = true /\
  query_rows Sample.set_down id_query [VStr "1"]
    = Some [SQL.all_columns (nth 0 Sample.records [])].
Proof. repeat split; reflexivity. Qed.

(** C4, amended.  A rejected read of the cache fails the request: each
    cached operation answers 500 and sends nothing to the store (the search,
    once [q] is there).  A rejected write fails the request too: a run that
    reaches its write answers 500.  The cache is left as it was. *)
Theorem cache_failure_fails_request (req : request) (w : world) :
  (Redis.get_fails (redis w) = true ->
     fails_at_read (list_key req) w (get_content req w) /\
     fails_at_read (id_key (request_id req)) w (get_content_by_id req w) /\
     (JS.truthy (assoc (req_query req) "q") = true ->
      fails_at_read (request_search_key req) w (get_search req w)) /\
     fails_at_read stats_key w (get_stats req w)) /\
  (Redis.set_fails (redis w) = true ->
     fails_at_write w (get_content req w) /\
     fails_at_write w (get_content_by_id req w) /\
     fails_at_write w (get_search req w) /\
     fails_at_write w (get_stats req w)).
Proof.
  unfold fails_at_read, fails_at_write, failed, request_id, request_search_key.
  split.
  - intros Hget. repeat split; try intros Hq; unfold_handler;
      rewrite ?Hq; cbn [negb]; cbv beta iota; rewrite Hget; reflexivity.
  - intros Hset. split; [|split; [|split]]; unfold_handler; split_outside;
      unfold stats_queries;
      cbn [trace answer after fst snd existsb List.map app is_cache_write orb];
      intros; try discriminate; try (split; reflexivity); congruence.
Qed.

Lemma cache_failure_fails_request_witness :
  fails_at_read stats_key Sample.get_down (get_stats (Request [] []) Sample.get_down) /\
  answer (get_stats (Request [] []) Sample.set_down) = failed.
Proof.
  split.
  - exact (proj2 (proj2 (proj2
      (proj1 (cache_failure_fails_request (Request [] []) Sample.get_down)
             eq_refl)))).
  - exact (proj1 (proj2 (proj2 (proj2
      (proj2 (cache_failure_fails_request (Request [] []) Sample.set_down)
             eq_refl))) eq_refl)).
Defined.

(** ** Page and limit *)

(** C7, as the code has it: a limit of zero and a negative limit are sent to
    the store as they came, by the list and by the search; a page of zero
    sends a negative offset. *)
Lemma unguarded_limit_reaches_store :
  limits_sent (get_content (Request [("limit", "0")] []) Sample.up) = [VStr "0"] /\
  limits_sent (get_content (Request [("limit", "-5")] []) Sample.up) = [VStr "-5"] /\
  limits_sent (get_search (Request [("q", "a"); ("limit", "-5")] []) Sample.up)
    = [VStr "-5"] /\
  limits_sent (get_search (Request [("q", "a"); ("limit", "0")] []) Sample.up)
    = [VStr "0"] /\
  offsets_sent (get_content (Request [("page", "0")] []) Sample.up)
    = [VNum (Int (-50))].
Proof. repeat split; reflexivity. Qed.

Module LimitFacts.

Lemma list_limit (type format author limit off : jsval) :
  let b := list_builder type format author in
  limit_argument
    (StoreQuery (list_data_query b) (queryParams b ++ [limit; off])) = Some limit /\
  offset_argument
    (StoreQuery (list_data_query b) (queryParams b ++ [limit; off])) = Some off.
Proof.
  unfold list_builder, push_if.
  destruct (JS.truthy type), (JS.truthy format), (JS.truthy author);
    split; reflexivity.
Qed.

End LimitFacts.

Ltac split_in H :=
  unfold stats_queries in H;
  cbn [trace answer after fst snd List.In List.map app] in H;
  repeat match type of H with
    | _ \/ _ => destruct H as [H|H]
    | False => contradiction
    end.

(** ** Cache hits *)

Module HitFacts.

Lemma string_of_Z_nonempty (z : Z) : string_of_Z z <> "".
Proof.
  unfold string_of_Z.
  destruct z as [|p|p]; cbn; [discriminate| |discriminate].
  unfold NilZero.string_of_uint. destruct (Pos.to_uint p); discriminate.
Qed.

(** No JSON text is empty. *)
Lemma stringify_nonempty (v : jsval) : JSON.stringify' v <> "".
Proof.
  unfold JSON.stringify'.
  destruct v as [| |[]|[z|]|s|s|l|l]; cbn [JSON.stringify default];
    try discriminate;
    unfold JSON.quote; rewrite ?KeyFacts.append_cons; try discriminate.
  apply string_of_Z_nonempty.
Qed.

End HitFacts.

(** Whatever the handlers write to the cache is a text that is not empty:
    the test [if (cached)] takes every value this service has stored for a
    hit. *)
Lemma written_values_present (req : request) (w : world) (k : string) (t : Z)
    (v : string) :
  List.In (CacheSetEx k t v)
    (trace (get_content req w) ++ trace (get_content_by_id req w)
     ++ trace (get_search req w) ++ trace (get_stats req w)) ->
  v <> "".
Proof.
  intros H. repeat (apply List.in_app_or in H as [H|H]); revert H;
    unfold_handler; split_outside; intros H; split_in H;
    try discriminate H; injection H as _ _ <-; apply HitFacts.stringify_nonempty.
Qed.

(** ** Records that are not found *)

Module IdFacts.

(** What the store answers to the query of get-by-id. *)
Lemma run_id_query (w : world) (id : string) (rows : list jsval) :
  query_rows w id_query [VStr id] = Some rows ->
  exists tbl,
    db w = Some tbl /\
    rows = List.map SQL.all_columns
             (List.filter (SQL.matches [VStr id] [SQL.Eq "id" 1]) tbl).
Proof.
  unfold query_rows. destruct (db w) as [tbl|]; [|discriminate].
  unfold SQL.run, id_query.
  destruct (negb _); [discriminate|].
  cbn [SQL.q_limit SQL.q_offset SQL.q_target SQL.q_where SQL.q_order_desc
       SQL.bound_value SQL.take SQL.drop SQL.order].
  intros H. injection H as <-. eauto.
Qed.

End IdFacts.

(** ** The statistics *)

(** C9, at a table whose one record has the source type [__proto__]: the
    record has a source type, the total is 1, and the counts by source type
    are the empty object, whose sum is 0.  The assignment
    [sourceTypeCounts["__proto__"] = 1] adds no property to an object made by
    [{}]. *)
Lemma stats_proto_undercount :
  source_types_present Sample.proto_table /\
  JS.get (stats_body Sample.proto_world) "total_content" = VNum (Int 1) /\
  exists counts,
    JS.get (stats_body Sample.proto_world) "content_by_source_type" = VObj counts /\
    counts = [] /\ sum_values counts = 0.
Proof.
  split.
  - intros r [<-|[]]. exists "__proto__". reflexivity.
  - split; [reflexivity|]. exists []. repeat split; reflexivity.
Qed.

Module StatsFacts.
Import SQL.

Lemma sqlval_eqb_eq (a b : sqlval) : sqlval_eqb a b = true <-> a = b.
Proof.
  destruct a, b; cbn; split; intros H; try discriminate; try reflexivity.
  - apply Z.eqb_eq in H. congruence.
  - injection H as ->. apply Z.eqb_refl.
  - apply String.eqb_eq in H. congruence.
  - injection H as ->. apply String.eqb_refl.
  - apply String.eqb_eq in H. congruence.
  - injection H as ->. apply String.eqb_refl.
Qed.

Lemma bump_total (v : sqlval) (groups : list (sqlval * nat)) :
  group_total (bump v groups) = S (group_total groups).
Proof.
  induction groups as [|[v' n] groups IH]; cbn; [reflexivity|].
  destruct (sqlval_eqb v v'); cbn; [reflexivity|]. rewrite IH. lia.
Qed.

Lemma bump_keys (v : sqlval) (groups : list (sqlval * nat)) (k : sqlval) :
  List.In k (List.map fst (bump v groups)) ->
  k = v \/ List.In k (List.map fst groups).
Proof.
  induction groups as [|[v' n] groups IH]; cbn.
  - intros [<-|[]]. left; reflexivity.
  - destruct (sqlval_eqb v v'); cbn.
    + intros [<-|H]; auto.
    + intros [<-|H]; auto. destruct (IH H); auto.
Qed.

Lemma bump_NoDup (v : sqlval) (groups : list (sqlval * nat)) :
  List.NoDup (List.map fst groups) -> List.NoDup (List.map fst (bump v groups)).
Proof.
  induction groups as [|[v' n] groups IH]; cbn; intros H.
  - constructor; [intros []|constructor].
  - destruct (sqlval_eqb v v') eqn:E; cbn; [exact H|].
    inversion_clear H as [|? ? Hnot Hnd]. constructor; [|auto].
    intros Hin. apply bump_keys in Hin as [->|Hin]; [|contradiction].
    assert (sqlval_eqb v v = true) by (apply sqlval_eqb_eq; reflexivity).
    congruence.
Qed.

Lemma group_count_total (c : string) (rs : list row) :
  group_total (group_count c rs) = length rs.
Proof.
  induction rs as [|r rs IH]; cbn; [reflexivity|].
  rewrite bump_total. f_equal. exact IH.
Qed.

Lemma group_count_NoDup (c : string) (rs : list row) :
  List.NoDup (List.map fst (group_count c rs)).
Proof.
  induction rs as [|r rs IH]; cbn; [constructor|]. apply bump_NoDup. exact IH.
Qed.

Lemma group_count_keys (c : string) (rs : list row) (k : sqlval) :
  List.In k (List.map fst (group_count c rs)) ->
  exists r, List.In r rs /\ col r c = k.
Proof.
  induction rs as [|r rs IH]; cbn; [intros []|].
  intros H. apply bump_keys in H as [->|H]; [eauto|].
  destruct (IH H) as (r' & Hin & E). eauto.
Qed.

Lemma filter_all (t : table) : List.filter (matches [] []) t = t.
Proof. induction t as [|r t IH]; cbn; [reflexivity|]. f_equal. exact IH. Qed.

Lemma set_own_fresh (props : list (string * jsval)) (k : string) (v : jsval) :
  ~ List.In k (List.map fst props) -> JS.set_own props k v = props ++ [(k, v)].
Proof.
  induction props as [|[k' v'] props IH]; cbn; intros H; [reflexivity|].
  destruct (String.eqb_spec k k') as [->|_]; [exfalso; auto|].
  rewrite IH by auto. reflexivity.
Qed.

Lemma group_prop_key_inj (a b : sqlval * nat) :
  plain_text (fst a) -> plain_text (fst b) ->
  fst (group_prop a) = fst (group_prop b) -> fst a = fst b.
Proof.
  destruct a as [va na], b as [vb nb]. unfold group_prop. cbn [fst snd].
  intros (s & -> & _) (s' & -> & _). cbn. congruence.
Qed.

(** The loop over the groups of the source types: with text keys, all
    different, none of them [__proto__], every group adds its property. *)
Lemma count_object_groups (groups : list (sqlval * nat))
    (acc : list (string * jsval)) :
  List.Forall (fun g => plain_text (fst g)) groups ->
  List.NoDup (List.map fst groups) ->
  (forall g, List.In g groups ->
             ~ List.In (fst (group_prop g)) (List.map fst acc)) ->
  fold_left
    (fun counts row =>
       JS.set_prop counts (JS.ToString (JS.get row "source_type"))
         (VNum (JS.parseInt (JS.get row "count"))))
    (List.map (group_row "source_type") groups) acc
  = acc ++ List.map group_prop groups.
Proof.
  revert acc. induction groups as [|g groups IH]; intros acc Hplain Hnd Hfresh.
  - cbn. rewrite List.app_nil_r. reflexivity.
  - inversion_clear Hplain as [|? ? Hg Hrest].
    inversion_clear Hnd as [|? ? Hnot Hnd'].
    cbn [List.map fold_left].
    assert (Estep :
      JS.set_prop acc (JS.ToString (JS.get (group_row "source_type" g) "source_type"))
        (VNum (JS.parseInt (JS.get (group_row "source_type" g) "count")))
      = acc ++ [group_prop g]).
    { unfold group_row. cbn [JS.get JS.get_prop].
      change (String.eqb "source_type" "source_type") with true.
      change (String.eqb "count" "source_type") with false.
      change (String.eqb "count" "count") with true. cbv iota.
      rewrite DecimalFacts.parseInt_count.
      destruct Hg as (s & Es & Hs). unfold JS.set_prop.
      rewrite Es. cbn [js_of_sql JS.ToString].
      destruct (String.eqb_spec s "__proto__") as [->|_]; [contradiction|].
      rewrite set_own_fresh.
      - unfold group_prop. rewrite Es. reflexivity.
      - specialize (Hfresh g (or_introl eq_refl)). unfold group_prop in Hfresh.
        rewrite Es in Hfresh. exact Hfresh. }
    rewrite Estep. rewrite IH; [|assumption|assumption|].
    + rewrite <- List.app_assoc. reflexivity.
    + intros g' Hin. rewrite List.map_app, List.in_app_iff. intros [H|H].
      * exact (Hfresh g' (or_intror Hin) H).
      * cbn in H. destruct H as [H|[]].
        apply Hnot. rewrite (group_prop_key_inj g g' Hg); [|
          exact (proj1 (List.Forall_forall _ _) Hrest g' Hin)|exact H].
        apply List.in_map. exact Hin.
Qed.

Lemma sum_group_props (groups : list (sqlval * nat)) :
  sum_values (List.map group_prop groups) = Z.of_nat (group_total groups).
Proof.
  induction groups as [|g groups IH]; cbn; [reflexivity|]. rewrite IH. lia.
Qed.

End StatsFacts.

Module StatsRun.
Import SQL.

Lemma run_count_query (t : table) (w : list cond) (ps : list jsval) :
  arity_ok (Query Count w None None None) ps = true ->
  forallb (cond_typed ps) w = true ->
  run t (Query Count w None None None) ps
  = Some [VObj [("count", count_text (length (List.filter (matches ps w) t)))]].
Proof. intros Ha Ht. unfold run. cbn [q_where]. rewrite Ha, Ht. reflexivity. Qed.

Lemma run_group_query (t : table) (c : string) (w : list cond) :
  arity_ok (Query (GroupCount c) w None None None) [] = true ->
  forallb (cond_typed []) w = true ->
  run t (Query (GroupCount c) w None None None) []
  = Some (List.map (group_row c)
            (group_count c (List.filter (matches [] w) t))).
Proof. intros Ha Ht. unfold run. cbn [q_where]. rewrite Ha, Ht. reflexivity. Qed.

Lemma run_avg_query (t : table) (c : string) (w : list cond) :
  arity_ok (Query (Avg c) w None None None) [] = true ->
  forallb (cond_typed []) w = true ->
  run t (Query (Avg c) w None None None) []
  = Some [VObj [("avg", avg_text (ints_of c (List.filter (matches [] w) t)))]].
Proof. intros Ha Ht. unfold run. cbn [q_where]. rewrite Ha, Ht. reflexivity. Qed.

Lemma run_latest_query (t : table) :
  exists rows,
    run t (Query (Cols ["created_date"]) [] (Some "created_date")
             (Some (Literal 1)) None) [] = Some rows.
Proof. eexists. unfold run. cbn [q_where negb andb forallb]. reflexivity. Qed.

(** What the store answers to the seven queries. *)
Lemma stats_rows (w : world) (t : table) :
  db w = Some t ->
  exists media processed pending avg latest,
    all_rows w stats_queries
    = Some [ [VObj [("count", count_text (length t))]];
             List.map (group_row "source_type")
               (group_count "source_type" t);
             media;
             [VObj [("count", processed)]];
             [VObj [("count", pending)]];
             [VObj [("avg", avg)]];
             latest ].
Proof.
  intros Hdb. destruct (run_latest_query t) as [latest Hlatest].
  unfold stats_queries, all_rows, query_rows. rewrite Hdb.
  rewrite !run_count_query, !run_group_query, run_avg_query, Hlatest by reflexivity.
  rewrite !StatsFacts.filter_all.
  do 5 eexists. reflexivity.
Qed.

End StatsRun.

(** The statistics, when every record has a source type that is a text other
    than [__proto__], on a miss of the cache: the total is the number of
    records, and it is the sum of the counts by source type. *)
Lemma stats_total_is_sum (w : world) (t : SQL.table) :
  db w = Some t ->
  Redis.get_fails (redis w) = false ->
  Redis.set_fails (redis w) = false ->
  Redis.lookup (now w) (redis w) stats_key = None ->
  (forall r, List.In r t -> plain_text (SQL.col r "source_type")) ->
  exists counts,
    JS.get (stats_body w) "total_content" = VNum (Int (Z.of_nat (length t))) /\
    JS.get (stats_body w) "content_by_source_type" = VObj counts /\
    sum_values counts = Z.of_nat (length t).
Proof.
  intros Hdb Hget Hset Hmiss Hplain.
  destruct (StatsRun.stats_rows w t Hdb)
    as (media & processed & pending & avg & latest & Hrows).
  exists (List.map group_prop (SQL.group_count "source_type" t)).
  assert (Hbody :
    JS.get (stats_body w) "total_content" = VNum (Int (Z.of_nat (length t))) /\
    JS.get (stats_body w) "content_by_source_type"
    = VObj (count_object "source_type"
              (List.map (group_row "source_type")
                 (SQL.group_count "source_type" t)))).
  { unfold stats_body, answer. unfold_handler.
    rewrite Hget, Hmiss. change (JS.truthy VNull) with false. cbv beta iota.
    rewrite Hrows. cbn [nth item nullish JS.get JS.get_prop]. cbv beta iota.
    rewrite Hset. cbn [fst snd body JS.get JS.get_prop].
    change (String.eqb "count" "count") with true.
    change (String.eqb "total_content" "total_content") with true.
    change (String.eqb "content_by_source_type" "total_content") with false.
    change (String.eqb "content_by_source_type" "content_by_source_type") with true.
    cbv iota. rewrite DecimalFacts.parseInt_count. split; reflexivity. }
  destruct Hbody as [Htotal Hcounts].
  split; [exact Htotal|]. split.
  - rewrite Hcounts. unfold count_object.
    rewrite (StatsFacts.count_object_groups _ []).
    + reflexivity.
    + apply List.Forall_forall. intros g Hg.
      destruct (StatsFacts.group_count_keys "source_type" t (fst g)) as (r & Hr & E).
      { apply List.in_map. exact Hg. }
      rewrite <- E. apply Hplain. exact Hr.
    + apply StatsFacts.group_count_NoDup.
    + intros g _ [].
  - rewrite StatsFacts.sum_group_props, StatsFacts.group_count_total. reflexivity.
Qed.

(** ** Instances *)

Lemma list_pagination_witness :
  exists (content : list jsval) (pages : Z) (body : jsval) (w' : world)
         (tr : list event),
    get_content Sample.page2 Sample.up = (Done (Response 200 body), w', tr) /\
    JS.get body "content" = VArr content /\
    Z.of_nat (length content) <= 2 /\
    JS.get (JS.get body "pagination") "pages" = VNum (Int pages) /\
    pages = 2.
Proof.
  destruct (list_pagination Sample.up Sample.records Sample.page2 2 2
              eq_refl eq_refl eq_refl eq_refl eq_refl
              (Zle_bool_imp_le 1 2 eq_refl) eq_refl
              (Zle_bool_imp_le 1 2 eq_refl)
              (conj eq_refl eq_refl) (conj eq_refl eq_refl)
              (conj eq_refl eq_refl) (conj eq_refl eq_refl))
    as (content & pages & body & w' & Hrun & Hc & _ & Hlen & _ & Hp & Hdef & _).
  exists content, pages, body, w'. eexists.
  split; [exact Hrun|]. split; [exact Hc|]. split; [exact Hlen|].
  split; [exact Hp|]. rewrite Hdef. reflexivity.
Defined.

(** * Further properties *)

(** ** Answers and errors *)

(** As [split_outside], for goals that mention the world after the run:
    only what the world before the run decides is split on. *)
Ltac split_before :=
  repeat first
    [ progress cbv beta iota zeta
    | progress change (JS.truthy VNull) with false
    | progress cbn [negb]
    | match goal with
      | |- context [Redis.get_fails (redis ?w)] =>
          is_var w; destruct (Redis.get_fails (redis w)) eqn:?
      | |- context [Redis.lookup (now ?w) (redis ?w) ?k] =>
          is_var w; destruct (Redis.lookup (now w) (redis w) k) eqn:?
      | |- context [JS.truthy ?v] => destruct (JS.truthy v) eqn:?
      | |- context [match JSON.parse ?s with _ => _ end] =>
          destruct (JSON.parse s) eqn:?
      | |- context [match query_rows ?w ?q ?ps with _ => _ end] =>
          destruct (query_rows w q ps) eqn:?
      | |- context [match all_rows ?w ?qs with _ => _ end] =>
          destruct (all_rows w qs) eqn:?
      | |- context [if nullish ?v then _ else _] => destruct (nullish v) eqn:?
      | |- context [if (?a =? ?b)%nat then _ else _] => destruct (a =? b)%nat eqn:?
      | |- context [Redis.set_fails (redis ?w)] =>
          is_var w; destruct (Redis.set_fails (redis w)) eqn:?
      end ].

(** Every handler ends with an answer, whatever the cache and the store do:
    nothing thrown inside a handler leaves it, and the answer is a 200 or one
    of four fixed bodies, the 500 always the same text. *)
Theorem handlers_always_answer (req : request) (w : world) :
  answers_properly (get_content req w) /\
  answers_properly (get_content_by_id req w) /\
  answers_properly (get_search req w) /\
  answers_properly (get_stats req w) /\
  answers_properly (get_recent req w) /\
  answers_properly (get_by_author req w).
Proof.
  unfold answers_properly.
  repeat split; unfold_handler; split_outside; cbn [answer fst];
    eexists; (split; [reflexivity|]); cbn [status]; auto 10.
Qed.

(** No handler changes the store, the time or the failure modes of the
    cache; a cached operation changes the cache under its own key only, and
    only when it answers 200; the recent and by-author operations change
    nothing at all. *)
Theorem only_success_is_cached (req : request) (w : world) :
  caches_only_success (list_key req) w (get_content req w) /\
  caches_only_success (id_key (request_id req)) w (get_content_by_id req w) /\
  caches_only_success (request_search_key req) w (get_search req w) /\
  caches_only_success stats_key w (get_stats req w) /\
  after (get_recent req w) = w /\
  after (get_by_author req w) = w.
Proof.
  unfold caches_only_success, same_but_key, request_id, request_search_key.
  repeat apply conj; unfold_handler; split_before;
    cbn [after answer fst snd db now clock redis Redis.setEx Redis.entries
         Redis.get_fails Redis.set_fails status];
    intros; try reflexivity; try congruence;
    try (rewrite lookup_insert_ne by congruence; reflexivity);
    try match goal with
      | H : Done _ = Done ?r, Hs : status ?r <> 200 |- _ =>
          injection H as <-; cbn [status] in Hs; contradiction
      end.
Qed.

(** When the store cannot be reached and the cache has nothing to give, every
    handler answers 500 and leaves the cache alone.  The list operation stops
    at its count query; the statistics have sent their seven queries. *)
Theorem store_failure_is_500 (req : request) (w : world) :
  db w = None ->
  (Redis.get_fails (redis w) = false ->
   Redis.lookup (now w) (redis w) (list_key req) = None ->
   exists q ps,
     get_content req w = (failed, w, [CacheGet (list_key req); StoreQuery q ps]) /\
     SQL.q_target q = SQL.Count) /\
  (Redis.get_fails (redis w) = false ->
   Redis.lookup (now w) (redis w) (id_key (request_id req)) = None ->
   get_content_by_id req w
   = (failed, w, [CacheGet (id_key (request_id req));
                  StoreQuery id_query [VStr (request_id req)]])) /\
  (Redis.get_fails (redis w) = false ->
   JS.truthy (assoc (req_query req) "q") = true ->
   Redis.lookup (now w) (redis w) (request_search_key req) = None ->
   exists ps,
     get_search req w
     = (failed, w, [CacheGet (request_search_key req);
                    StoreQuery (search_query (assoc (req_query req) "type")) ps])) /\
  (Redis.get_fails (redis w) = false ->
   Redis.lookup (now w) (redis w) stats_key = None ->
   get_stats req w
   = (failed, w,
      CacheGet stats_key
      :: List.map (fun qp => StoreQuery (fst qp) (snd qp)) stats_queries)) /\
  (exists ps,
     get_recent req w
     = (failed, w, [StoreQuery (recent_query (assoc (req_query req) "type")) ps])) /\
  (JS.truthy (assoc (req_query req) "author") = true ->
   get_by_author req w
   = (failed, w,
      [StoreQuery author_query [substring_pattern (assoc (req_query req) "author")]])).
Proof.
  intros Hdb.
  assert (Hq : forall q ps, query_rows w q ps = None)
    by (intros; unfold query_rows; rewrite Hdb; reflexivity).
  assert (Hall : all_rows w stats_queries = None)
    by (unfold stats_queries; cbn [all_rows]; rewrite Hq; reflexivity).
  unfold failed, request_id, request_search_key.
  repeat apply conj.
  - intros Hget Hmiss. do 2 eexists. unfold_handler.
    rewrite Hget, Hmiss. change (JS.truthy VNull) with false. cbv beta iota.
    rewrite Hq. split; reflexivity.
  - intros Hget Hmiss. unfold_handler.
    rewrite Hget, Hmiss. change (JS.truthy VNull) with false. cbv beta iota.
    rewrite Hq. reflexivity.
  - intros Hget Htq Hmiss. eexists. unfold_handler.
    rewrite Htq. cbn [negb]. cbv beta iota.
    rewrite Hget, Hmiss. change (JS.truthy VNull) with false. cbv beta iota.
    rewrite Hq. reflexivity.
  - intros Hget Hmiss. unfold_handler.
    rewrite Hget, Hmiss. change (JS.truthy VNull) with false. cbv beta iota.
    rewrite Hall. reflexivity.
  - eexists. unfold_handler. rewrite Hq. reflexivity.
  - intros Hta. unfold_handler. rewrite Hta. cbn [negb]. cbv beta iota.
    rewrite Hq. reflexivity.
Qed.

Lemma store_failure_is_500_witness :
  get_stats (Request [] []) Scenario.store_down
  = (failed, Scenario.store_down,
     CacheGet stats_key
     :: List.map (fun qp => StoreQuery (fst qp) (snd qp)) stats_queries) /\
  get_by_author (Request [("author", "jan")] []) Scenario.store_down
  = (failed, Scenario.store_down,
     [StoreQuery author_query [substring_pattern (VStr "jan")]]).
Proof.
  pose proof (store_failure_is_500 (Request [] []) Scenario.store_down eq_refl)
    as (_ & _ & _ & Hstats & _ & _).
  pose proof (store_failure_is_500 (Request [("author", "jan")] [])
                Scenario.store_down eq_refl)
    as (_ & _ & _ & _ & _ & Hauthor).
  split; [exact (Hstats eq_refl eq_refl)|exact (Hauthor eq_refl)].
Defined.

(** ** The life of a cache entry *)

Module TtlFacts.

(** What was stored is found until its time is up, and not after. *)
Lemma lookup_setEx (now later ttl : Z) (k v : string) (c : Redis.state) :
  Redis.lookup later (Redis.setEx now k ttl v c) k
  = if later <? now + ttl then Some v else None.
Proof.
  unfold Redis.lookup, Redis.setEx. cbn [Redis.entries].
  rewrite lookup_insert_eq. reflexivity.
Qed.

Ltac invert_run :=
  unfold_handler; split_before;
  cbn [existsb is_store_event orb app List.map];
  intros Hrun Hstore; try discriminate Hstore; try discriminate Hrun;
  injection Hrun as <- <- <-; try discriminate Hstore;
  repeat split; try reflexivity; try assumption; try congruence.

Lemma content_stored (req : request) (w w' : world) (b : jsval) (tr : list event) :
  get_content req w = (Done (Response 200 b), w', tr) ->
  existsb is_store_event tr = true ->
  stored (list_key req) 300 b w w'.
Proof. unfold stored. invert_run. Qed.

Lemma by_id_stored (req : request) (w w' : world) (b : jsval) (tr : list event) :
  get_content_by_id req w = (Done (Response 200 b), w', tr) ->
  existsb is_store_event tr = true ->
  stored (id_key (request_id req)) 600 b w w'.
Proof. unfold stored, request_id. invert_run. Qed.

Lemma search_stored (req : request) (w w' : world) (b : jsval) (tr : list event) :
  get_search req w = (Done (Response 200 b), w', tr) ->
  existsb is_store_event tr = true ->
  stored (request_search_key req) 300 b w w' /\
  JS.truthy (assoc (req_query req) "q") = true.
Proof. unfold stored, request_search_key. invert_run. Qed.

Lemma stats_stored (req : request) (w w' : world) (b : jsval) (tr : list event) :
  get_stats req w = (Done (Response 200 b), w', tr) ->
  existsb is_store_event tr = true ->
  stored stats_key 120 b w w'.
Proof. unfold stored. unfold stats_queries. invert_run. Qed.

(** A hit. *)
Ltac hit_run Hget Hhit v :=
  let Ht := fresh "Ht" in
  assert (Ht : JS.truthy (VStr v) = true)
    by (cbn; destruct (String.eqb_spec v ""); [contradiction|reflexivity]);
  unfold served_from_cache, failed; unfold_handler;
  rewrite ?Hget, ?Hhit, ?Ht; cbn [negb]; cbv beta iota;
  rewrite ?Hget, ?Hhit, ?Ht; cbn [JS.ToString];
  destruct (JSON.parse v); reflexivity.

Lemma content_hit (req : request) (w : world) (v : string) :
  Redis.get_fails (redis w) = false -> v <> "" ->
  Redis.lookup (now w) (redis w) (list_key req) = Some v ->
  served_from_cache (list_key req) v w (get_content req w).
Proof. intros Hget Hv Hhit. hit_run Hget Hhit v. Qed.

Lemma by_id_hit (req : request) (w : world) (v : string) :
  Redis.get_fails (redis w) = false -> v <> "" ->
  Redis.lookup (now w) (redis w) (id_key (request_id req)) = Some v ->
  served_from_cache (id_key (request_id req)) v w (get_content_by_id req w).
Proof. unfold request_id. intros Hget Hv Hhit. hit_run Hget Hhit v. Qed.

Lemma search_hit (req : request) (w : world) (v : string) :
  Redis.get_fails (redis w) = false -> v <> "" ->
  JS.truthy (assoc (req_query req) "q") = true ->
  Redis.lookup (now w) (redis w) (request_search_key req) = Some v ->
  served_from_cache (request_search_key req) v w (get_search req w).
Proof.
  unfold request_search_key. intros Hget Hv Hq Hhit.
  assert (Ht : JS.truthy (VStr v) = true)
    by (cbn; destruct (String.eqb_spec v ""); [contradiction|reflexivity]).
  unfold served_from_cache, failed. unfold_handler.
  rewrite Hq. cbn [negb]. cbv beta iota.
  rewrite Hget, Hhit, Ht. cbn [JS.ToString].
  destruct (JSON.parse v); reflexivity.
Qed.

Lemma stats_hit (req : request) (w : world) (v : string) :
  Redis.get_fails (redis w) = false -> v <> "" ->
  Redis.lookup (now w) (redis w) stats_key = Some v ->
  served_from_cache stats_key v w (get_stats req w).
Proof. intros Hget Hv Hhit. hit_run Hget Hhit v. Qed.

(** A miss goes to the store. *)
Ltac miss_run Hget Hmiss :=
  unfold_handler; rewrite ?Hget, ?Hmiss; cbn [negb]; cbv beta iota;
  rewrite ?Hget, ?Hmiss; change (JS.truthy VNull) with false; cbv beta iota;
  unfold stats_queries; split_before; reflexivity.

Lemma content_miss (req : request) (w : world) :
  Redis.get_fails (redis w) = false ->
  Redis.lookup (now w) (redis w) (list_key req) = None ->
  existsb is_store_event (trace (get_content req w)) = true.
Proof. intros Hget Hmiss. miss_run Hget Hmiss. Qed.

Lemma by_id_miss (req : request) (w : world) :
  Redis.get_fails (redis w) = false ->
  Redis.lookup (now w) (redis w) (id_key (request_id req)) = None ->
  existsb is_store_event (trace (get_content_by_id req w)) = true.
Proof. unfold request_id. intros Hget Hmiss. miss_run Hget Hmiss. Qed.

Lemma search_miss (req : request) (w : world) :
  Redis.get_fails (redis w) = false ->
  JS.truthy (assoc (req_query req) "q") = true ->
  Redis.lookup (now w) (redis w) (request_search_key req) = None ->
  existsb is_store_event (trace (get_search req w)) = true.
Proof.
  unfold request_search_key. intros Hget Hq Hmiss.
  unfold_handler. rewrite Hq. cbn [negb]. cbv beta iota.
  rewrite Hget, Hmiss. change (JS.truthy VNull) with false. cbv beta iota.
  split_before; reflexivity.
Qed.

Lemma stats_miss (req : request) (w : world) :
  Redis.get_fails (redis w) = false ->
  Redis.lookup (now w) (redis w) stats_key = None ->
  existsb is_store_event (trace (get_stats req w)) = true.
Proof. intros Hget Hmiss. miss_run Hget Hmiss. Qed.

End TtlFacts.

(** The cache-aside round trip.  Once a cached operation has answered 200
    from the store, the same request is answered from the cache with the
    text then stored, and without a query, until its expiry (300 seconds for
    the list and the search, 600 for get-by-id, 120 for the statistics) has
    passed, whatever has become of the store; from the expiry on it goes to
    the store again. *)
Theorem cached_until_expiry (req : request) (w : world) :
  cached_for 300 (list_key req) (get_content req) w /\
  cached_for 600 (id_key (request_id req)) (get_content_by_id req) w /\
  cached_for 300 (request_search_key req) (get_search req) w /\
  cached_for 120 stats_key (get_stats req) w.
Proof.
  unfold cached_for, later_world.
  split; [|split; [|split]]; intros b w' tr Hrun Hstore t later clock'.
  - destruct (TtlFacts.content_stored _ _ _ _ _ Hrun Hstore) as [Hget ->].
    split; intros Hlate.
    + apply TtlFacts.content_hit; cbn [redis now Redis.setEx Redis.get_fails];
        [exact Hget|apply HitFacts.stringify_nonempty|].
      fold (Redis.setEx (now w) (list_key req) 300 (JSON.stringify' b) (redis w)).
      rewrite TtlFacts.lookup_setEx. replace (later <? now w + 300) with true by lia.
      reflexivity.
    + apply TtlFacts.content_miss; cbn [redis now Redis.setEx Redis.get_fails];
        [exact Hget|].
      fold (Redis.setEx (now w) (list_key req) 300 (JSON.stringify' b) (redis w)).
      rewrite TtlFacts.lookup_setEx. replace (later <? now w + 300) with false by lia.
      reflexivity.
  - destruct (TtlFacts.by_id_stored _ _ _ _ _ Hrun Hstore) as [Hget ->].
    split; intros Hlate.
    + apply TtlFacts.by_id_hit; cbn [redis now Redis.setEx Redis.get_fails];
        [exact Hget|apply HitFacts.stringify_nonempty|].
      fold (Redis.setEx (now w) (id_key (request_id req)) 600
              (JSON.stringify' b) (redis w)).
      rewrite TtlFacts.lookup_setEx. replace (later <? now w + 600) with true by lia.
      reflexivity.
    + apply TtlFacts.by_id_miss; cbn [redis now Redis.setEx Redis.get_fails];
        [exact Hget|].
      fold (Redis.setEx (now w) (id_key (request_id req)) 600
              (JSON.stringify' b) (redis w)).
      rewrite TtlFacts.lookup_setEx. replace (later <? now w + 600) with false by lia.
      reflexivity.
  - destruct (TtlFacts.search_stored _ _ _ _ _ Hrun Hstore) as [[Hget ->] Hq].
    split; intros Hlate.
    + apply TtlFacts.search_hit; cbn [redis now Redis.setEx Redis.get_fails];
        [exact Hget|apply HitFacts.stringify_nonempty|exact Hq|].
      fold (Redis.setEx (now w) (request_search_key req) 300
              (JSON.stringify' b) (redis w)).
      rewrite TtlFacts.lookup_setEx. replace (later <? now w + 300) with true by lia.
      reflexivity.
    + apply TtlFacts.search_miss; cbn [redis now Redis.setEx Redis.get_fails];
        [exact Hget|exact Hq|].
      fold (Redis.setEx (now w) (request_search_key req) 300
              (JSON.stringify' b) (redis w)).
      rewrite TtlFacts.lookup_setEx. replace (later <? now w + 300) with false by lia.
      reflexivity.
  - destruct (TtlFacts.stats_stored _ _ _ _ _ Hrun Hstore) as [Hget ->].
    split; intros Hlate.
    + apply TtlFacts.stats_hit; cbn [redis now Redis.setEx Redis.get_fails];
        [exact Hget|apply HitFacts.stringify_nonempty|].
      fold (Redis.setEx (now w) stats_key 120 (JSON.stringify' b) (redis w)).
      rewrite TtlFacts.lookup_setEx. replace (later <? now w + 120) with true by lia.
      reflexivity.
    + apply TtlFacts.stats_miss; cbn [redis now Redis.setEx Redis.get_fails];
        [exact Hget|].
      fold (Redis.setEx (now w) stats_key 120 (JSON.stringify' b) (redis w)).
      rewrite TtlFacts.lookup_setEx. replace (later <? now w + 120) with false by lia.
      reflexivity.
Qed.

(** ** What the queries select *)

Module FilterFacts.
Import SQL.

Lemma list_matches (type format author : jsval) (r : row) :
  matches (queryParams (list_builder type format author))
    (whereConditions (list_builder type format author)) r
  = passes_filters type format author r.
Proof.
  unfold passes_filters, list_builder, push_if.
  destruct (JS.truthy type), (JS.truthy format), (JS.truthy author);
    cbn [matches forallb queryParams whereConditions paramCount app
         holds arg nth_error type_condition andb];
    rewrite ?andb_true_r, ?andb_assoc; reflexivity.
Qed.

Lemma filter_ext_bool {A} (f g : A -> bool) (l : list A) :
  (forall x, f x = g x) -> List.filter f l = List.filter g l.
Proof.
  intros H. induction l as [|x l IH]; cbn; [reflexivity|].
  rewrite H, IH. reflexivity.
Qed.

Lemma length_insert_desc (c : string) (r : row) (rs : list row) :
  length (insert_desc c r rs) = S (length rs).
Proof.
  induction rs as [|r' rs IH]; cbn; [reflexivity|].
  destruct (sql_geb _ _); cbn; [reflexivity|]. rewrite IH. reflexivity.
Qed.

(** Sorting loses and adds no row. *)
Lemma length_sort_desc (c : string) (rs : list row) :
  length (sort_desc c rs) = length rs.
Proof.
  induction rs as [|r rs IH]; cbn; [reflexivity|].
  rewrite length_insert_desc. f_equal. exact IH.
Qed.

End FilterFacts.

(** The filters of the list operation.  Whichever of [type], [format] and
    [author] a request carries, each clause of the WHERE is bound to its own
    argument: the records selected are those that pass every filter that is
    there; a filter that is absent or empty selects nothing out, so that a
    request without filters selects the whole table; and a record whose
    source type, or whose media type, is the [type] asked for passes the type
    filter. *)
Theorem list_filters_bound :
  (forall (type format author : jsval) (t : SQL.table),
      selected_rows type format author t
      = List.filter (passes_filters type format author) t) /\
  (forall (type format author : jsval) (t : SQL.table),
      JS.truthy type = false -> JS.truthy format = false ->
      JS.truthy author = false ->
      selected_rows type format author t = t) /\
  (forall (T : string) (format author : jsval) (r : SQL.row),
      T <> "" -> JS.truthy format = false -> JS.truthy author = false ->
      SQL.col r "source_type" = SQL.SText T \/ SQL.col r "media_type" = SQL.SText T ->
      passes_filters (VStr T) format author r = true).
Proof.
  split; [|split].
  - intros type format author t. unfold selected_rows.
    apply FilterFacts.filter_ext_bool. apply FilterFacts.list_matches.
  - intros type format author t Ht Hf Ha. unfold selected_rows.
    rewrite (FilterFacts.filter_ext_bool _ _ t
               (FilterFacts.list_matches type format author)).
    unfold passes_filters. rewrite Ht, Hf, Ha. cbn [andb].
    induction t as [|r t IH]; cbn; [reflexivity|]. f_equal. exact IH.
  - intros T format author r HT Hf Ha Hcol. unfold passes_filters.
    rewrite Hf, Ha, !andb_true_r.
    assert (Htruthy : JS.truthy (VStr T) = true).
    { cbn. destruct (String.eqb_spec T ""); [contradiction|reflexivity]. }
    rewrite Htruthy. cbn [type_condition SQL.holds SQL.arg nth_error SQL.pg_text
                          JS.ToString].
    destruct Hcol as [-> | ->]; rewrite String.eqb_refl;
      [reflexivity|apply orb_true_r].
Qed.

Lemma list_filters_bound_witness :
  selected_rows VUndef (VStr "") VUndef Sample.records = Sample.records /\
  passes_filters (VStr "audio") VUndef VUndef (nth 2 Sample.records []) = true.
Proof.
  destruct list_filters_bound as (_ & Hall & Htype).
  split.
  - exact (Hall VUndef (VStr "") VUndef Sample.records eq_refl eq_refl eq_refl).
  - refine (Htype "audio" VUndef VUndef (nth 2 Sample.records []) _
              eq_refl eq_refl (or_intror eq_refl)).
    discriminate.
Defined.

Module RunFacts.
Import SQL.

Lemma search_matches_eq (q type limit off : jsval) (r : row) :
  matches ([substring_pattern q; limit; off]
           ++ (if JS.truthy type then [type] else []))
    (q_where (search_query type)) r
  = search_matches q type r.
Proof.
  unfold search_matches, occurs, of_type, search_query, substring_pattern.
  cbn [q_where].
  destruct (JS.truthy type);
    cbn [matches forallb app holds arg nth_error text_condition type_condition
         andb];
    rewrite ?andb_true_r; reflexivity.
Qed.

(** The query of the search, accepted. *)
Lemma run_search (q type limit : jsval) (t : table) (tl : string) (l off : Z) :
  pg_text limit = Some tl -> int_arg 64 tl = Some l -> 0 <= l ->
  0 <= off < 2 ^ 63 ->
  run t (search_query type)
    ([substring_pattern q; limit; VNum (Int off)]
     ++ (if JS.truthy type then [type] else []))
  = Some (List.map (project search_columns)
            (take (Some l) (drop (Some off)
               (sort_desc "created_date"
                  (List.filter (search_matches q type) t))))).
Proof.
  intros Hl Hz Hl0 [Ho0 Ho63].
  rewrite <- (FilterFacts.filter_ext_bool _ _ t
                (search_matches_eq q type limit (VNum (Int off)))).
  assert (Hoff : int_arg 64 (string_of_Z off) = Some off)
    by (apply IntFacts.int_arg_of_Z, IntFacts.fits_64; lia).
  apply Z.leb_le in Hl0, Ho0.
  unfold search_query.
  destruct (JS.truthy type);
    unfold run; cbn -[int_arg string_of_Z List.filter sort_desc matches
                      List.map Z.leb text_condition];
    rewrite ?Hl; cbn -[int_arg string_of_Z List.filter sort_desc matches
                      List.map Z.leb text_condition];
    rewrite ?Hz, ?Hoff, ?Hl0, ?Ho0; reflexivity.
Qed.

Lemma recent_matches_eq (type limit : jsval) (r : row) :
  matches ([limit] ++ (if JS.truthy type then [type] else []))
    (q_where (recent_query type)) r
  = recent_matches type r.
Proof.
  unfold recent_matches, of_type, recent_query. cbn [q_where].
  destruct (JS.truthy type);
    cbn [matches forallb app holds arg nth_error type_condition andb];
    rewrite ?andb_true_r; reflexivity.
Qed.

(** The query of the recent records, accepted. *)
Lemma run_recent (type limit : jsval) (t : table) (tl : string) (l : Z) :
  pg_text limit = Some tl -> int_arg 64 tl = Some l -> 0 <= l ->
  run t (recent_query type) ([limit] ++ (if JS.truthy type then [type] else []))
  = Some (List.map (project recent_columns)
            (take (Some l)
               (sort_desc "created_date"
                  (List.filter (recent_matches type) t)))).
Proof.
  intros Hl Hz Hl0.
  rewrite <- (FilterFacts.filter_ext_bool _ _ t (recent_matches_eq type limit)).
  apply Z.leb_le in Hl0.
  unfold recent_query.
  destruct (JS.truthy type);
    unfold run; cbn -[int_arg string_of_Z List.filter sort_desc matches
                      List.map Z.leb];
    rewrite ?Hl; cbn -[int_arg string_of_Z List.filter sort_desc matches
                      List.map Z.leb];
    rewrite ?Hz, ?Hl0; reflexivity.
Qed.

(** The query of by-author is always accepted. *)
Lemma run_author (author : jsval) (t : table) :
  run t author_query [substring_pattern author]
  = Some (List.map (project author_columns)
            (sort_desc "created_date"
               (List.filter (author_matches author) t))).
Proof.
  rewrite (FilterFacts.filter_ext_bool (author_matches author)
             (matches [substring_pattern author] (q_where author_query)) t).
  - reflexivity.
  - intros r. unfold author_matches, author_query. cbn [q_where matches forallb].
    rewrite andb_true_r. reflexivity.
Qed.

End RunFacts.

(** ** Search, recent, by-author *)

(** The search, on a miss of the cache with the store up, for a page [p] of
    at least 1 and a limit [l] that is not negative, page, limit and offset
    being integers the doubles hold exactly: the query is sent with the
    pattern [%q%], the limit as received and the offset [(p - 1) * l]; the
    answer is a 200 whose [results] are the records in which [q] occurs (in
    the title, the content, the author's name or the topics) and that are of
    the type asked for, latest first, from the offset on, at most [l] of
    them, whose [count] is their number; it is cached for 300 seconds.  When
    no record matches, [results] is empty and [count] is 0. *)
Theorem search_page (w : world) (t : SQL.table) (req : request) (p l : Z) :
  db w = Some t ->
  Redis.get_fails (redis w) = false ->
  Redis.set_fails (redis w) = false ->
  Redis.lookup (now w) (redis w) (request_search_key req) = None ->
  JS.truthy (assoc (req_query req) "q") = true ->
  int_param (assoc (req_query req) "page") 1 = Some p -> 1 <= p ->
  int_param (assoc (req_query req) "limit") 20 = Some l -> 0 <= l ->
  safe p -> safe l -> safe ((p - 1) * l) ->
  let q := assoc (req_query req) "q" in
  let type := assoc (req_query req) "type" in
  let limit := or_default (assoc (req_query req) "limit") (VNum (Int 20)) in
  let results := search_results q type p l t in
  let body :=
    VObj [("query", q); ("type", JS.or type (VStr "all"));
          ("results", VArr results);
          ("count", VNum (Int (Z.of_nat (length results))))] in
  (exists w',
     get_search req w
     = (Done (Response 200 body), w',
        [CacheGet (request_search_key req);
         StoreQuery (search_query type)
           ([VStr ("%" +:+ JS.ToString q +:+ "%"); limit;
             VNum (Int ((p - 1) * l))]
            ++ (if JS.truthy type then [type] else []));
         CacheSetEx (request_search_key req) 300 (JSON.stringify' body)])) /\
  Z.of_nat (length results) <= l /\
  ((forall r, List.In r t -> search_matches q type r = false) ->
   results = [] /\ JS.get body "count" = VNum (Int 0)).
Proof.
  intros Hdb Hget Hset Hmiss Hq Hp Hp1 Hl Hl0 Hsp Hsl Hso q type limit results body.
  unfold safe in Hsp, Hsl, Hso.
  destruct (SQLFacts.pg_text_int_param _ _ _ Hl) as (tl & Htl & Hztl).
  assert (Hoff : 0 <= (p - 1) * l < 2 ^ 63) by nia.
  apply (IntFacts.int_arg_literal 64) in Hztl;
    [|apply IntFacts.fits_64; lia].
  pose proof (RunFacts.run_search q type _ t tl l ((p - 1) * l) Htl Hztl Hl0 Hoff)
    as Hrun.
  pose proof (SQLFacts.ToNumber_int_param _ _ _ Hp) as Hpn.
  pose proof (SQLFacts.ToNumber_int_param _ _ _ Hl) as Hln.
  split; [|split].
  - subst body results limit type q.
    unfold search_results, request_search_key in *.
    unfold_handler. rewrite Hq. cbn [negb]. cbv beta iota.
    rewrite Hget, Hmiss. change (JS.truthy VNull) with false. cbv beta iota.
    unfold query_rows. rewrite Hdb, Hpn, Hln. cbn [JS.sub JS.mul].
    rewrite Hrun. cbv beta iota zeta. rewrite Hset.
    eexists. reflexivity.
  - subst results. unfold search_results. rewrite length_map.
    apply SQLFacts.length_take_le. exact Hl0.
  - intros Hnone.
    assert (E : List.filter (search_matches q type) t = []).
    { clear -Hnone. induction t as [|r t IH]; [reflexivity|]. cbn.
      rewrite (Hnone r (or_introl eq_refl)). apply IH.
      intros r' Hr'. apply Hnone. right. exact Hr'. }
    assert (Er : results = []).
    { subst results. unfold search_results. rewrite E. cbn.
      rewrite skipn_nil, firstn_nil. reflexivity. }
    split; [exact Er|]. subst body. rewrite Er. reflexivity.
Qed.

Lemma search_page_witness :
  Z.of_nat (length (search_results (VStr "o") VUndef 1 20 Sample.records)) <= 20 /\
  exists w' tr,
    get_search (Request [("q", "o")] []) Sample.up
    = (Done (Response 200
         (VObj [("query", VStr "o"); ("type", VStr "all");
                ("results", VArr (search_results (VStr "o") VUndef 1 20 Sample.records));
                ("count",
                 VNum (Int (Z.of_nat
                   (length (search_results (VStr "o") VUndef 1 20 Sample.records)))))])),
       w', tr).
Proof.
  destruct (search_page Sample.up Sample.records (Request [("q", "o")] []) 1 20
              eq_refl eq_refl eq_refl eq_refl eq_refl eq_refl
              (Zle_bool_imp_le 1 1 eq_refl) eq_refl (Zle_bool_imp_le 0 20 eq_refl)
              (conj eq_refl eq_refl) (conj eq_refl eq_refl)
              (conj eq_refl eq_refl))
    as ((w' & Hrun) & Hlen & _).
  split; [exact Hlen|]. exists w'. eexists. exact Hrun.
Defined.

(** The recent handler (which no request reaches, the route of get-by-id
    coming first), with the store up, for a limit [l] (10 when the request
    has none) that is not negative and that the doubles hold exactly: the
    query is sent with the limit as received, the answer is a 200 with the
    records of the type asked for, latest first, at most [l] of them, and
    their number; a limit of zero gives the empty list.  The cache is not
    involved. *)
Theorem recent_limit (w : world) (t : SQL.table) (req : request) (l : Z) :
  db w = Some t ->
  int_param (assoc (req_query req) "limit") 10 = Some l ->
  0 <= l -> safe l ->
  let type := assoc (req_query req) "type" in
  let limit := or_default (assoc (req_query req) "limit") (VNum (Int 10)) in
  let rows := recent_rows type l t in
  get_recent req w
  = (Done (Response 200
       (VObj [("recent_content", VArr rows);
              ("count", VNum (Int (Z.of_nat (length rows))));
              ("type", JS.or type (VStr "all"))])),
     w, [StoreQuery (recent_query type)
           ([limit] ++ (if JS.truthy type then [type] else []))]) /\
  Z.of_nat (length rows) <= l /\
  (l = 0 -> rows = []).
Proof.
  intros Hdb Hl Hl0 Hsl type limit rows. unfold safe in Hsl.
  destruct (SQLFacts.pg_text_int_param _ _ _ Hl) as (tl & Htl & Hztl).
  apply (IntFacts.int_arg_literal 64) in Hztl;
    [|apply IntFacts.fits_64; lia].
  pose proof (RunFacts.run_recent type _ t tl l Htl Hztl Hl0) as Hrun.
  split; [|split].
  - subst rows limit type. unfold recent_rows. unfold_handler.
    unfold query_rows. rewrite Hdb, Hrun. reflexivity.
  - subst rows. unfold recent_rows. rewrite length_map.
    apply SQLFacts.length_take_le. exact Hl0.
  - intros ->. subst rows. unfold recent_rows. reflexivity.
Qed.

Lemma recent_limit_witness :
  get_recent (Request [("limit", "0")] []) Sample.up
  = (Done (Response 200
       (VObj [("recent_content", VArr []);
              ("count", VNum (Int 0)); ("type", VStr "all")])),
     Sample.up, [StoreQuery (recent_query VUndef) [VStr "0"]]).
Proof.
  exact (proj1 (recent_limit Sample.up Sample.records
                  (Request [("limit", "0")] []) 0 eq_refl eq_refl
                  (Zle_bool_imp_le 0 0 eq_refl) (conj eq_refl eq_refl))).
Defined.

(** By-author, with the store up and an [author] given: the answer is a 200
    with every record whose author matches, latest first, none left out, and
    their number.  The cache is not involved. *)
Theorem by_author_all (w : world) (t : SQL.table) (req : request) :
  db w = Some t ->
  JS.truthy (assoc (req_query req) "author") = true ->
  let author := assoc (req_query req) "author" in
  let rows := author_rows author t in
  get_by_author req w
  = (Done (Response 200
       (VObj [("author", author); ("content", VArr rows);
              ("count", VNum (Int (Z.of_nat (length rows))))])),
     w, [StoreQuery author_query [substring_pattern author]]) /\
  length rows = length (List.filter (author_matches author) t).
Proof.
  intros Hdb Ha author rows. subst rows author. unfold author_rows. split.
  - unfold_handler. rewrite Ha. cbn [negb]. cbv beta iota.
    unfold query_rows. rewrite Hdb, RunFacts.run_author. reflexivity.
  - rewrite length_map. apply FilterFacts.length_sort_desc.
Qed.

Lemma by_author_all_witness :
  length (author_rows (VStr "jan") Sample.records) = 2%nat.
Proof.
  exact (eq_trans
           (proj2 (by_author_all Sample.up Sample.records
                     (Request [("author", "jan")] []) eq_refl eq_refl))
           eq_refl).
Defined.

(** ** The fields of the statistics *)

Module StatsFields.
Import SQL.

Lemma status_matches (s : string) (r : row) :
  matches [VStr s] [Eq "ai_processing_status" 1] r = status_is s r.
Proof. unfold status_is. cbn [matches forallb]. apply andb_true_r. Qed.

(** The seven answers of the store, spelled out where the handler reads
    them. *)
Lemma stats_answers (w : world) (t : table) :
  db w = Some t ->
  exists avg,
    all_rows w stats_queries
    = Some [ [VObj [("count", count_text (length t))]];
             List.map (group_row "source_type") (group_count "source_type" t);
             List.map (group_row "media_type")
               (group_count "media_type"
                  (List.filter (matches [] [NotNull "media_type"]) t));
             [VObj [("count",
                     count_text (length (List.filter (status_is "completed") t)))]];
             [VObj [("count",
                     count_text (length (List.filter (status_is "pending") t)))]];
             [VObj [("avg", avg)]];
             List.map (project ["created_date"])
               (take (Some 1) (sort_desc "created_date" t)) ].
Proof.
  intros Hdb.
  assert (Hlatest :
    run t (Query (Cols ["created_date"]) [] (Some "created_date")
             (Some (Literal 1)) None) []
    = Some (List.map (project ["created_date"])
              (take (Some 1)
                 (sort_desc "created_date" (List.filter (matches [] []) t)))))
    by reflexivity.
  unfold stats_queries, all_rows, query_rows. rewrite Hdb.
  rewrite !StatsRun.run_count_query, !StatsRun.run_group_query,
    StatsRun.run_avg_query, Hlatest by reflexivity.
  rewrite !StatsFacts.filter_all.
  rewrite !(FilterFacts.filter_ext_bool _ _ t (status_matches _)).
  eexists. reflexivity.
Qed.

(** No record has two processing statuses. *)
Lemma statuses_disjoint (r : row) :
  status_is "completed" r && status_is "pending" r = false.
Proof.
  unfold status_is. cbn [holds arg nth_error pg_text JS.ToString].
  destruct (col r "ai_processing_status") as [|z|s|s]; try reflexivity;
    destruct (String.eqb_spec s "completed") as [->|_]; reflexivity.
Qed.

Lemma disjoint_filters {A} (f g : A -> bool) (l : list A) :
  (forall x, f x && g x = false) ->
  (length (List.filter f l) + length (List.filter g l) <= length l)%nat.
Proof.
  intros H. induction l as [|x l IH]; cbn; [lia|].
  specialize (H x). destruct (f x), (g x); cbn in *; try discriminate; lia.
Qed.

End StatsFields.

(** The statistics, on a miss of the cache with the store up: the answer is
    a 200 whose total is the number of records, whose processed and pending
    counts are the numbers of records with the status [completed] and with
    the status [pending] (hence together at most the total), whose latest
    content is the creation date of the latest record, and whose time stamp
    is the clock; it is cached for 120 seconds.  On an empty table the counts
    are zero, the two objects empty, the average zero and the latest content
    [null]. *)
Theorem stats_fields (w : world) (t : SQL.table) :
  db w = Some t ->
  Redis.get_fails (redis w) = false ->
  Redis.set_fails (redis w) = false ->
  Redis.lookup (now w) (redis w) stats_key = None ->
  exists by_source by_media avg w' queries,
    get_stats (Request [] []) w
    = (Done (Response 200 (stats_object w t by_source by_media avg)), w',
       CacheGet stats_key :: queries
       ++ [CacheSetEx stats_key 120
             (JSON.stringify' (stats_object w t by_source by_media avg))]) /\
    length queries = 7%nat /\
    count_status "completed" t + count_status "pending" t
      <= Z.of_nat (length t) /\
    (t = [] -> by_source = [] /\ by_media = [] /\ avg = Int 0 /\
               latest_date t = VNull /\ count_status "completed" t = 0).
Proof.
  intros Hdb Hget Hset Hmiss.
  destruct (StatsFields.stats_answers w t Hdb) as (avg & Hrows).
  set (by_source :=
         count_object "source_type"
           (List.map (group_row "source_type")
              (SQL.group_count "source_type" t))).
  set (by_media :=
         count_object "media_type"
           (List.map (group_row "media_type")
              (SQL.group_count "media_type"
                 (List.filter (SQL.matches [] [SQL.NotNull "media_type"]) t)))).
  exists by_source, by_media, (rounded_or_zero avg).
  exists (World (db w)
            (Redis.setEx (now w) stats_key 120
               (JSON.stringify'
                  (stats_object w t by_source by_media (rounded_or_zero avg)))
               (redis w))
            (now w) (clock w)).
  exists (List.map (fun qp => StoreQuery (fst qp) (snd qp)) stats_queries).
  subst by_source by_media.
  split; [|split; [reflexivity|split]].
  - unfold stats_object, count_status, latest_date. unfold_handler.
    rewrite Hget, Hmiss. change (JS.truthy VNull) with false. cbv beta iota.
    rewrite Hrows. cbn [nth item nullish JS.get JS.get_prop]. cbv beta iota.
    change (String.eqb "count" "count") with true.
    change (String.eqb "avg" "avg") with true. cbv beta iota.
    rewrite Hset. rewrite !DecimalFacts.parseInt_count.
    destruct (SQL.sort_desc "created_date" t) as [|r rest]; reflexivity.
  - unfold count_status.
    pose proof (StatsFields.disjoint_filters (status_is "completed")
                  (status_is "pending") t StatsFields.statuses_disjoint).
    lia.
  - intros ->. unfold stats_queries, all_rows, query_rows in Hrows.
    rewrite Hdb in Hrows. vm_compute in Hrows.
    assert (avg = VNull) as -> by congruence.
    repeat split; reflexivity.
Qed.

Lemma stats_fields_witness :
  exists by_source by_media avg w' queries,
    get_stats (Request [] []) Sample.up
    = (Done (Response 200
               (stats_object Sample.up Sample.records by_source by_media avg)),
       w',
       CacheGet stats_key :: queries
       ++ [CacheSetEx stats_key 120
             (JSON.stringify'
                (stats_object Sample.up Sample.records by_source by_media avg))]).
Proof.
  destruct (stats_fields Sample.up Sample.records eq_refl eq_refl eq_refl eq_refl)
    as (by_source & by_media & avg & w' & queries & Hrun & _).
  exists by_source, by_media, avg, w', queries. exact Hrun.
Defined.

(** ** The pages of the list *)

Module PageFacts.
Import SQL.

(** The rows of a page computed from the store. *)
Lemma content_rows (w : world) (t : table) (req : request) (p l : Z) :
  db w = Some t ->
  Redis.get_fails (redis w) = false ->
  Redis.set_fails (redis w) = false ->
  Redis.lookup (now w) (redis w) (list_key req) = None ->
  int_param (assoc (req_query req) "page") 1 = Some p -> 1 <= p ->
  int_param (assoc (req_query req) "limit") 50 = Some l -> 1 <= l ->
  safe p -> safe l -> safe ((p - 1) * l) ->
  list_content (get_content req w)
  = List.map (project list_columns)
      (take (Some l) (drop (Some ((p - 1) * l))
         (sort_desc "created_date"
            (selected_rows (assoc (req_query req) "type")
               (assoc (req_query req) "format")
               (assoc (req_query req) "author") t)))).
Proof.
  intros Hdb Hget Hset Hmiss Hp Hp1 Hl Hl1 Hsp Hsl Hso.
  unfold safe in Hsp, Hsl, Hso.
  destruct (SQLFacts.pg_text_int_param _ _ _ Hl) as (tl & Htl & Hztl).
  assert (Hoff : 0 <= (p - 1) * l < 2 ^ 63) by nia.
  apply (IntFacts.int_arg_literal 64) in Hztl;
    [|apply IntFacts.fits_64; lia].
  pose proof (ListFacts.run_data (assoc (req_query req) "type")
                (assoc (req_query req) "format")
                (assoc (req_query req) "author") t _ tl l ((p - 1) * l)
                Htl Hztl ltac:(lia) Hoff) as Hdata.
  pose proof (ListFacts.run_count (assoc (req_query req) "type")
                (assoc (req_query req) "format")
                (assoc (req_query req) "author") t) as Hcount.
  pose proof (SQLFacts.ToNumber_int_param _ _ _ Hp) as Hpn.
  pose proof (SQLFacts.ToNumber_int_param _ _ _ Hl) as Hln.
  unfold list_content, answer.
  unfold get_content, try_catch, bind, redis_get, pool_query, query_rows,
    redis_setEx, prop, ret.
  rewrite Hget, Hmiss. cbn [JS.truthy]. cbv beta iota zeta.
  rewrite Hdb, Hcount. cbn [item nth nullish JS.get JS.get_prop]. cbv beta iota zeta.
  change (String.eqb "count" "count") with true. cbv beta iota zeta.
  rewrite Hdb, Hpn, Hln. cbn [JS.sub JS.mul]. rewrite Hdata.
  cbv beta iota zeta. rewrite Hset. reflexivity.
Qed.

(** Cutting a list into [n] slices of [L] elements loses nothing when
    [n * L] reaches its length. *)
Lemma slices_concat {A} (L : nat) (n : nat) (xs : list A) :
  (length xs <= n * L)%nat ->
  concat (List.map (fun j => firstn L (skipn (j * L) xs)) (seq 0 n)) = xs.
Proof.
  revert xs. induction n as [|n IH]; intros xs Hlen.
  - destruct xs; [reflexivity|cbn in Hlen; lia].
  - cbn [seq List.map concat]. rewrite <- List.seq_shift, List.map_map.
    rewrite (List.map_ext _ (fun j => firstn L (skipn (j * L) (skipn L xs)))).
    + rewrite IH; [apply List.firstn_skipn|]. rewrite List.length_skipn. lia.
    + intros j. rewrite List.skipn_skipn.
      replace (S j * L)%nat with (j * L + L)%nat by lia. reflexivity.
Qed.

Lemma page_slice (i : nat) (l : Z) :
  1 <= l -> Z.to_nat ((Z.of_nat (S i) - 1) * l) = (i * Z.to_nat l)%nat.
Proof. intros Hl. rewrite Z2Nat.inj_mul by lia. f_equal. lia. Qed.

End PageFacts.

(** The pages of the list are a partition of the selection.  When every
    answer is computed from the store and no two of the selected records
    have the same creation date (the order by date is then the only one, on
    every query), the contents of pages 1 to [ceil (total / l)] of a list
    request, put end to end, are the records the filters select, each once,
    latest first; and every later page is empty.  The limit, the pages and
    the size of the table are integers the doubles hold exactly. *)
Theorem pages_cover_selection (w : world) (t : SQL.table)
    (filters : list (string * string)) (l : Z) :
  db w = Some t -> cold w -> 1 <= l ->
  safe l -> safe (Z.of_nat (length t)) ->
  assoc filters "page" = VUndef -> assoc filters "limit" = VUndef ->
  let selected :=
    selected_rows (assoc filters "type") (assoc filters "format")
      (assoc filters "author") t in
  let pages := - ((- Z.of_nat (length selected)) / l) in
  distinct_dates selected ->
  concat (List.map
            (fun i => list_content
                        (get_content (page_request filters l (Z.of_nat i)) w))
            (seq 1 (Z.to_nat pages)))
  = List.map (SQL.project list_columns) (SQL.sort_desc "created_date" selected)
  /\
  forall p, pages < p -> safe p -> safe ((p - 1) * l) ->
    list_content (get_content (page_request filters l p) w) = [].
Proof.
  intros Hdb (Hget & Hset & Hmiss) Hl Hsl Hst _ _ selected pages _.
  pose proof (ceil_div_spec (Z.of_nat (length selected)) l Hl) as Hpages.
  cbv zeta in Hpages. fold pages in Hpages.
  assert (Hsel : (length selected <= length t)%nat)
    by apply List.filter_length_le.
  assert (Hrows : forall p, 1 <= p -> safe p -> safe ((p - 1) * l) ->
    list_content (get_content (page_request filters l p) w)
    = List.map (SQL.project list_columns)
        (SQL.take (Some l) (SQL.drop (Some ((p - 1) * l))
           (SQL.sort_desc "created_date" selected)))).
  { intros p Hp Hsp Hso.
    apply (PageFacts.content_rows w t (page_request filters l p) p l);
      try assumption; try apply Hmiss;
      apply (DecimalFacts.Z_of_string_of_Z). }
  assert (Hlen : length (SQL.sort_desc "created_date" selected) = length selected)
    by apply FilterFacts.length_sort_desc.
  unfold safe in Hsl, Hst.
  split.
  - rewrite <- List.seq_shift, List.map_map.
    rewrite (List.map_ext_in _
               (fun j => List.map (SQL.project list_columns)
                           (firstn (Z.to_nat l)
                              (skipn (j * Z.to_nat l)
                                 (SQL.sort_desc "created_date" selected))))).
    + rewrite <- (List.map_map
                    (fun j => firstn (Z.to_nat l)
                                (skipn (j * Z.to_nat l)
                                   (SQL.sort_desc "created_date" selected)))
                    (List.map (SQL.project list_columns))).
      rewrite <- List.concat_map. f_equal.
      apply PageFacts.slices_concat. rewrite Hlen. nia.
    + intros j Hj. apply List.in_seq in Hj.
      assert (Hjp : Z.of_nat j < pages) by lia.
      assert (Hjl : Z.of_nat j * l < Z.of_nat (length selected)) by nia.
      assert (Hj1 : Z.of_nat j <= Z.of_nat j * l) by nia.
      rewrite Hrows; [|lia|unfold safe; lia|
                      unfold safe;
                      replace (Z.of_nat (S j) - 1) with (Z.of_nat j) by lia; lia].
      unfold SQL.take, SQL.drop. rewrite PageFacts.page_slice by exact Hl.
      reflexivity.
  - intros p Hp Hsp Hso.
    assert (Hpages0 : 0 <= pages) by nia.
    assert (Hpast : Z.of_nat (length selected) <= (p - 1) * l) by nia.
    rewrite Hrows by (assumption || lia).
    unfold SQL.take, SQL.drop. rewrite List.skipn_all2; [|rewrite Hlen; lia].
    rewrite List.firstn_nil. reflexivity.
Qed.

Lemma pages_cover_selection_witness :
  concat (List.map
            (fun i => list_content
                        (get_content (page_request [] 2 (Z.of_nat i)) Sample.up))
            (seq 1 2))
  = List.map (SQL.project list_columns)
      (SQL.sort_desc "created_date" Sample.records).
Proof.
  refine (proj1 (pages_cover_selection Sample.up Sample.records [] 2
                   eq_refl _ _ (conj eq_refl eq_refl) (conj eq_refl eq_refl)
                   eq_refl eq_refl _)).
  - repeat split.
  - lia.
  - unfold distinct_dates. repeat constructor; cbn; intuition discriminate.
Defined.

(** ** One key space for the list and for get-by-id *)

(** The list and get-by-id both write under [content:].  Once the list has
    answered a request from the store, a get-by-id whose id is the JSON text
    of the query object of that request is answered from the cache with the
    text the list stored, a list of records and its pagination, for the 300
    seconds of the list; the store, up or down, is not asked. *)
Theorem list_answer_served_by_id (req by_id : request) (w w' : world)
    (b : jsval) (tr : list event) (t : option SQL.table) (later : Z)
    (clock' : string) :
  get_content req w = (Done (Response 200 b), w', tr) ->
  existsb is_store_event tr = true ->
  request_id by_id = JSON.stringify' (query_object req) ->
  later < now w + 300 ->
  served_from_cache (list_key req) (JSON.stringify' b)
    (later_world w' t later clock')
    (get_content_by_id by_id (later_world w' t later clock')).
Proof.
  intros Hrun Hstore Hid Hlate.
  destruct (TtlFacts.content_stored _ _ _ _ _ Hrun Hstore) as [Hget ->].
  assert (Hkey : list_key req = id_key (request_id by_id))
    by (unfold list_key, id_key; rewrite Hid; reflexivity).
  rewrite Hkey. unfold later_world.
  apply TtlFacts.by_id_hit; cbn [redis now Redis.setEx Redis.get_fails];
    [exact Hget|apply HitFacts.stringify_nonempty|].
  fold (Redis.setEx (now w) (list_key req) 300 (JSON.stringify' b) (redis w)).
  rewrite <- Hkey, TtlFacts.lookup_setEx.
  replace (later <? now w + 300) with true by lia. reflexivity.
Qed.

Lemma list_answer_served_by_id_witness :
  served_from_cache (list_key (Request [] []))
    (JSON.stringify' (answer_body (get_content (Request [] []) Sample.up)))
    (later_world (after (get_content (Request [] []) Sample.up)) None 1200
       Sample.clock0)
    (get_content_by_id (Request [] [("id", "{}")])
       (later_world (after (get_content (Request [] []) Sample.up)) None 1200
          Sample.clock0)).
Proof.
  refine (list_answer_served_by_id (Request [] []) (Request [] [("id", "{}")])
            Sample.up (after (get_content (Request [] []) Sample.up))
            (answer_body (get_content (Request [] []) Sample.up))
            (trace (get_content (Request [] []) Sample.up)) None 1200
            Sample.clock0 _ _ _ _).
  - vm_compute. reflexivity.
  - vm_compute. reflexivity.
  - vm_compute. reflexivity.
  - vm_compute. reflexivity.
Defined.

(** ** The round trip of JSON *)

Module JsonFacts.

Lemma jsval_nested_ind (P : jsval -> Prop) :
  P VUndef -> P VNull -> (forall b, P (VBool b)) -> (forall n, P (VNum n)) ->
  (forall s, P (VStr s)) -> (forall s, P (VDate s)) ->
  (forall items, List.Forall P items -> P (VArr items)) ->
  (forall props, List.Forall (fun kv => P (snd kv)) props -> P (VObj props)) ->
  forall v, P v.
Proof.
  intros HU HN HB HNum HS HD HA HO. fix IH 1. intros [| |b|n|s|s|items|props].
  - exact HU.
  - exact HN.
  - apply HB.
  - apply HNum.
  - apply HS.
  - apply HD.
  - apply HA. induction items as [|x xs IHxs]; constructor; [apply IH|exact IHxs].
  - apply HO. induction props as [|[k x] ps IHps]; constructor;
      [apply IH|exact IHps].
Qed.

(** *** The equations of the parser *)

Lemma parse_null f rest :
  JSON.parse_value (S f) ("null" +:+ rest) = Some (VNull, rest).
Proof. reflexivity. Qed.

Lemma parse_true f rest :
  JSON.parse_value (S f) ("true" +:+ rest) = Some (VBool true, rest).
Proof. reflexivity. Qed.

Lemma parse_false f rest :
  JSON.parse_value (S f) ("false" +:+ rest) = Some (VBool false, rest).
Proof. reflexivity. Qed.

Lemma parse_quote f s rest :
  JSON.parse_value (S f) (JSON.quote s +:+ rest) = Some (VStr s, rest).
Proof.
  rewrite KeyFacts.quote_append.
  change (JSON.parse_value (S f)
            (String JSON.dquote (JSON.escape s +:+ String JSON.dquote rest)))
    with (match JSON.read_string (JSON.escape s +:+ String JSON.dquote rest) with
          | Some (t, r') => Some (VStr t, r')
          | None => None
          end).
  rewrite KeyFacts.read_escape. reflexivity.
Qed.

Lemma parse_empty_array f rest :
  JSON.parse_value (S f) (String "[" (String "]" rest)) = Some (VArr [], rest).
Proof. reflexivity. Qed.

Lemma parse_empty_object f rest :
  JSON.parse_value (S f) (String "{" (String "}" rest)) = Some (VObj [], rest).
Proof. reflexivity. Qed.

Lemma parse_object f r :
  JSON.parse_value (S f) (String "{" (String JSON.dquote r))
  = match JSON.parse_members f [] (String JSON.dquote r) with
    | Some (ps, r') => Some (VObj ps, r')
    | None => None
    end.
Proof. reflexivity. Qed.

Lemma parse_array f c r :
  value_start c = true ->
  JSON.parse_value (S f) (String "[" (String c r))
  = match JSON.parse_elements f (String c r) with
    | Some (vs, r') => Some (VArr vs, r')
    | None => None
    end.
Proof.
  destruct c as [[] [] [] [] [] [] [] []]; intros H; vm_compute in H;
    try discriminate H; reflexivity.
Qed.

Lemma parse_number f c r :
  Str.is_digit c || Ascii.eqb c "-" = true ->
  JSON.parse_value (S f) (String c r) = JSON.read_number (String c r).
Proof.
  destruct c as [[] [] [] [] [] [] [] []]; intros H; vm_compute in H;
    try discriminate H; reflexivity.
Qed.

Lemma parse_element f s :
  JSON.parse_elements (S f) s
  = match JSON.parse_value f s with
    | Some (v, r) =>
        match JSON.skip_ws r with
        | String "," r' =>
            match JSON.parse_elements f r' with
            | Some (vs, r2) => Some (v :: vs, r2)
            | None => None
            end
        | String "]" r' => Some ([v], r')
        | _ => None
        end
    | None => None
    end.
Proof. reflexivity. Qed.

Lemma parse_member f acc k v rest r2 :
  JSON.parse_value f r2 = Some (v, rest) ->
  JSON.parse_members (S f) acc
    (JSON.quote k +:+ String ":" r2)
  = match JSON.skip_ws rest with
    | String "," r4 => JSON.parse_members f (JS.set_own acc k v) r4
    | String "}" r4 => Some (JS.set_own acc k v, r4)
    | _ => None
    end.
Proof.
  intros Hv. rewrite KeyFacts.quote_append.
  change (JSON.parse_members (S f) acc
            (String JSON.dquote (JSON.escape k +:+ String JSON.dquote (String ":" r2))))
    with (match JSON.read_string
                  (JSON.escape k +:+ String JSON.dquote (String ":" r2)) with
          | Some (k, r1) =>
              match JSON.skip_ws r1 with
              | String ":" r2 =>
                  match JSON.parse_value f r2 with
                  | Some (v, r3) =>
                      match JSON.skip_ws r3 with
                      | String "," r4 => JSON.parse_members f (JS.set_own acc k v) r4
                      | String "}" r4 => Some (JS.set_own acc k v, r4)
                      | _ => None
                      end
                  | None => None
                  end
              | _ => None
              end
          | None => None
          end).
  rewrite KeyFacts.read_escape.
  change (JSON.skip_ws (String ":" r2)) with (String ":" r2). cbv iota.
  rewrite Hv. reflexivity.
Qed.

(** *** Numbers *)

Lemma delimited_cases (rest : string) :
  delimited rest = true ->
  rest = "" \/ exists r, rest = String "," r \/ rest = String "]" r \/
                        rest = String "}" r.
Proof.
  destruct rest as [|c r]; [auto|]. intros H. right. exists r.
  destruct c as [[] [] [] [] [] [] [] []]; vm_compute in H; try discriminate H;
    auto.
Qed.

Lemma span_digits_rest (d : Decimal.uint) (rest : string) :
  delimited rest = true ->
  Str.span_digits (NilEmpty.string_of_uint d +:+ rest)
  = (NilEmpty.string_of_uint d, rest).
Proof.
  intros Hrest. induction d; cbn [NilEmpty.string_of_uint];
    rewrite ?KeyFacts.append_cons, ?KeyFacts.append_nil;
    [destruct (delimited_cases rest Hrest) as [->|(r & [->|[->| ->]])];
       reflexivity|..];
    cbn [Str.span_digits];
    match goal with
    | |- context [Str.is_digit ?c] => change (Str.is_digit c) with true
    end; cbv iota; rewrite IHd; reflexivity.
Qed.

(** The decimal digits of a positive number do not begin with a zero. *)
Lemma to_uint_head (p : positive) (d : Decimal.uint) :
  Pos.to_uint p <> Decimal.D0 d.
Proof.
  intros E.
  pose proof (DecimalPos.Unsigned.to_of (Pos.to_uint p)) as H.
  rewrite DecimalPos.Unsigned.of_to in H. cbn [N.to_uint] in H.
  unfold Decimal.unorm in H.
  pose proof (Stdlib.Numbers.DecimalFacts.nzhead_nonzero (Pos.to_uint p)) as Hnz.
  destruct (Decimal.nzhead (Pos.to_uint p)) eqn:Hn;
    try (rewrite E in H; discriminate H).
  - exact (DecimalPos.Unsigned.to_uint_nonzero p H).
  - exact (Hnz _ eq_refl).
Qed.

(** The digits of a number, then a delimiter: the number is read, and the
    delimiter is left. *)
Lemma read_digits (neg : bool) (d : Decimal.uint) (rest : string) :
  d <> Decimal.Nil -> (forall d', d <> Decimal.D0 d') ->
  delimited rest = true ->
  JSON.read_number
    ((if neg then "-" else "") +:+ NilEmpty.string_of_uint d +:+ rest)
  = Some (VNum (Int (if neg then - Z.of_uint d else Z.of_uint d)), rest).
Proof.
  intros Hnil Hzero Hrest.
  assert (Hnum : JS.num_of_uint_string (NilEmpty.string_of_uint d)
                 = Int (Z.of_uint d))
    by (unfold JS.num_of_uint_string; rewrite NilEmpty.usu; reflexivity).
  pose proof (span_digits_rest d rest Hrest) as Hspan.
  unfold JSON.read_number.
  destruct neg; rewrite ?KeyFacts.append_cons, ?KeyFacts.append_nil.
  - rewrite Hspan.
    destruct d; try contradiction; try (exfalso; eapply Hzero; reflexivity);
      cbn [NilEmpty.string_of_uint] in *; cbv iota; rewrite Hnum;
      destruct (delimited_cases rest Hrest) as [->|(r & [->|[->| ->]])];
      reflexivity.
  - destruct d; try contradiction; try (exfalso; eapply Hzero; reflexivity);
      cbn [NilEmpty.string_of_uint] in *; rewrite KeyFacts.append_cons in *;
      cbv iota; rewrite Hspan; cbv iota; rewrite Hnum;
      destruct (delimited_cases rest Hrest) as [->|(r & [->|[->| ->]])];
      reflexivity.
Qed.

Lemma uint_value (p : positive) : Z.of_uint (Pos.to_uint p) = Z.pos p.
Proof. unfold Z.of_uint. rewrite DecimalPos.Unsigned.of_to. reflexivity. Qed.

Lemma read_number_text (z : Z) (rest : string) :
  delimited rest = true ->
  JSON.read_number (string_of_Z z +:+ rest) = Some (VNum (Int z), rest).
Proof.
  intros Hrest. unfold string_of_Z. destruct z as [|p|p].
  - destruct (delimited_cases rest Hrest) as [->|(r & [->|[->| ->]])];
      reflexivity.
  - pose proof (read_digits false (Pos.to_uint p) rest
                  (DecimalPos.Unsigned.to_uint_nonnil p) (to_uint_head p) Hrest)
      as H.
    rewrite KeyFacts.append_nil, (uint_value p) in H.
    cbn [Z.to_int NilZero.string_of_int NilZero.string_of_uint].
    unfold NilZero.string_of_uint.
    destruct (Pos.to_uint p) eqn:E;
      [exfalso; exact (DecimalPos.Unsigned.to_uint_nonnil p E)|..];
      exact H.
  - pose proof (read_digits true (Pos.to_uint p) rest
                  (DecimalPos.Unsigned.to_uint_nonnil p) (to_uint_head p) Hrest)
      as H.
    cbn [Z.to_int NilZero.string_of_int NilZero.string_of_uint].
    unfold NilZero.string_of_uint.
    cbv iota in H.
    rewrite KeyFacts.append_cons, KeyFacts.append_nil, (uint_value p) in H.
    rewrite KeyFacts.append_cons.
    destruct (Pos.to_uint p) eqn:E;
      [exfalso; exact (DecimalPos.Unsigned.to_uint_nonnil p E)|..];
      exact H.
Qed.

(** *** Texts *)

Lemma number_start (z : Z) :
  exists c s, string_of_Z z = String c s /\
              Str.is_digit c || Ascii.eqb c "-" = true.
Proof.
  unfold string_of_Z. destruct z as [|p|p]; cbn; eauto.
  unfold NilZero.string_of_uint.
  destruct (DecimalFacts.uint_head_not_sign (Pos.to_uint p)
              (DecimalPos.Unsigned.to_uint_nonnil p)) as (c & s & E & Hc).
  destruct (Pos.to_uint p) eqn:Ep;
    [exfalso; exact (DecimalPos.Unsigned.to_uint_nonnil p Ep)|..];
    exists c, s; rewrite E, Hc; auto.
Qed.

Lemma number_value_start (c : ascii) :
  Str.is_digit c || Ascii.eqb c "-" = true -> value_start c = true.
Proof.
  destruct c as [[] [] [] [] [] [] [] []]; intros H; vm_compute in H;
    try discriminate H; reflexivity.
Qed.

Lemma text_start (v : jsval) :
  exists c s, JSON.stringify' v = String c s /\ value_start c = true.
Proof.
  unfold JSON.stringify'.
  destruct v as [| |[]|[z|]|s|s|items|props]; cbn [JSON.stringify default];
    unfold JSON.quote; rewrite ?KeyFacts.append_cons; eauto.
  destruct (number_start z) as (c & s & -> & Hc).
  exists c, s. split; [reflexivity|]. apply number_value_start, Hc.
Qed.

Lemma stringify_defined (v : jsval) :
  defined v = true -> JSON.stringify v = Some (JSON.stringify' v).
Proof.
  unfold JSON.stringify'.
  destruct v as [| |[]|[z|]|s|s|items|props]; cbn; intros H;
    try discriminate H; reflexivity.
Qed.

Lemma texts_defined (props : list (string * jsval)) :
  List.flat_map
    (fun kv => match JSON.stringify (snd kv) with
               | Some t => [JSON.quote (fst kv) +:+ ":" +:+ t]
               | None => []
               end) props
  = List.map member_text (defined_props props).
Proof.
  unfold defined_props.
  induction props as [|[k v] props IH]; [reflexivity|].
  cbn [List.flat_map List.filter snd fst]. rewrite IH.
  destruct (defined v) eqn:Hv.
  - rewrite (stringify_defined v Hv). reflexivity.
  - destruct v; try discriminate Hv. reflexivity.
Qed.

Lemma kept_defined (props : list (string * jsval)) :
  List.flat_map
    (fun kv => match snd kv with
               | VUndef => []
               | _ => [(fst kv, read_back (snd kv))]
               end) props
  = List.map (fun kv => (fst kv, read_back (snd kv))) (defined_props props).
Proof.
  unfold defined_props.
  induction props as [|[k v] props IH]; [reflexivity|].
  cbn [List.flat_map List.filter snd fst]. rewrite IH.
  destruct v; reflexivity.
Qed.

Lemma steps_defined (props : list (string * jsval)) :
  List.flat_map
    (fun kv => match snd kv with
               | VUndef => []
               | _ => [S (parse_steps (snd kv))]
               end) props
  = List.map (fun kv => S (parse_steps (snd kv))) (defined_props props).
Proof.
  unfold defined_props.
  induction props as [|[k v] props IH]; [reflexivity|].
  cbn [List.flat_map List.filter snd fst]. rewrite IH.
  destruct v; reflexivity.
Qed.

Lemma list_sum_cons (a : nat) (l : list nat) :
  list_sum (a :: l) = (a + list_sum l)%nat.
Proof. reflexivity. Qed.

Lemma join_cons (sep a b : string) (l : list string) :
  Str.join sep (a :: b :: l) = a +:+ sep +:+ Str.join sep (b :: l).
Proof. reflexivity. Qed.

Lemma skip_comma (r : string) : JSON.skip_ws (String "," r) = String "," r.
Proof. reflexivity. Qed.

Lemma skip_bracket (r : string) : JSON.skip_ws (String "]" r) = String "]" r.
Proof. reflexivity. Qed.

Lemma skip_brace (r : string) : JSON.skip_ws (String "}" r) = String "}" r.
Proof. reflexivity. Qed.

(** *** Arrays and objects *)

Lemma elements_read (items : list jsval) :
  items <> [] -> List.Forall reads_back items ->
  forall (rest : string) (f : nat),
    (list_sum (List.map (fun x => S (parse_steps x)) items) <= f)%nat ->
    JSON.parse_elements f
      (Str.join "," (List.map JSON.stringify' items) +:+ String "]" rest)
    = Some (List.map read_back items, rest).
Proof.
  induction items as [|x xs IH]; [contradiction|].
  intros _ HF rest f Hf. inversion HF as [|? ? Hx Hxs]; subst.
  cbn [List.map] in Hf. rewrite list_sum_cons in Hf. destruct f as [|f]; [lia|].
  rewrite parse_element. destruct xs as [|y ys].
  - cbn [List.map Str.join].
    rewrite (Hx (String "]" rest) f eq_refl) by lia.
    rewrite skip_bracket. reflexivity.
  - cbn [List.map]. rewrite join_cons, !KeyFacts.append_assoc,
      KeyFacts.append_cons, KeyFacts.append_nil.
    match goal with
    | |- context [JSON.parse_value f (JSON.stringify' x +:+ ?r)] =>
        rewrite (Hx r f eq_refl) by lia
    end.
    rewrite skip_comma. cbv iota.
    change (JSON.stringify' y :: List.map JSON.stringify' ys)
      with (List.map JSON.stringify' (y :: ys)).
    rewrite IH; [reflexivity|discriminate|exact Hxs|].
    lia.
Qed.

Lemma members_read (l : list (string * jsval)) :
  l <> [] -> List.Forall (fun kv => reads_back (snd kv)) l ->
  forall (acc : list (string * jsval)) (rest : string) (f : nat),
    List.NoDup (List.map fst acc ++ List.map fst l) ->
    (list_sum (List.map (fun kv => S (parse_steps (snd kv))) l) <= f)%nat ->
    JSON.parse_members f acc
      (Str.join "," (List.map member_text l) +:+ String "}" rest)
    = Some (acc ++ List.map (fun kv => (fst kv, read_back (snd kv))) l, rest).
Proof.
  induction l as [|[k v] l IH]; [contradiction|].
  intros _ HF acc rest f Hkeys Hf. inversion HF as [|? ? Hv Hl]; subst.
  cbn [snd] in Hv. cbn [List.map snd fst] in Hf, Hkeys. rewrite list_sum_cons in Hf.
  destruct f as [|f]; [lia|].
  assert (Hfresh : ~ List.In k (List.map fst acc)).
  { intros Hin. apply List.NoDup_remove_2 in Hkeys. apply Hkeys.
    apply List.in_or_app. left. exact Hin. }
  destruct l as [|kv' l'].
  - cbn [List.map Str.join]. unfold member_text at 1. cbn [fst snd].
    rewrite !KeyFacts.append_assoc, KeyFacts.append_cons, KeyFacts.append_nil.
    rewrite (parse_member f acc k (read_back v) (String "}" rest));
      [|apply Hv; [reflexivity|lia]].
    rewrite skip_brace. rewrite StatsFacts.set_own_fresh by exact Hfresh.
    reflexivity.
  - cbn [List.map]. rewrite join_cons. unfold member_text at 1. cbn [fst snd].
    rewrite !KeyFacts.append_assoc, !KeyFacts.append_cons, !KeyFacts.append_nil.
    match goal with
    | |- context [JSON.stringify' v +:+ ?r] =>
        rewrite (parse_member f acc k (read_back v) r);
          [|apply Hv; [reflexivity|lia]]
    end.
    rewrite skip_comma. rewrite StatsFacts.set_own_fresh by exact Hfresh.
    change (member_text kv' :: List.map member_text l')
      with (List.map member_text (kv' :: l')).
    rewrite IH.
    + rewrite <- List.app_assoc. reflexivity.
    + discriminate.
    + exact Hl.
    + rewrite List.map_app, <- List.app_assoc. exact Hkeys.
    + lia.
Qed.

Lemma join_start (items : list jsval) :
  items <> [] ->
  exists c s, Str.join "," (List.map JSON.stringify' items) = String c s /\
              value_start c = true.
Proof.
  destruct items as [|x xs]; [contradiction|]. intros _.
  destruct (text_start x) as (c & s & E & Hc).
  destruct xs as [|y ys]; cbn [List.map].
  - exists c, s. cbn [Str.join]. auto.
  - rewrite join_cons, E, KeyFacts.append_cons. eauto.
Qed.

Lemma members_start (l : list (string * jsval)) :
  l <> [] ->
  exists s, Str.join "," (List.map member_text l) = String JSON.dquote s.
Proof.
  destruct l as [|[k v] l]; [contradiction|]. intros _.
  destruct l as [|kv l]; cbn [List.map].
  - cbn [Str.join]. unfold member_text. rewrite KeyFacts.quote_append. eauto.
  - rewrite join_cons. unfold member_text at 1.
    rewrite KeyFacts.quote_append, KeyFacts.append_cons. eauto.
Qed.

Lemma no_repeat_NoDup (ks : list string) :
  no_repeat ks = true -> List.NoDup ks.
Proof.
  induction ks as [|k ks IH]; cbn [no_repeat]; intros H; constructor.
  - apply andb_prop in H as [H _]. intros Hin.
    apply negb_true_iff in H.
    assert (existsb (String.eqb k) ks = true); [|congruence].
    apply List.existsb_exists. exists k. split; [exact Hin|apply String.eqb_refl].
  - apply IH. apply andb_prop in H as [_ H]. exact H.
Qed.

Lemma NoDup_defined (props : list (string * jsval)) :
  List.NoDup (List.map fst props) ->
  List.NoDup (List.map fst (defined_props props)).
Proof.
  unfold defined_props.
  induction props as [|[k v] props IH]; cbn [List.map List.filter fst snd];
    intros H; [constructor|].
  inversion H as [|? ? Hk Hrest]; subst.
  destruct (defined v); [|auto]. cbn [List.map fst]. constructor; [|auto].
  intros Hin. apply Hk. apply List.in_map_iff in Hin as ((k' & v') & E & Hin).
  apply List.filter_In in Hin as [Hin _]. cbn [fst] in E. subst k'.
  apply List.in_map_iff. exists (k, v'). auto.
Qed.

Lemma Forall_discharge {A} (P : A -> Prop) (b : A -> bool) (l : list A) :
  List.Forall (fun x => b x = true -> P x) l -> forallb b l = true ->
  List.Forall P l.
Proof.
  induction 1 as [|x l Hx _ IH]; cbn [forallb]; intros H; constructor;
    apply andb_prop in H as [Hb Hl]; auto.
Qed.

(** The text of a well formed value is parsed to what is read back of it. *)
Lemma value_reads_back (v : jsval) : well_formed v = true -> reads_back v.
Proof.
  induction v as [| |b|n|s|s|items IH|props IH] using jsval_nested_ind;
    intros Hwf rest fuel Hrest Hfuel;
    (destruct fuel as [|f]; [cbn in Hfuel; lia|]).
  - apply parse_null.
  - apply parse_null.
  - destruct b; [apply parse_true|apply parse_false].
  - destruct n as [z|]; [|discriminate Hwf].
    unfold JSON.stringify'. cbn [JSON.stringify default from_option id read_back].
    destruct (number_start z) as (c & s & E & Hc).
    rewrite <- (read_number_text z rest Hrest).
    rewrite E, KeyFacts.append_cons. apply parse_number, Hc.
  - apply parse_quote.
  - apply parse_quote.
  - cbn [well_formed] in Hwf. cbn [parse_steps] in Hfuel.
    pose proof (Forall_discharge _ _ _ IH Hwf) as Hitems.
    unfold JSON.stringify'. cbn [JSON.stringify default from_option id read_back].
    change (List.map (fun x => default "null" (JSON.stringify x)) items)
      with (List.map JSON.stringify' items).
    rewrite !KeyFacts.append_cons, !KeyFacts.append_nil, !KeyFacts.append_assoc, !KeyFacts.append_cons, !KeyFacts.append_nil.
    destruct items as [|x xs]; [apply parse_empty_array|].
    destruct (join_start (x :: xs)) as (c & s & E & Hc); [discriminate|].
    pose proof (parse_array f c (s +:+ String "]" rest) Hc) as Hopen.
    rewrite <- KeyFacts.append_cons, <- E in Hopen. rewrite Hopen.
    rewrite elements_read; [reflexivity|discriminate|exact Hitems|lia].
  - cbn [well_formed] in Hwf. apply andb_prop in Hwf as [Hkeys Hwf].
    cbn [parse_steps] in Hfuel. rewrite steps_defined in Hfuel.
    pose proof (Forall_discharge (fun kv => reads_back (snd kv))
                  (fun kv => well_formed (snd kv)) _ IH Hwf) as Hprops.
    assert (Hdef : List.Forall (fun kv => reads_back (snd kv))
                     (defined_props props)).
    { apply List.Forall_forall. intros kv Hin.
      apply List.filter_In in Hin as [Hin _].
      exact (proj1 (List.Forall_forall _ _) Hprops kv Hin). }
    pose proof (NoDup_defined props (no_repeat_NoDup _ Hkeys)) as Hnodup.
    unfold JSON.stringify'. cbn [JSON.stringify default from_option id read_back].
    rewrite texts_defined, kept_defined.
    rewrite !KeyFacts.append_cons, !KeyFacts.append_nil,
      !KeyFacts.append_assoc, !KeyFacts.append_cons, !KeyFacts.append_nil.
    destruct (defined_props props) as [|kv l] eqn:El;
      [apply parse_empty_object|].
    destruct (members_start (kv :: l)) as (s & E); [discriminate|].
    pose proof (parse_object f (s +:+ String "}" rest)) as Hopen.
    rewrite <- KeyFacts.append_cons, <- E in Hopen. rewrite Hopen.
    rewrite members_read; [reflexivity|discriminate|exact Hdef|exact Hnodup|lia].
Qed.

(** *** The steps of the parser *)

Lemma length_append (a b : string) :
  String.length (a +:+ b) = (String.length a + String.length b)%nat.
Proof.
  induction a as [|c a IH]; rewrite ?KeyFacts.append_nil, ?KeyFacts.append_cons;
    cbn [String.length]; [reflexivity|]. rewrite IH. reflexivity.
Qed.

Lemma join_steps (ns : list nat) (ts : list string) :
  List.Forall2 (fun n t => (n <= 2 * String.length t)%nat) ns ts ->
  (list_sum (List.map S ns) <= 2 * String.length (Str.join "," ts) + 2)%nat.
Proof.
  induction 1 as [|n t ns ts Hn Hrest IH]; [cbn; lia|].
  cbn [List.map]. rewrite list_sum_cons.
  destruct ts as [|t' ts'].
  - inversion Hrest; subst. cbn [List.map list_sum fold_right Str.join]. lia.
  - rewrite join_cons, !length_append. cbn [String.length]. lia.
Qed.

Lemma steps_bound (v : jsval) :
  (parse_steps v <= 2 * String.length (JSON.stringify' v))%nat.
Proof.
  induction v as [| |b|n|s|s|items IH|props IH] using jsval_nested_ind;
    unfold JSON.stringify'; cbn [JSON.stringify default from_option id parse_steps].
  - cbn. lia.
  - cbn. lia.
  - destruct b; cbn; lia.
  - destruct n as [z|]; [|cbn; lia].
    cbn [JSON.stringify default from_option id].
    destruct (number_start z) as (c & s & -> & _). cbn [String.length]. lia.
  - unfold JSON.quote. cbn [String.length]. lia.
  - unfold JSON.quote. cbn [String.length]. lia.
  - change (List.map (fun x => default "null" (JSON.stringify x)) items)
      with (List.map JSON.stringify' items).
    rewrite !length_append. cbn [String.length].
    rewrite <- (List.map_map parse_steps S).
    pose proof (join_steps (List.map parse_steps items)
                  (List.map JSON.stringify' items)) as H.
    assert (HF : List.Forall2 (fun n t => (n <= 2 * String.length t)%nat)
                   (List.map parse_steps items)
                   (List.map JSON.stringify' items)).
    { clear H. induction IH as [|x xs Hx _ IHxs]; cbn [List.map]; constructor;
        assumption. }
    specialize (H HF). lia.
  - rewrite steps_defined, texts_defined.
    rewrite !length_append. cbn [String.length].
    rewrite <- (List.map_map (fun kv => parse_steps (snd kv)) S).
    pose proof (join_steps
                  (List.map (fun kv => parse_steps (snd kv)) (defined_props props))
                  (List.map member_text (defined_props props))) as H.
    assert (HF : List.Forall2 (fun n t => (n <= 2 * String.length t)%nat)
                   (List.map (fun kv => parse_steps (snd kv)) (defined_props props))
                   (List.map member_text (defined_props props))).
    { clear H. unfold defined_props.
      induction IH as [|[k x] xs Hx _ IHxs]; cbn [List.map List.filter snd];
        [constructor|].
      destruct (defined x); [|exact IHxs]. cbn [List.map]. constructor;
        [|exact IHxs].
      unfold member_text. cbn [fst snd] in *. rewrite !length_append. lia. }
    specialize (H HF). lia.
Qed.

(** [JSON.parse] of the text of a well formed value. *)
Lemma parse_stringify (v : jsval) :
  well_formed v = true -> JSON.parse (JSON.stringify' v) = Some (read_back v).
Proof.
  intros Hwf. unfold JSON.parse.
  pose proof (value_reads_back v Hwf ""
                (2 * String.length (JSON.stringify' v) + 2)%nat eq_refl) as H.
  assert (E : JSON.stringify' v +:+ "" = JSON.stringify' v).
  { generalize (JSON.stringify' v). intros s.
    induction s as [|c s IHs]; [reflexivity|].
    rewrite KeyFacts.append_cons, IHs. reflexivity. }
  rewrite E in H. rewrite H; [reflexivity|].
  pose proof (steps_bound v). lia.
Qed.

(** What is read back of a value has the text of the value. *)
Lemma stringify_read_back (v : jsval) :
  JSON.stringify' (read_back v) = JSON.stringify' v.
Proof.
  induction v as [| |b|n|s|s|items IH|props IH] using jsval_nested_ind;
    try reflexivity.
  - destruct n; reflexivity.
  - unfold JSON.stringify'. cbn [JSON.stringify default from_option id read_back].
    do 3 f_equal. rewrite List.map_map.
    apply List.map_ext_in. intros x Hx.
    exact (proj1 (List.Forall_forall _ _) IH x Hx).
  - unfold JSON.stringify'. cbn [JSON.stringify default from_option id read_back].
    do 3 f_equal. rewrite kept_defined, !texts_defined.
    assert (Hkept : defined_props
                      (List.map (fun kv => (fst kv, read_back (snd kv)))
                         (defined_props props))
                    = List.map (fun kv => (fst kv, read_back (snd kv)))
                        (defined_props props)).
    { unfold defined_props. generalize props. clear.
      induction props as [|[k v] props IHp]; [reflexivity|].
      cbn [List.filter snd]. destruct (defined v) eqn:Hv; [|exact IHp].
      cbn [List.map List.filter fst snd].
      assert (Hr : defined (read_back v) = true)
        by (destruct v as [| |?|[|]|?|?|?|?]; try discriminate Hv; reflexivity).
      rewrite Hr. f_equal. exact IHp. }
    rewrite Hkept, List.map_map.
    apply List.map_ext_in. intros [k x] Hin. unfold member_text. cbn [fst snd].
    do 2 f_equal.
    apply List.filter_In in Hin as [Hin _].
    exact (proj1 (List.Forall_forall _ _) IH (k, x) Hin).
Qed.


(** A hit of the text a handler stored. *)
Lemma replay (key : string) (b : jsval) (w : world)
    (r : outcome response * world * list event) :
  well_formed b = true ->
  served_from_cache key (JSON.stringify' b) w r ->
  r = (Done (Response 200 (read_back b)), w, [CacheGet key]).
Proof.
  unfold served_from_cache. intros Hwf ->.
  rewrite (parse_stringify b Hwf). reflexivity.
Qed.

End JsonFacts.



(** The answer of a hit is the answer of the miss.  Once a cached operation
    has answered 200 from the store with a well formed body, the same request
    within the expiry of the operation is answered 200 from the cache alone,
    never a 500, and the body it answers has the JSON text of the body
    answered first. *)
Theorem hit_answers_same_text (req : request) (w : world) :
  replayed_for 300 (list_key req) (get_content req) w /\
  replayed_for 600 (id_key (request_id req)) (get_content_by_id req) w /\
  replayed_for 300 (request_search_key req) (get_search req) w /\
  replayed_for 120 stats_key (get_stats req) w.
Proof.
  unfold replayed_for, later_world.
  split; [|split; [|split]]; intros b w' tr Hrun Hstore Hwf t later clock' Hlate;
    (split; [|apply JsonFacts.stringify_read_back]);
    apply (JsonFacts.replay _ b _ _ Hwf).
  - destruct (TtlFacts.content_stored _ _ _ _ _ Hrun Hstore) as [Hget ->].
    apply TtlFacts.content_hit; cbn [redis now Redis.setEx Redis.get_fails];
      [exact Hget|apply HitFacts.stringify_nonempty|].
    fold (Redis.setEx (now w) (list_key req) 300 (JSON.stringify' b) (redis w)).
    rewrite TtlFacts.lookup_setEx. replace (later <? now w + 300) with true by lia.
    reflexivity.
  - destruct (TtlFacts.by_id_stored _ _ _ _ _ Hrun Hstore) as [Hget ->].
    apply TtlFacts.by_id_hit; cbn [redis now Redis.setEx Redis.get_fails];
      [exact Hget|apply HitFacts.stringify_nonempty|].
    fold (Redis.setEx (now w) (id_key (request_id req)) 600
            (JSON.stringify' b) (redis w)).
    rewrite TtlFacts.lookup_setEx. replace (later <? now w + 600) with true by lia.
    reflexivity.
  - destruct (TtlFacts.search_stored _ _ _ _ _ Hrun Hstore) as [[Hget ->] Hq].
    apply TtlFacts.search_hit; cbn [redis now Redis.setEx Redis.get_fails];
      [exact Hget|apply HitFacts.stringify_nonempty|exact Hq|].
    fold (Redis.setEx (now w) (request_search_key req) 300
            (JSON.stringify' b) (redis w)).
    rewrite TtlFacts.lookup_setEx. replace (later <? now w + 300) with true by lia.
    reflexivity.
  - destruct (TtlFacts.stats_stored _ _ _ _ _ Hrun Hstore) as [Hget ->].
    apply TtlFacts.stats_hit; cbn [redis now Redis.setEx Redis.get_fails];
      [exact Hget|apply HitFacts.stringify_nonempty|].
    fold (Redis.setEx (now w) stats_key 120 (JSON.stringify' b) (redis w)).
    rewrite TtlFacts.lookup_setEx. replace (later <? now w + 120) with true by lia.
    reflexivity.
Qed.

Lemma hit_answers_same_text_witness :
  get_stats (Request [] []) (later_world Sample.warm None 1100 Sample.clock0)
  = (Done (Response 200
             (read_back (answer_body (get_stats (Request [] []) Sample.up)))),
     later_world Sample.warm None 1100 Sample.clock0, [CacheGet stats_key]).
Proof.
  refine (proj1 (proj2 (proj2 (proj2 (hit_answers_same_text (Request [] [])
                                        Sample.up)))
                   (answer_body (get_stats (Request [] []) Sample.up))
                   Sample.warm (trace (get_stats (Request [] []) Sample.up))
                   _ _ _ None 1100 Sample.clock0 _)).
  - vm_compute. reflexivity.
  - vm_compute. reflexivity.
  - vm_compute. reflexivity.
  - vm_compute. reflexivity.
Defined.

(** ** Answers that are well formed *)

Module ShapeFacts.
Import SQL.

(** [parseInt] of an integer literal. *)
Lemma parseInt_literal (s : string) (z : Z) :
  Z_of_string s = Some z -> JS.parseInt_string s = Int z.
Proof.
  unfold Z_of_string, NilZero.int_of_string.
  destruct s as [|a s']; [discriminate|].
  destruct (Ascii.eqb_spec a "-") as [->|Ha].
  - destruct (NilZero.uint_of_string s') as [d|] eqn:E; [|discriminate].
    intros [= <-].
    pose proof (NilZero.uint_of_string_nonnil s') as Hnn.
    assert (Hd : d <> Decimal.Nil) by (intros ->; exact (Hnn E)).
    apply NilZero.sus in E. unfold NilZero.string_of_uint in E.
    assert (Es : s' = NilEmpty.string_of_uint d)
      by (destruct d; [contradiction|symmetry; exact E..]).
    rewrite Es. unfold JS.parseInt_string.
    rewrite DecimalFacts.span_digits_uint. cbn [fst].
    destruct (DecimalFacts.uint_head_not_sign d Hd) as (c & r & Hs & _).
    rewrite Hs. cbv iota. rewrite <- Hs.
    unfold JS.num_of_uint_string. rewrite NilEmpty.usu. reflexivity.
  - destruct (NilZero.uint_of_string (String a s')) as [d|] eqn:E; [|discriminate].
    intros [= <-].
    pose proof (NilZero.uint_of_string_nonnil (String a s')) as Hnn.
    assert (Hd : d <> Decimal.Nil) by (intros ->; exact (Hnn E)).
    apply NilZero.sus in E. unfold NilZero.string_of_uint in E.
    assert (Es : String a s' = NilEmpty.string_of_uint d)
      by (destruct d; [contradiction|symmetry; exact E..]).
    rewrite Es. rewrite DecimalFacts.parseInt_uint by exact Hd. reflexivity.
Qed.

Lemma parseInt_int_param (v : jsval) (d z : Z) :
  int_param v d = Some z -> JS.parseInt (or_default v (VNum (Int d))) = Int z.
Proof.
  destruct v; cbn; try discriminate.
  - intros [= ->]. reflexivity.
  - apply parseInt_literal.
Qed.

Lemma NoDup_no_repeat (ks : list string) :
  List.NoDup ks -> no_repeat ks = true.
Proof.
  induction 1 as [|k ks Hk _ IH]; [reflexivity|].
  cbn [no_repeat]. rewrite IH, andb_true_r. apply negb_true_iff.
  destruct (existsb (String.eqb k) ks) eqn:E; [|reflexivity].
  apply List.existsb_exists in E as (k' & Hin & Hk').
  apply String.eqb_eq in Hk'. subst k'. contradiction.
Qed.

Lemma js_of_sql_well_formed (v : sqlval) : well_formed (js_of_sql v) = true.
Proof. destruct v; reflexivity. Qed.

(** A projection on distinct columns is well formed. *)
Lemma project_well_formed (cs : list string) (r : row) :
  no_repeat cs = true -> well_formed (project cs r) = true.
Proof.
  intros Hcs. unfold project. cbn [well_formed].
  rewrite List.map_map. cbn [fst]. rewrite List.map_id, Hcs. cbn [andb].
  apply List.forallb_forall. intros kv Hin.
  apply List.in_map_iff in Hin as (c & <- & _). apply js_of_sql_well_formed.
Qed.

Lemma assoc_well_formed (q : list (string * string)) (k : string) :
  well_formed (assoc q k) = true.
Proof.
  induction q as [|[k' v] q IH]; [reflexivity|].
  cbn [assoc]. destruct (String.eqb k k'); [reflexivity|exact IH].
Qed.

(** The answer of the list computed from the store. *)
Lemma list_run (w : world) (t : table) (req : request) (p l : Z) :
  db w = Some t ->
  Redis.get_fails (redis w) = false ->
  Redis.set_fails (redis w) = false ->
  Redis.lookup (now w) (redis w) (list_key req) = None ->
  int_param (assoc (req_query req) "page") 1 = Some p -> 1 <= p ->
  int_param (assoc (req_query req) "limit") 50 = Some l -> 1 <= l ->
  safe p -> safe l -> safe ((p - 1) * l) ->
  answer_body (get_content req w)
  = list_body (assoc (req_query req) "type") (assoc (req_query req) "format")
      (assoc (req_query req) "author")
      (List.map (project list_columns)
         (take (Some l) (drop (Some ((p - 1) * l))
            (sort_desc "created_date"
               (selected_rows (assoc (req_query req) "type")
                  (assoc (req_query req) "format")
                  (assoc (req_query req) "author") t)))))
      p l
      (Z.of_nat (length (selected_rows (assoc (req_query req) "type")
                           (assoc (req_query req) "format")
                           (assoc (req_query req) "author") t))).
Proof.
  intros Hdb Hget Hset Hmiss Hp Hp1 Hl Hl1 Hsp Hsl Hso.
  unfold safe in Hsp, Hsl, Hso.
  destruct (SQLFacts.pg_text_int_param _ _ _ Hl) as (tl & Htl & Hztl).
  assert (Hoff : 0 <= (p - 1) * l < 2 ^ 63) by nia.
  apply (IntFacts.int_arg_literal 64) in Hztl;
    [|apply IntFacts.fits_64; lia].
  pose proof (ListFacts.run_data (assoc (req_query req) "type")
                (assoc (req_query req) "format")
                (assoc (req_query req) "author") t _ tl l ((p - 1) * l)
                Htl Hztl ltac:(lia) Hoff) as Hdata.
  pose proof (ListFacts.run_count (assoc (req_query req) "type")
                (assoc (req_query req) "format")
                (assoc (req_query req) "author") t) as Hcount.
  pose proof (SQLFacts.ToNumber_int_param _ _ _ Hp) as Hpn.
  pose proof (SQLFacts.ToNumber_int_param _ _ _ Hl) as Hln.
  pose proof (parseInt_int_param _ _ _ Hp) as Hpi.
  pose proof (parseInt_int_param _ _ _ Hl) as Hli.
  unfold answer_body, answer, list_body.
  unfold get_content, try_catch, bind, redis_get, pool_query, query_rows,
    redis_setEx, prop, ret.
  rewrite Hget, Hmiss. cbn [JS.truthy]. cbv beta iota zeta.
  rewrite Hdb, Hcount. cbn [item nth nullish JS.get JS.get_prop]. cbv beta iota zeta.
  change (String.eqb "count" "count") with true. cbv beta iota zeta.
  rewrite Hdb, Hpn, Hln. cbn [JS.sub JS.mul]. rewrite Hdata.
  cbv beta iota zeta. rewrite Hset.
  rewrite DecimalFacts.parseInt_count, Hpi, Hli. cbn [JS.ceil_div].
  replace (l =? 0) with false by lia. reflexivity.
Qed.

(** *** The objects of counts *)

Lemma set_own_keys (acc : list (string * jsval)) (k x : string) (v : jsval) :
  List.In x (List.map fst (JS.set_own acc k v)) ->
  x = k \/ List.In x (List.map fst acc).
Proof.
  induction acc as [|[k' v'] acc IH]; cbn [JS.set_own List.map fst].
  - intros [<-|[]]. auto.
  - destruct (String.eqb_spec k k') as [->|_]; cbn [List.map fst List.In].
    + intros [<-|H]; auto.
    + intros [<-|H]; [auto|]. destruct (IH H); auto.
Qed.

Lemma set_own_NoDup (acc : list (string * jsval)) (k : string) (v : jsval) :
  List.NoDup (List.map fst acc) ->
  List.NoDup (List.map fst (JS.set_own acc k v)).
Proof.
  induction acc as [|[k' v'] acc IH]; cbn [JS.set_own List.map fst]; intros H.
  - constructor; [intros []|constructor].
  - inversion H as [|? ? Hk Hrest]; subst.
    destruct (String.eqb_spec k k') as [->|Hne]; cbn [List.map fst].
    + constructor; assumption.
    + constructor; [|auto]. intros Hin.
      destruct (set_own_keys _ _ _ _ Hin) as [->|Hin']; [congruence|auto].
Qed.

Lemma set_own_values (acc : list (string * jsval)) (k : string) (v : jsval) :
  forallb (fun kv => well_formed (snd kv)) acc = true ->
  well_formed v = true ->
  forallb (fun kv => well_formed (snd kv)) (JS.set_own acc k v) = true.
Proof.
  intros Hacc Hv.
  induction acc as [|[k' v'] acc IH]; cbn [JS.set_own forallb snd].
  - rewrite Hv. reflexivity.
  - cbn [forallb snd] in Hacc. apply andb_prop in Hacc as [Hv' Hacc].
    destruct (String.eqb k k'); cbn [forallb snd].
    + rewrite Hv, Hacc. reflexivity.
    + rewrite Hv', IH by exact Hacc. reflexivity.
Qed.

(** The object of the counts of the groups is well formed. *)
Lemma count_object_well_formed (c : string) (groups : list (sqlval * nat)) :
  String.eqb "count" c = false ->
  well_formed (VObj (count_object c (List.map (group_row c) groups))) = true.
Proof.
  intros Hc. unfold count_object.
  assert (Hinv : forall acc,
    List.NoDup (List.map fst acc) ->
    forallb (fun kv => well_formed (snd kv)) acc = true ->
    well_formed
      (VObj (fold_left
               (fun counts row =>
                  JS.set_prop counts (JS.ToString (JS.get row c))
                    (VNum (JS.parseInt (JS.get row "count"))))
               (List.map (group_row c) groups) acc)) = true).
  { induction groups as [|g groups IH]; intros acc Hkeys Hvals.
    - cbn [List.map fold_left well_formed].
      rewrite (NoDup_no_repeat _ Hkeys), Hvals. reflexivity.
    - cbn [List.map fold_left]. apply IH.
      + unfold JS.set_prop. destruct (String.eqb _ "__proto__");
          [exact Hkeys|apply set_own_NoDup, Hkeys].
      + unfold JS.set_prop. destruct (String.eqb _ "__proto__");
          [exact Hvals|]. apply set_own_values; [exact Hvals|].
        unfold group_row. cbn [JS.get JS.get_prop]. rewrite Hc.
        rewrite String.eqb_refl, DecimalFacts.parseInt_count. reflexivity. }
  apply Hinv; [constructor|reflexivity].
Qed.

End ShapeFacts.

(** The answers computed from the store are well formed.  The body of a list
    request whose page and limit are at least 1, and the body of the
    statistics, have distinct keys at every level and integers for numbers,
    on whatever table: they are values the cache gives back with the same
    text.  The list echoes the page and the limit as numbers, and the
    filters as received.  The page, the limit and the offset are integers
    the doubles hold exactly. *)
Theorem computed_bodies_well_formed (w : world) (t : SQL.table) :
  db w = Some t ->
  Redis.get_fails (redis w) = false ->
  Redis.set_fails (redis w) = false ->
  (forall (req : request) (p l : Z),
      Redis.lookup (now w) (redis w) (list_key req) = None ->
      int_param (assoc (req_query req) "page") 1 = Some p -> 1 <= p ->
      int_param (assoc (req_query req) "limit") 50 = Some l -> 1 <= l ->
      safe p -> safe l -> safe ((p - 1) * l) ->
      let b := answer_body (get_content req w) in
      well_formed b = true /\
      JS.get (JS.get b "pagination") "page" = VNum (Int p) /\
      JS.get (JS.get b "pagination") "limit" = VNum (Int l) /\
      JS.get b "filters"
      = VObj [("type", assoc (req_query req) "type");
              ("format", assoc (req_query req) "format");
              ("author", assoc (req_query req) "author")]) /\
  (Redis.lookup (now w) (redis w) stats_key = None ->
   well_formed (answer_body (get_stats (Request [] []) w)) = true).
Proof.
  intros Hdb Hget Hset. split.
  - intros req p l Hmiss Hp Hp1 Hl Hl1 Hsp Hsl Hso b. subst b.
    rewrite (ShapeFacts.list_run w t req p l) by assumption.
    unfold list_body. split; [|repeat split].
    cbn [well_formed List.map fst snd forallb].
    rewrite !ShapeFacts.assoc_well_formed.
    assert (Hrows : forall rows,
      forallb well_formed (List.map (SQL.project list_columns) rows) = true).
    { intros rows. apply List.forallb_forall. intros x Hin.
      apply List.in_map_iff in Hin as (r & <- & _).
      apply ShapeFacts.project_well_formed. reflexivity. }
    rewrite Hrows. reflexivity.
  - intros Hmiss.
    destruct (StatsFields.stats_answers w t Hdb) as (avg & Hrows).
    unfold answer_body, answer. unfold_handler.
    rewrite Hget, Hmiss. change (JS.truthy VNull) with false. cbv beta iota.
    rewrite Hrows. cbn [nth item nullish JS.get JS.get_prop]. cbv beta iota.
    change (String.eqb "count" "count") with true.
    change (String.eqb "avg" "avg") with true. cbv beta iota.
    rewrite Hset. rewrite !DecimalFacts.parseInt_count.
    cbn [fst body].
    pose proof (ShapeFacts.count_object_well_formed "source_type"
                  (SQL.group_count "source_type" t) eq_refl) as Hsource.
    pose proof (ShapeFacts.count_object_well_formed "media_type"
                  (SQL.group_count "media_type"
                     (List.filter (SQL.matches [] [SQL.NotNull "media_type"]) t))
                  eq_refl) as Hmedia.
    cbn [well_formed] in Hsource, Hmedia.
    cbn [well_formed List.map fst snd forallb].
    rewrite Hsource, Hmedia.
    assert (Havg : exists z, rounded_or_zero avg = Int z).
    { unfold rounded_or_zero. destruct avg; eauto.
      destruct (JS.ToNumber_string _); eauto. }
    destruct Havg as (z & ->).
    match goal with
    | |- context [no_repeat ?l] => change (no_repeat l) with true
    end.
    cbn [andb]. rewrite andb_true_r.
    destruct (SQL.sort_desc "created_date" t) as [|r rest];
      [reflexivity|].
    change (SQL.take (Some 1) (r :: rest)) with [r].
    cbn [List.map nth SQL.project JS.get JS.get_prop].
    change (String.eqb "created_date" "created_date") with true. cbv iota.
    unfold JS.or. destruct (JS.truthy _); [|reflexivity].
    apply ShapeFacts.js_of_sql_well_formed.
Qed.

Lemma computed_bodies_well_formed_witness :
  well_formed (answer_body (get_content Sample.page2 Sample.up)) = true /\
  well_formed (answer_body (get_stats (Request [] []) Sample.up)) = true.
Proof.
  destruct (computed_bodies_well_formed Sample.up Sample.records
              eq_refl eq_refl eq_refl)
    as [Hlist Hstats].
  split.
  - refine (proj1 (Hlist Sample.page2 2 2 eq_refl eq_refl _ eq_refl _
                     (conj eq_refl eq_refl) (conj eq_refl eq_refl)
                     (conj eq_refl eq_refl))); lia.
  - exact (Hstats eq_refl).
Defined.

(** ** Get-by-id *)

(** Get-by-id, on a miss of the cache, when the store answers the query with
    at least one row: the answer is a 200 with the first row, cached under
    [content:] and the id for 600 seconds, the trace being the read of the
    cache, the one query and the write; and that row is the first record of
    the table that has the id, with all its columns. *)
Theorem by_id_found (req : request) (w : world) (row : jsval)
    (others : list jsval) :
  Redis.get_fails (redis w) = false ->
  Redis.set_fails (redis w) = false ->
  Redis.lookup (now w) (redis w) (id_key (request_id req)) = None ->
  query_rows w id_query [VStr (request_id req)] = Some (row :: others) ->
  let id := request_id req in
  let key := id_key id in
  get_content_by_id req w
  = (Done (Response 200 row),
     World (db w)
       (Redis.setEx (now w) key 600 (JSON.stringify' row) (redis w))
       (now w) (clock w),
     [CacheGet key; StoreQuery id_query [VStr id];
      CacheSetEx key 600 (JSON.stringify' row)]) /\
  exists tbl first later,
    db w = Some tbl /\
    List.filter (has_id id) tbl = first :: later /\
    row = SQL.all_columns first.
Proof.
  intros Hget Hset Hmiss Hrows id key. subst key id. split.
  - unfold request_id in *. unfold_handler. rewrite Hget, Hmiss.
    change (JS.truthy VNull) with false. cbv beta iota.
    rewrite Hrows. cbn [length Nat.eqb item nth]. cbv beta iota.
    rewrite Hset. reflexivity.
  - destruct (IdFacts.run_id_query _ _ _ Hrows) as (tbl & Hdb & E).
    exists tbl.
    rewrite (FilterFacts.filter_ext_bool _ (has_id (request_id req)) tbl) in E.
    + destruct (List.filter (has_id (request_id req)) tbl) as [|first later];
        [discriminate E|].
      exists first, later. cbn [List.map] in E. injection E as E _.
      split; [exact Hdb|]. split; [reflexivity|exact E].
    + intros r. unfold has_id, SQL.matches. cbn [forallb]. apply andb_true_r.
Qed.

Lemma by_id_found_witness :
  answer (get_content_by_id (Request [] [("id", "2")]) Sample.up)
  = Done (Response 200 (SQL.all_columns (nth 1 Sample.records []))).
Proof.
  exact (f_equal answer
           (proj1 (by_id_found (Request [] [("id", "2")]) Sample.up
                     (SQL.all_columns (nth 1 Sample.records [])) []
                     eq_refl eq_refl eq_refl eq_refl))).
Defined.

(** * Requests: hits, misses, parameters and limits *)

(** ** Hits of the cache *)

Module ClaimFacts.


End ClaimFacts.



(** ** Records that are not found, continued *)




(** ** Required parameters *)

(** C6.  A search without [q], or with an empty [q], is answered 400 before
    anything is asked of the cache or of the store, by the handler and hence
    by a GET of [/api/search].  The by-author handler answers a request
    without [author] the same way, but no request is answered by it: a GET
    of [/api/content/by-author] is answered by get-by-id with the id
    [by-author], which begins with a read of the cache and never answers
    that 400; with the cache empty and the store up the answer is a 500
    after a read of the cache and a query. *)
Theorem missing_parameter_rejected (req : request) (w : world) :
  (assoc (req_query req) "q" = VUndef \/ assoc (req_query req) "q" = VStr "" ->
   get_search req w = (Done (Response 400 (error_body q_required)), w, []) /\
   serve Router.GET "/api/search" (req_query req) w
   = (Done (Response 400 (error_body q_required)), w, [])) /\
  (assoc (req_query req) "author" = VUndef \/
   assoc (req_query req) "author" = VStr "" ->
   get_by_author req w
   = (Done (Response 400 (error_body "Author parameter is required")), w, [])) /\
  (serve Router.GET "/api/content/by-author" (req_query req) w
   = get_content_by_id (Request (req_query req) [("id", "by-author")]) w /\
   reads_cache "content:by-author"
     (serve Router.GET "/api/content/by-author" (req_query req) w) /\
   answer (serve Router.GET "/api/content/by-author" (req_query req) w)
   <> Done (Response 400 (error_body "Author parameter is required"))) /\
  serve Router.GET "/api/content/by-author" [] Sample.up
  = (failed, Sample.up,
     [CacheGet "content:by-author"; StoreQuery id_query [VStr "by-author"]]).
Proof.
  split; [|split; [|split]].
  - change (serve Router.GET "/api/search" (req_query req) w)
      with (get_search (Request (req_query req) []) w).
    intros [H|H]; unfold get_search, try_catch, ret; cbn [req_query];
      rewrite H; split; reflexivity.
  - intros [H|H]; unfold get_by_author, try_catch, ret; rewrite H; reflexivity.
  - change (serve Router.GET "/api/content/by-author" (req_query req) w)
      with (get_content_by_id (Request (req_query req) [("id", "by-author")]) w).
    split; [reflexivity|]. unfold reads_cache.
    split; unfold_handler; split_outside; cbn [trace answer fst snd app];
      try (eexists; reflexivity); discriminate.
  - reflexivity.
Qed.

Lemma missing_parameter_rejected_witness :
  serve Router.GET "/api/search" [("type", "video")] Sample.up
    = (Done (Response 400 (error_body q_required)), Sample.up, []) /\
  serve Router.GET "/api/search" [("q", "")] Sample.up
    = (Done (Response 400 (error_body q_required)), Sample.up, []) /\
  get_by_author (Request [] []) Sample.up
    = (Done (Response 400 (error_body "Author parameter is required")),
       Sample.up, []).
Proof.
  split; [|split].
  - exact (proj2 (proj1 (missing_parameter_rejected
                           (Request [("type", "video")] []) Sample.up)
                    (or_introl eq_refl))).
  - exact (proj2 (proj1 (missing_parameter_rejected (Request [("q", "")] []) Sample.up)
                    (or_intror eq_refl))).
  - exact (proj1 (proj2 (missing_parameter_rejected (Request [] []) Sample.up))
             (or_introl eq_refl)).
Defined.

(** ** Page and limit, continued *)

(** C7, amended.  The limit is used as it came.  Whatever LIMIT argument the
    list and the search send to the store is the [limit] of the request,
    untouched, or the default (50, 20) when the request has none.  On a miss
    of the cache with the store up the list sends its data query, and the
    search its query, with that one LIMIT argument; the OFFSET argument is
    the number [(p - 1) * l] when page and limit are absent or plain integer
    literals [p] and [l] that the doubles hold exactly together with that
    product.  Nothing is rounded, checked or clamped.  A GET of
    [/api/content/recent] sends no LIMIT at all. *)
Theorem limit_sent_as_received (req : request) (w : world) :
  let query := req_query req in
  let limit d := or_default (assoc query "limit") (VNum (Int d)) in
  let q := assoc query "q" in
  let type := assoc query "type" in
  let b := list_builder type (assoc query "format") (assoc query "author") in
  (forall e v, List.In e (trace (get_content req w)) ->
     limit_argument e = Some v -> v = limit 50) /\
  (forall e v, List.In e (trace (get_search req w)) ->
     limit_argument e = Some v -> v = limit 20) /\
  (Redis.get_fails (redis w) = false ->
   Redis.lookup (now w) (redis w) (list_key req) = None ->
   db w <> None ->
   exists off,
     List.In (StoreQuery (list_data_query b) (queryParams b ++ [limit 50; off]))
       (trace (get_content req w)) /\
     limits_sent (get_content req w) = [limit 50] /\
     offsets_sent (get_content req w) = [off] /\
     forall p l,
       int_param (assoc query "page") 1 = Some p ->
       int_param (assoc query "limit") 50 = Some l ->
       safe p -> safe l -> safe ((p - 1) * l) ->
       off = VNum (Int ((p - 1) * l))) /\
  (Redis.get_fails (redis w) = false ->
   JS.truthy q = true ->
   Redis.lookup (now w) (redis w) (request_search_key req) = None ->
   exists off,
     List.In (StoreQuery (search_query type)
                ([VStr ("%" +:+ JS.ToString q +:+ "%"); limit 20; off]
                 ++ (if JS.truthy type then [type] else [])))
       (trace (get_search req w)) /\
     limits_sent (get_search req w) = [limit 20] /\
     offsets_sent (get_search req w) = [off] /\
     forall p l,
       int_param (assoc query "page") 1 = Some p ->
       int_param (assoc query "limit") 20 = Some l ->
       safe p -> safe l -> safe ((p - 1) * l) ->
       off = VNum (Int ((p - 1) * l))) /\
  limits_sent (serve Router.GET "/api/content/recent" query w) = [].
Proof.
  intros query limit q type b. subst query limit q type b. cbv beta.
  split; [|split; [|split; [|split]]].
  - unfold_handler; split_outside; intros e v H; split_in H; subst e;
      try (destruct (LimitFacts.list_limit (assoc (req_query req) "type")
                       (assoc (req_query req) "format")
                       (assoc (req_query req) "author")
                       (or_default (assoc (req_query req) "limit") (VNum (Int 50)))
                       (VNum (JS.mul
                          (JS.sub (JS.ToNumber
                             (or_default (assoc (req_query req) "page")
                                (VNum (Int 1))))
                             (Int 1))
                          (JS.ToNumber
                             (or_default (assoc (req_query req) "limit")
                                (VNum (Int 50)))))))
             as [Hl _]; cbv zeta in Hl; rewrite ?Hl);
      cbn; intros; congruence.
  - unfold_handler; split_outside; intros e v H; split_in H; subst e;
      cbn; intros; congruence.
  - intros Hget Hmiss Hdb.
    destruct (db w) as [t|] eqn:Et; [clear Hdb|congruence].
    pose proof (ListFacts.run_count (assoc (req_query req) "type")
                  (assoc (req_query req) "format")
                  (assoc (req_query req) "author") t) as Hcount.
    pose proof (LimitFacts.list_limit (assoc (req_query req) "type")
                  (assoc (req_query req) "format")
                  (assoc (req_query req) "author")
                  (or_default (assoc (req_query req) "limit") (VNum (Int 50)))
                  (VNum (JS.mul
                     (JS.sub (JS.ToNumber
                        (or_default (assoc (req_query req) "page") (VNum (Int 1))))
                        (Int 1))
                     (JS.ToNumber
                        (or_default (assoc (req_query req) "limit")
                           (VNum (Int 50))))))) as [Hl Ho].
    cbv zeta in Hl, Ho.
    exists (VNum (JS.mul
              (JS.sub (JS.ToNumber
                 (or_default (assoc (req_query req) "page") (VNum (Int 1))))
                 (Int 1))
              (JS.ToNumber
                 (or_default (assoc (req_query req) "limit") (VNum (Int 50)))))).
    assert (Hrun : exists ans w' rest,
      get_content req w
      = (ans, w',
         [CacheGet (list_key req);
          StoreQuery
            (list_count_query
               (list_builder (assoc (req_query req) "type")
                  (assoc (req_query req) "format")
                  (assoc (req_query req) "author")))
            (queryParams
               (list_builder (assoc (req_query req) "type")
                  (assoc (req_query req) "format")
                  (assoc (req_query req) "author")));
          StoreQuery
            (list_data_query
               (list_builder (assoc (req_query req) "type")
                  (assoc (req_query req) "format")
                  (assoc (req_query req) "author")))
            (queryParams
               (list_builder (assoc (req_query req) "type")
                  (assoc (req_query req) "format")
                  (assoc (req_query req) "author"))
             ++ [or_default (assoc (req_query req) "limit") (VNum (Int 50));
                 VNum (JS.mul
                   (JS.sub (JS.ToNumber
                      (or_default (assoc (req_query req) "page") (VNum (Int 1))))
                      (Int 1))
                   (JS.ToNumber
                      (or_default (assoc (req_query req) "limit")
                         (VNum (Int 50)))))])] ++ rest) /\
      forallb is_cache_event rest = true).
    { unfold get_content, try_catch, bind, redis_get, pool_query, redis_setEx,
        prop, ret, internal_error.
      rewrite Hget, Hmiss. cbn [JS.truthy]. cbv beta iota zeta.
      unfold query_rows at 1. rewrite Et, Hcount.
      cbn [item nth nullish JS.get JS.get_prop]. cbv beta iota zeta.
      change (String.eqb "count" "count") with true. cbv beta iota zeta.
      match goal with
      | |- context [query_rows ?w ?q ?ps] => destruct (query_rows w q ps)
      end; cbv beta iota zeta;
        [destruct (Redis.set_fails (redis w))|];
        cbv beta iota zeta; cbn [app];
        do 3 eexists; (split; [reflexivity|reflexivity]). }
    destruct Hrun as (ans & w' & rest & Hrun & Hrest). rewrite Hrun.
    assert (Hnone : forall f : event -> option jsval,
              (forall k, f (CacheGet k) = None) ->
              (forall k t v, f (CacheSetEx k t v) = None) ->
              omap f rest = []).
    { clear -Hrest. intros f Hg Hs. induction rest as [|e rest IH];
        [reflexivity|]. cbn in Hrest. apply andb_prop in Hrest as [He Hr].
      destruct e; try discriminate He; cbn; rewrite ?Hg, ?Hs; auto. }
    split; [cbn; auto|].
    split; [|split].
    + unfold limits_sent. cbn [trace snd app]. cbn [omap list_omap].
      rewrite Hl. cbn [limit_argument bound_argument SQL.q_limit list_count_query].
      rewrite Hnone by (intros; reflexivity). reflexivity.
    + unfold offsets_sent. cbn [trace snd app]. cbn [omap list_omap].
      rewrite Ho.
      cbn [offset_argument bound_argument SQL.q_offset list_count_query].
      rewrite Hnone by (intros; reflexivity). reflexivity.
    + intros p l Hp Hlim _ _ _.
      rewrite (SQLFacts.ToNumber_int_param _ _ _ Hp),
        (SQLFacts.ToNumber_int_param _ _ _ Hlim).
      reflexivity.
  - intros Hget Hq Hmiss. unfold request_search_key in Hmiss.
    exists (VNum (JS.mul
              (JS.sub (JS.ToNumber
                 (or_default (assoc (req_query req) "page") (VNum (Int 1))))
                 (Int 1))
              (JS.ToNumber
                 (or_default (assoc (req_query req) "limit") (VNum (Int 20)))))).
    split; [|split; [|split]].
    1-3: unfold limits_sent, offsets_sent; unfold_handler; rewrite Hq;
      cbn [negb]; cbv beta iota; rewrite Hget, Hmiss;
      change (JS.truthy VNull) with false; cbv beta iota;
      split_outside; cbn; auto.
    intros p l Hp Hlim _ _ _.
    rewrite (SQLFacts.ToNumber_int_param _ _ _ Hp),
      (SQLFacts.ToNumber_int_param _ _ _ Hlim).
    reflexivity.
  - change (serve Router.GET "/api/content/recent" (req_query req) w)
      with (get_content_by_id (Request (req_query req) [("id", "recent")]) w).
    unfold limits_sent. unfold_handler; split_outside; reflexivity.
Qed.

Lemma limit_sent_as_received_witness :
  limits_sent (get_content (Request [("limit", "-5"); ("page", "3")] []) Sample.up)
    = [VStr "-5"] /\
  offsets_sent (get_content (Request [("limit", "-5"); ("page", "3")] []) Sample.up)
    = [VNum (Int (-10))] /\
  limits_sent (get_search (Request [("q", "a"); ("limit", "0")] []) Sample.up)
    = [VStr "0"].
Proof.
  pose proof (limit_sent_as_received
                (Request [("limit", "-5"); ("page", "3")] []) Sample.up) as H.
  cbv zeta in H. destruct H as (_ & _ & H & _).
  destruct (H eq_refl eq_refl ltac:(discriminate)) as (off & _ & Hl & Ho & Hoff).
  rewrite (Hoff 3 (-5) eq_refl eq_refl
             (conj eq_refl eq_refl) (conj eq_refl eq_refl) (conj eq_refl eq_refl))
    in Ho.
  split; [exact Hl|]. split; [exact Ho|].
  pose proof (limit_sent_as_received
                (Request [("q", "a"); ("limit", "0")] []) Sample.up) as H'.
  cbv zeta in H'. destruct H' as (_ & _ & _ & H' & _).
  destruct (H' eq_refl eq_refl eq_refl) as (off' & _ & Hl' & _).
  exact Hl'.
Defined.


(** ** What is cached, and for how long *)

Module StoreFacts.

(** A query sent to a store that is down is not answered. *)
Lemma down_unanswered (w : world) (q : SQL.query) (ps : list jsval) :
  db w = None -> query_rows w q ps = None.
Proof. unfold query_rows. intros ->. reflexivity. Qed.

Lemma list_computed (req : request) (w : world) :
  Redis.get_fails (redis w) = false ->
  Redis.set_fails (redis w) = false ->
  Redis.lookup (now w) (redis w) (list_key req) = None ->
  answered w (get_content req w) ->
  computed_and_cached (list_key req) 300 w (get_content req w).
Proof.
  intros Hget Hset Hmiss. unfold answered, computed_and_cached.
  destruct (db w) as [t|] eqn:Et.
  - pose proof (ListFacts.run_count (assoc (req_query req) "type")
                  (assoc (req_query req) "format")
                  (assoc (req_query req) "author") t) as Hcount.
    assert (Hc : query_rows w
                   (list_count_query
                      (list_builder (assoc (req_query req) "type")
                         (assoc (req_query req) "format")
                         (assoc (req_query req) "author")))
                   (queryParams
                      (list_builder (assoc (req_query req) "type")
                         (assoc (req_query req) "format")
                         (assoc (req_query req) "author")))
                 = Some [VObj [("count",
                     SQL.count_text
                       (length
                          (selected_rows (assoc (req_query req) "type")
                             (assoc (req_query req) "format")
                             (assoc (req_query req) "author") t)))]])
      by (unfold query_rows; rewrite Et; exact Hcount).
    unfold get_content, try_catch, bind, redis_get, pool_query, redis_setEx,
      prop, ret, internal_error.
    rewrite Hget, Hmiss. cbn [JS.truthy]. cbv beta iota zeta.
    rewrite Hc.
    cbn [item nth nullish JS.get JS.get_prop]. cbv beta iota zeta.
    change (String.eqb "count" "count") with true. cbv beta iota zeta.
    match goal with
    | |- context [query_rows ?w ?q ?ps] => destruct (query_rows w q ps) eqn:Ed
    end; cbv beta iota zeta; rewrite ?Hset; cbn [trace snd app]; intros Hans.
    + eexists _, [_; _]. split; [rewrite Et; reflexivity|].
      split; [discriminate|reflexivity].
    + exfalso. eapply Hans; [right; right; left; reflexivity|]. exact Ed.
  - unfold get_content, try_catch, bind, redis_get, pool_query, ret,
      internal_error.
    rewrite Hget, Hmiss. cbn [JS.truthy]. cbv beta iota zeta.
    rewrite down_unanswered by exact Et.
    cbn [trace snd app]. intros Hans. exfalso.
    eapply Hans; [right; left; reflexivity|].
    apply down_unanswered, Et.
Qed.

Lemma by_id_computed (req : request) (w : world) (row : jsval)
    (others : list jsval) :
  Redis.get_fails (redis w) = false ->
  Redis.set_fails (redis w) = false ->
  Redis.lookup (now w) (redis w) (id_key (request_id req)) = None ->
  query_rows w id_query [VStr (request_id req)] = Some (row :: others) ->
  computed_and_cached (id_key (request_id req)) 600 w (get_content_by_id req w).
Proof.
  unfold request_id, computed_and_cached. intros Hget Hset Hmiss Hrows.
  unfold_handler. rewrite Hget, Hmiss. change (JS.truthy VNull) with false.
  cbv beta iota. rewrite Hrows. cbn [length Nat.eqb item nth]. cbv beta iota.
  rewrite Hset. eexists _, [_]. split; [reflexivity|].
  split; [discriminate|reflexivity].
Qed.

Lemma search_computed (req : request) (w : world) :
  Redis.get_fails (redis w) = false ->
  Redis.set_fails (redis w) = false ->
  JS.truthy (assoc (req_query req) "q") = true ->
  Redis.lookup (now w) (redis w) (request_search_key req) = None ->
  answered w (get_search req w) ->
  computed_and_cached (request_search_key req) 300 w (get_search req w).
Proof.
  unfold request_search_key, answered, computed_and_cached.
  intros Hget Hset Hq Hmiss.
  unfold_handler. rewrite Hq. cbn [negb]. cbv beta iota.
  rewrite Hget, Hmiss. change (JS.truthy VNull) with false. cbv beta iota.
  match goal with
  | |- context [query_rows ?w ?q ?ps] => destruct (query_rows w q ps) eqn:Ed
  end; cbv beta iota zeta; rewrite ?Hset; cbn [trace snd app]; intros Hans.
  - eexists _, [_]. split; [reflexivity|].
    split; [discriminate|reflexivity].
  - exfalso. eapply Hans; [right; left; reflexivity|]. exact Ed.
Qed.

Lemma stats_computed (req : request) (w : world) :
  Redis.get_fails (redis w) = false ->
  Redis.set_fails (redis w) = false ->
  Redis.lookup (now w) (redis w) stats_key = None ->
  answered w (get_stats req w) ->
  computed_and_cached stats_key 120 w (get_stats req w).
Proof.
  unfold answered, computed_and_cached. intros Hget Hset Hmiss.
  destruct (db w) as [t|] eqn:Et.
  - destruct (StatsFields.stats_answers w t Et) as (avg & Hrows). intros _.
    unfold_handler.
    rewrite Hget, Hmiss. change (JS.truthy VNull) with false. cbv beta iota.
    rewrite Hrows. cbn [nth item nullish JS.get JS.get_prop]. cbv beta iota.
    change (String.eqb "count" "count") with true.
    change (String.eqb "avg" "avg") with true. cbv beta iota.
    rewrite Hset, Et.
    eexists _, (List.map (fun qp => StoreQuery (fst qp) (snd qp)) stats_queries).
    split; [reflexivity|]. split; [discriminate|reflexivity].
  - unfold_handler.
    rewrite Hget, Hmiss. change (JS.truthy VNull) with false. cbv beta iota.
    destruct (all_rows w stats_queries) eqn:Ea.
    + unfold stats_queries, all_rows in Ea.
      rewrite !down_unanswered in Ea by exact Et. discriminate Ea.
    + cbn [trace snd app]. intros Hans. exfalso.
      eapply Hans; [right; left; reflexivity|].
      apply down_unanswered, Et.
Qed.

Lemma writes (req : request) (w : world) :
  writes_only (list_key req) 300 (get_content req w) /\
  writes_only (id_key (request_id req)) 600 (get_content_by_id req w) /\
  writes_only (request_search_key req) 300 (get_search req w) /\
  writes_only stats_key 120 (get_stats req w).
Proof.
  unfold writes_only, request_id, request_search_key.
  split; [|split; [|split]]; unfold_handler; split_outside; in_trace.
Qed.

End StoreFacts.

(** C5.  Whatever the list, get-by-id, the search and the statistics write
    to the cache, they write under their own key, for 300, 600, 300 and 120
    seconds.  With the cache up and nothing under the key, each of them,
    once the store has answered its queries (for get-by-id: with a row),
    answers 200 and has written the JSON text of that very body under the
    key for that time, after its queries.  The handlers of recent and of
    by-author never touch the cache; but no request is answered by them: a
    GET of [/api/content/recent] or of [/api/content/by-author] is answered
    by get-by-id, which begins by reading the cache, under the key
    [content:recent] or [content:by-author]. *)
Theorem cache_ttl_per_operation (req : request) (w : world) :
  (writes_only (list_key req) 300 (get_content req w) /\
   writes_only (id_key (request_id req)) 600 (get_content_by_id req w) /\
   writes_only (request_search_key req) 300 (get_search req w) /\
   writes_only stats_key 120 (get_stats req w)) /\
  (Redis.get_fails (redis w) = false ->
   Redis.set_fails (redis w) = false ->
   (Redis.lookup (now w) (redis w) (list_key req) = None ->
    answered w (get_content req w) ->
    computed_and_cached (list_key req) 300 w (get_content req w)) /\
   (Redis.lookup (now w) (redis w) (id_key (request_id req)) = None ->
    forall row others,
      query_rows w id_query [VStr (request_id req)] = Some (row :: others) ->
      computed_and_cached (id_key (request_id req)) 600 w
        (get_content_by_id req w)) /\
   (JS.truthy (assoc (req_query req) "q") = true ->
    Redis.lookup (now w) (redis w) (request_search_key req) = None ->
    answered w (get_search req w) ->
    computed_and_cached (request_search_key req) 300 w (get_search req w)) /\
   (Redis.lookup (now w) (redis w) stats_key = None ->
    answered w (get_stats req w) ->
    computed_and_cached stats_key 120 w (get_stats req w))) /\
  (uncached (get_recent req w) /\ uncached (get_by_author req w)) /\
  reads_cache "content:recent"
    (serve Router.GET "/api/content/recent" (req_query req) w) /\
  reads_cache "content:by-author"
    (serve Router.GET "/api/content/by-author" (req_query req) w).
Proof.
  split; [exact (StoreFacts.writes req w)|].
  split.
  { intros Hget Hset. split; [|split; [|split]].
    - intros Hmiss. apply StoreFacts.list_computed; assumption.
    - intros Hmiss row others. apply StoreFacts.by_id_computed; assumption.
    - intros Hq Hmiss. apply StoreFacts.search_computed; assumption.
    - intros Hmiss. apply StoreFacts.stats_computed; assumption. }
  split.
  { unfold uncached. split; unfold_handler; split_outside; in_trace. }
  change (serve Router.GET "/api/content/recent" (req_query req) w)
    with (get_content_by_id (Request (req_query req) [("id", "recent")]) w).
  change (serve Router.GET "/api/content/by-author" (req_query req) w)
    with (get_content_by_id (Request (req_query req) [("id", "by-author")]) w).
  unfold reads_cache.
  split; unfold_handler; split_outside; cbn [trace snd app];
    eexists; reflexivity.
Qed.

Ltac all_answered :=
  let q := fresh "q" in
  let ps := fresh "ps" in
  let H := fresh "H" in
  intros q ps H; vm_compute in H;
  repeat (destruct H as [H|H]; [try discriminate H|]);
  try contradiction;
  injection H as <- <-; vm_compute; discriminate.

Lemma cache_ttl_per_operation_witness :
  computed_and_cached (list_key (Request [] [])) 300 Sample.up
    (get_content (Request [] []) Sample.up) /\
  computed_and_cached "content:2" 600 Sample.up
    (get_content_by_id (Request [] [("id", "2")]) Sample.up) /\
  computed_and_cached "search:a:undefined:page:1:limit:20" 300 Sample.up
    (get_search (Request [("q", "a")] []) Sample.up) /\
  computed_and_cached stats_key 120 Sample.up
    (get_stats (Request [] []) Sample.up).
Proof.
  split; [|split; [|split]].
  - refine (proj1 (proj1 (proj2 (cache_ttl_per_operation (Request [] []) Sample.up))
                     eq_refl eq_refl) eq_refl _).
    all_answered.
  - refine (proj1 (proj2 (proj1 (proj2
              (cache_ttl_per_operation (Request [] [("id", "2")]) Sample.up))
              eq_refl eq_refl)) eq_refl _ _ _).
    reflexivity.
  - refine (proj1 (proj2 (proj2 (proj1 (proj2
              (cache_ttl_per_operation (Request [("q", "a")] []) Sample.up))
              eq_refl eq_refl))) eq_refl eq_refl _).
    all_answered.
  - refine (proj2 (proj2 (proj2 (proj1 (proj2
              (cache_ttl_per_operation (Request [] []) Sample.up))
              eq_refl eq_refl))) eq_refl _).
    all_answered.
Defined.
